(** * A terminal dungeon crawler (game.py): shallow embedding and properties

    The Python program is embedded as executable Rocq functions.

    - Python integers are [Z]; list positions are [nat] once an index has
      been normalised the way Python does it (negative indices count from
      the end, anything else out of range raises [IndexError]).
    - A dict is an association list in insertion order, because the
      program iterates over [rooms] and the order decides which rooms
      receive enemies and items.
    - The process-wide random generator is a finite list of raw draws that
      is threaded through every function that calls [random]; one raw draw
      [d] answers one call of the generator's [randbelow n] with [d mod n],
      so every possible outcome of the generator is covered by some list.
    - A computation ends with a value ([Done]), with a Python exception
      ([Raised]) or because the list of draws is used up ([OutOfDraws]).
    - [print] is modelled by the list of lines written, each line being an
      [event] that keeps the numbers and names the line shows.
    - The text [draw_map] returns is a [string]; what the whole program
      prints is a list of [shown]: the lines of the commands, the lines of
      [look], and texts.  The prompt that [input] writes is left out.
    - The main loop is given the lines typed as they are after
      [strip().lower()]; the end of the list is the end of the input. *)

From stdpp Require Import base numbers list strings.

Open Scope Z_scope.

(** ** Outcomes of a computation *)

Inductive exn := IndexError | KeyError | ValueError | ZeroDivisionError.

Inductive outcome (A : Type) : Type :=
  | Done (a : A)
  | Raised (e : exn)
  | OutOfDraws.
Arguments Done {A} a.
Arguments Raised {A} e.
Arguments OutOfDraws {A}.

(** Sequencing: the first exception, or the end of the draws, ends it. *)
Definition bind {A B : Type} (m : outcome A) (f : A → outcome B) : outcome B :=
  match m with
  | Done a => f a
  | Raised e => Raised e
  | OutOfDraws => OutOfDraws
  end.

Notation "'let*' x := m 'in' k" := (bind m (λ x, k))
  (at level 10, x name, m at level 200, k at level 200,
   format "'[' 'let*'  x  :=  m  'in' ']' '//' k").
Notation "'let*' ' p := m 'in' k" := (bind m (λ x, match x with p => k end))
  (at level 10, p strict pattern, m at level 200, k at level 200,
   format "'[' 'let*'  ' p  :=  m  'in' ']' '//' k").

(** [for x in xs: body], the loop state passed along explicitly. *)
Fixpoint for_each {A S : Type} (xs : list A) (body : A → S → outcome S) (s : S)
    : outcome S :=
  match xs with
  | [] => Done s
  | x :: xs' => let* s' := body x s in for_each xs' body s'
  end.

(** ** Python lists *)

(** The position a Python index denotes in a list of length [len]. *)
Definition norm_index (len : nat) (i : Z) : option nat :=
  if decide (0 ≤ i < Z.of_nat len) then Some (Z.to_nat i)
  else if decide (- Z.of_nat len ≤ i < 0) then Some (Z.to_nat (Z.of_nat len + i))
  else None.

(** [l[i]] *)
Definition getitem {A : Type} (l : list A) (i : Z) : outcome A :=
  match norm_index (length l) i with
  | Some k => match l !! k with Some x => Done x | None => Raised IndexError end
  | None => Raised IndexError
  end.

(** [l[i] = x] *)
Definition setitem {A : Type} (l : list A) (i : Z) (x : A) : outcome (list A) :=
  match norm_index (length l) i with
  | Some k => Done (<[k:=x]> l)
  | None => Raised IndexError
  end.

(** [l[i], l[j] = l[j], l[i]].  [shuffle], its only caller, swaps positions
    inside the list; for other positions Python raises and the list stays
    as it is. *)
Definition swap {A : Type} (l : list A) (i j : nat) : list A :=
  match l !! i, l !! j with
  | Some a, Some b => <[j:=a]> (<[i:=b]> l)
  | _, _ => l
  end.

(** [list.remove(x)]: drops the first occurrence, [ValueError] if none. *)
Fixpoint list_remove {A : Type} `{EqDecision A} (x : A) (l : list A)
    : outcome (list A) :=
  match l with
  | [] => Raised ValueError
  | y :: l' => if decide (x = y) then Done l'
               else let* l'' := list_remove x l' in Done (y :: l'')
  end.

(** ** Python dicts, in insertion order *)

Section dict.
Context {K V : Type} `{EqDecision K}.

Fixpoint dict_lookup (d : list (K * V)) (k : K) : option V :=
  match d with
  | [] => None
  | (k', v) :: d' => if decide (k = k') then Some v else dict_lookup d' k
  end.

(** [d[k]] *)
Definition dict_getitem (d : list (K * V)) (k : K) : outcome V :=
  match dict_lookup d k with Some v => Done v | None => Raised KeyError end.

(** [d[k] = v]: an existing key keeps its place, a new one goes last. *)
Fixpoint dict_setitem (d : list (K * V)) (k : K) (v : V) : list (K * V) :=
  match d with
  | [] => [(k, v)]
  | (k', v') :: d' =>
      if decide (k = k') then (k, v) :: d' else (k', v') :: dict_setitem d' k v
  end.

(** [d[k][field] = ...]: the value stored under [k] is changed in place. *)
Definition dict_update (d : list (K * V)) (k : K) (f : V → V)
    : outcome (list (K * V)) :=
  let* v := dict_getitem d k in Done (dict_setitem d k (f v)).

Definition dict_keys (d : list (K * V)) : list K := d.*1.
End dict.

(** ** The random module

    [choice], [randint] and [shuffle] of the standard library, each written
    over [randbelow] as the library does. *)

Definition randbelow (n : nat) (d : nat) : nat := (d mod n)%nat.

(** [random.choice(seq)] answered by the raw draw [d]. *)
Definition choice_with {A : Type} (seq : list A) (d : nat) : outcome A :=
  match seq !! randbelow (length seq) d with
  | Some x => Done x
  | None => Raised IndexError
  end.

Definition choice {A : Type} (seq : list A) (draws : list nat)
    : outcome (A * list nat) :=
  match seq with
  | [] => Raised IndexError
  | _ =>
      match draws with
      | [] => OutOfDraws
      | d :: draws' => let* x := choice_with seq d in Done (x, draws')
      end
  end.

(** [random.randint(a, b)] answered by the raw draw [d]. *)
Definition randint_with (a b : Z) (d : nat) : outcome Z :=
  if decide (0 < b + 1 - a)
  then Done (a + Z.of_nat (randbelow (Z.to_nat (b + 1 - a)) d))
  else Raised ValueError.

Definition randint (a b : Z) (draws : list nat) : outcome (Z * list nat) :=
  if decide (0 < b + 1 - a) then
    match draws with
    | [] => OutOfDraws
    | d :: draws' => let* x := randint_with a b d in Done (x, draws')
    end
  else Raised ValueError.

(** [random.shuffle(x)]: for i from len-1 down to 1, swap x[i] with
    x[randbelow(i+1)]. *)
Definition shuffle {A : Type} (x : list A) (draws : list nat)
    : outcome (list A * list nat) :=
  for_each (reverse (seq 1 (length x - 1)))
    (λ i '(x, draws),
       match draws with
       | [] => OutOfDraws
       | d :: draws' => Done (swap x i (randbelow (i + 1) d), draws')
       end)
    (x, draws).

(** ** Data model *)

Definition pos : Type := Z * Z.

(** A player is the dict [{"hp", "max_hp", "atk", "pos", "inv"}]. *)
Module Player.
Record t := mk { hp : Z; max_hp : Z; atk : Z; pos : Z * Z; inv : list string }.
Definition set_hp (v : Z) (p : t) : t := mk v (max_hp p) (atk p) (pos p) (inv p).
Definition set_max_hp (v : Z) (p : t) : t := mk (hp p) v (atk p) (pos p) (inv p).
Definition set_atk (v : Z) (p : t) : t := mk (hp p) (max_hp p) v (pos p) (inv p).
Definition set_pos (v : Z * Z) (p : t) : t := mk (hp p) (max_hp p) (atk p) v (inv p).
Definition set_inv (v : list string) (p : t) : t :=
  mk (hp p) (max_hp p) (atk p) (pos p) v.
End Player.

(** An enemy is the dict [{"name", "hp", "atk"}]. *)
Module Enemy.
Record t := mk { name : string; hp : Z; atk : Z }.
Definition set_hp (v : Z) (e : t) : t := mk (name e) v (atk e).
End Enemy.

(** An item is the tuple [(name, desc, effect)]; [effect] updates the
    player dict it is given. *)
Module Item.
Record t := mk { name : string; desc : string; effect : Player.t → Player.t }.
End Item.

(** A room is the dict [{"enemy", "item", "visited", "desc"}]. *)
Module Room.
Record t := mk
  { enemy : option Enemy.t; item : option Item.t; visited : bool; desc : string }.
Definition set_enemy (v : option Enemy.t) (r : t) : t :=
  mk v (item r) (visited r) (desc r).
Definition set_item (v : option Item.t) (r : t) : t :=
  mk (enemy r) v (visited r) (desc r).
Definition set_visited (v : bool) (r : t) : t :=
  mk (enemy r) (item r) v (desc r).
Definition set_desc (v : string) (r : t) : t :=
  mk (enemy r) (item r) (visited r) v.
End Room.

Definition WIDTH : Z := 7.
Definition HEIGHT : Z := 5.

Definition ENEMIES : list Enemy.t :=
  [ Enemy.mk "Goblin" 3 1;
    Enemy.mk "Skeleton" 4 2;
    Enemy.mk "Troll" 6 2;
    Enemy.mk "Wraith" 5 3 ].

Definition ITEMS : list Item.t :=
  [ Item.mk "sword" "a Sword (+2 ATK)"
      (λ p, Player.set_atk (Player.atk p + 2) p);
    Item.mk "potion" "a Healing Potion (+5 HP)"
      (λ p, p);
    Item.mk "shield" "a Shield (+3 max HP)"
      (λ p, Player.set_hp (Player.hp p + 3) (Player.set_max_hp (Player.max_hp p + 3) p));
    Item.mk "dagger" "a Dagger (+1 ATK)"
      (λ p, Player.set_atk (Player.atk p + 1) p) ].

(** ** Map generation *)

(** [grid[r][c]] *)
Definition grid_get (grid : list (list bool)) (r c : Z) : outcome bool :=
  let* row := getitem grid r in getitem row c.

(** [grid[r][c] = v]; the rows are separate lists, so only row [r] changes. *)
Definition grid_set (grid : list (list bool)) (r c : Z) (v : bool)
    : outcome (list (list bool)) :=
  let* row := getitem grid r in let* row' := setitem row c v in setitem grid r row'.

(** [0 <= r < HEIGHT and 0 <= c < WIDTH] *)
Definition in_bounds (r c : Z) : bool :=
  bool_decide (0 ≤ r < HEIGHT) && bool_decide (0 ≤ c < WIDTH).

(** The moves that stay on the grid, in the order the walk lists them. *)
Definition walk_dirs (r c : Z) : list (Z * Z) :=
  (if decide (r < HEIGHT - 1) then [(1, 0)] else []) ++
  (if decide (c < WIDTH - 1) then [(0, 1)] else []) ++
  (if decide (r > 0) then [(-1, 0)] else []) ++
  (if decide (c > 0) then [(0, -1)] else []).

(** Moves down or right count three times. *)
Definition weighted_dirs (dirs : list (Z * Z)) : list (Z * Z) :=
  flat_map (λ '(dr, dc),
      let weight := if decide (dr > 0 ∨ dc > 0) then 3%nat else 1%nat in
      replicate weight (dr, dc))
    dirs.

(** The [while (r, c) != (HEIGHT - 1, WIDTH - 1)] loop: one raw draw per
    iteration. *)
Fixpoint carve_path (draws : list nat) (grid : list (list bool))
    (path : list pos) (r c : Z)
    : outcome (list (list bool) * list pos * list nat) :=
  if decide ((r, c) = (HEIGHT - 1, WIDTH - 1)) then Done (grid, path, draws)
  else
    match draws with
    | [] => OutOfDraws
    | d :: draws' =>
        let weighted := weighted_dirs (walk_dirs r c) in
        let* '(dr, dc) := choice_with weighted d in
        let r' := r + dr in
        let c' := c + dc in
        let* b := grid_get grid r' c' in
        if b then carve_path draws' grid path r' c'
        else
          let* grid' := grid_set grid r' c' true in
          carve_path draws' grid' (path ++ [(r', c')]) r' c'
    end.

(** The inner [for dr, dc in ...] of the extra rooms, with its [break]. *)
Fixpoint attach_room (grid : list (list bool)) (rr rc : Z) (dirs : list (Z * Z))
    : outcome (list (list bool)) :=
  match dirs with
  | [] => Done grid
  | (dr, dc) :: dirs' =>
      let nr := rr + dr in
      let nc := rc + dc in
      if in_bounds nr nc then
        let* b := grid_get grid nr nc in
        if b then grid_set grid rr rc true else attach_room grid rr rc dirs'
      else attach_room grid rr rc dirs'
  end.

(** One round of the extra rooms loop. *)
Definition extra_room (st : list (list bool) * list nat)
    : outcome (list (list bool) * list nat) :=
  let '(grid, draws) := st in
  let* '(rr, draws) := randint 0 (HEIGHT - 1) draws in
  let* '(rc, draws) := randint 0 (WIDTH - 1) draws in
  let* b := grid_get grid rr rc in
  if b then Done (grid, draws)
  else
    let* grid := attach_room grid rr rc [(0, 1); (0, -1); (1, 0); (-1, 0)] in
    Done (grid, draws).

Definition new_room : Room.t := Room.mk None None false "".

(** [for r in range(HEIGHT): for c in range(WIDTH): if grid[r][c]: ...] *)
Definition build_rooms (grid : list (list bool)) : outcome (list (pos * Room.t)) :=
  for_each (seqZ 0 HEIGHT)
    (λ r rooms,
       for_each (seqZ 0 WIDTH)
         (λ c rooms,
            let* b := grid_get grid r c in
            if b then Done (dict_setitem rooms (r, c) new_room) else Done rooms)
         rooms)
    [].

Definition descs : list string :=
  [ "A damp stone chamber. Water drips from the ceiling.";
    "A dusty room with cobwebs in every corner.";
    "A narrow passage with scratch marks on the walls.";
    "A cold room. Your breath is visible.";
    "A musty chamber with broken furniture.";
    "Glowing mushrooms light this cavern.";
    "An old storage room with empty barrels.";
    "The walls are covered in strange runes.";
    "A crossroads of crumbling passages.";
    "A quiet alcove with a mossy floor." ].

(** What [generate_dungeon] returns. *)
Record dungeon := mk_dungeon
  { grid : list (list bool);
    rooms : list (pos * Room.t);
    start : pos;
    exit_pos : pos }.

(** [for pos in placeable[:n_enemies]: rooms[pos]["enemy"] = ...] *)
Definition place_enemies (targets : list pos) (rooms : list (pos * Room.t))
    (draws : list nat) : outcome (list (pos * Room.t) * list nat) :=
  for_each targets
    (λ p '(rooms, draws),
       let* '(e, draws) := choice ENEMIES draws in
       let* rooms := dict_update rooms p (Room.set_enemy (Some e)) in
       Done (rooms, draws))
    (rooms, draws).

(** [for i, pos in enumerate(remaining[:n_items]): ...] *)
Definition place_items (item_pool : list Item.t) (targets : list pos)
    (rooms : list (pos * Room.t)) : outcome (list (pos * Room.t)) :=
  for_each (imap (λ i p, (i, p)) targets)
    (λ '(i, p) rooms,
       let* item :=
         (if decide (length item_pool = 0%nat) then Raised ZeroDivisionError
          else getitem item_pool (Z.of_nat i `mod` Z.of_nat (length item_pool))) in
       dict_update rooms p (Room.set_item (Some item)))
    rooms.

(** [for pos, room in rooms.items(): if not room["desc"]: ...] *)
Definition describe_rooms (rooms : list (pos * Room.t)) (draws : list nat)
    : outcome (list (pos * Room.t) * list nat) :=
  for_each (dict_keys rooms)
    (λ p '(rooms, draws),
       let* room := dict_getitem rooms p in
       if decide (Room.desc room = "") then
         let* '(text, draws) := choice descs draws in
         Done (dict_setitem rooms p (Room.set_desc text room), draws)
       else Done (rooms, draws))
    (rooms, draws).

Definition generate_dungeon (draws : list nat) : outcome (dungeon * list nat) :=
  let grid := replicate (Z.to_nat HEIGHT) (replicate (Z.to_nat WIDTH) false) in
  (* Carve rooms using random walk from top-left toward bottom-right *)
  let* grid := grid_set grid 0 0 true in
  let* '(grid, path, draws) := carve_path draws grid [(0, 0)] 0 0 in
  (* Add extra random rooms for variety *)
  let* '(grid, draws) :=
    for_each (seqZ 0 ((WIDTH * HEIGHT) `div` 3)) (λ _, extra_room) (grid, draws) in
  (* Build room data *)
  let* rooms := build_rooms grid in
  let start := (0, 0) in
  let exit_pos := (HEIGHT - 1, WIDTH - 1) in
  let* rooms :=
    dict_update rooms start
      (Room.set_desc "The dungeon entrance. Faint light behind you.") in
  let* rooms := dict_update rooms start (Room.set_visited true) in
  let* rooms :=
    dict_update rooms exit_pos
      (Room.set_desc "A grand door with golden runes — the EXIT!") in
  (* Place enemies *)
  let placeable :=
    filter (λ p, p ≠ start ∧ p ≠ exit_pos) (dict_keys rooms) in
  let* '(placeable, draws) := shuffle placeable draws in
  let n_enemies := Nat.max 2 (length placeable / 3) in
  let* '(rooms, draws) := place_enemies (take n_enemies placeable) rooms draws in
  (* Place items *)
  let remaining := drop n_enemies placeable in
  let* '(remaining, draws) := shuffle remaining draws in
  let n_items := Nat.max 2 (length remaining / 2) in
  let* '(item_pool, draws) := shuffle ITEMS draws in
  let* rooms := place_items item_pool (take n_items remaining) rooms in
  (* Room descriptions *)
  let* '(rooms, draws) := describe_rooms rooms draws in
  Done (mk_dungeon grid rooms start exit_pos, draws).

(** ** Display *)

(** [s * n] on strings. *)
Fixpoint str_repeat (s : string) (n : nat) : string :=
  match n with
  | O => ""
  | S n' => s +:+ str_repeat s n'
  end.

(** The string that holds a line feed. *)
Definition newline : string := String (Ascii.ascii_of_nat 10) "".

(** The three characters [draw_map] shows for the cell [(r, c)]. *)
Definition cell_text (grid : list (list bool)) (rooms : list (pos * Room.t))
    (player_pos exit_pos : pos) (reveal_all : bool) (r c : Z) : outcome string :=
  let pos := (r, c) in
  if decide (pos = player_pos) then Done " @ "
  else
    let* open := grid_get grid r c in
    if negb open then Done "///"
    else
      let* room := dict_getitem rooms pos in
      if negb (Room.visited room) && negb reveal_all then Done " # "
      else if decide (pos = exit_pos) then Done " X "
      else if Room.enemy room is Some _ then Done " E "
      else if Room.item room is Some _ then Done " ? "
      else Done "   ".

(** The wall to the east of [(r, c)]: open if the neighbour to the east is
    also a room. *)
Definition right_wall (grid : list (list bool)) (r c : Z) : outcome string :=
  if decide (c < WIDTH - 1) then
    let* here := grid_get grid r c in
    if here then
      let* east := grid_get grid r (c + 1) in Done (if east then " " else "|")
    else Done "|"
  else Done "|".

(** The wall below [(r, c)]: open if the neighbour below is also a room. *)
Definition bottom_wall (grid : list (list bool)) (r c : Z) : outcome string :=
  if decide (r < HEIGHT - 1) then
    let* here := grid_get grid r c in
    if here then
      let* south := grid_get grid (r + 1) c in Done (if south then "   " else "---")
    else Done "---"
  else Done "---".

(** The inner loop of [draw_map]: [row_mid] and [row_bot] of row [r]. *)
Definition map_row (grid : list (list bool)) (rooms : list (pos * Room.t))
    (player_pos exit_pos : pos) (reveal_all : bool) (r : Z)
    : outcome (string * string) :=
  for_each (seqZ 0 WIDTH)
    (λ c '(row_mid, row_bot),
       let* cell := cell_text grid rooms player_pos exit_pos reveal_all r c in
       let* right := right_wall grid r c in
       let* bot := bottom_wall grid r c in
       Done (row_mid +:+ (cell +:+ right), row_bot +:+ (bot +:+ "+")))
    ("|", "+").

Definition legend : string :=
  "@ = You   X = Exit   E = Enemy   ? = Item   # = Unexplored   /// = Wall".

(** The list [lines] that [draw_map] joins. *)
Definition map_lines (grid : list (list bool)) (rooms : list (pos * Room.t))
    (player_pos exit_pos : pos) (reveal_all : bool) : outcome (list string) :=
  let lines := ["+" +:+ str_repeat "---+" (Z.to_nat WIDTH)] in
  let* lines :=
    for_each (seqZ 0 HEIGHT)
      (λ r lines,
         let* '(row_mid, row_bot) :=
           map_row grid rooms player_pos exit_pos reveal_all r in
         Done (lines ++ [row_mid; row_bot]))
      lines in
  Done (lines ++ [""; legend]).

Definition draw_map (grid : list (list bool)) (rooms : list (pos * Room.t))
    (player_pos exit_pos : pos) (reveal_all : bool) : outcome string :=
  let* lines := map_lines grid rooms player_pos exit_pos reveal_all in
  Done (String.concat newline lines).

(** ** The game

    The inner functions of [main] share [grid], [rooms] and [player]; here
    they take that shared state and return it. *)

Record state := mk_state { world : dungeon; player : Player.t }.

Definition set_rooms (rs : list (pos * Room.t)) (d : dungeon) : dungeon :=
  mk_dungeon (grid d) rs (start d) (exit_pos d).

(** The lines the game prints. *)
Inductive event :=
  | InvalidDirection
  | CantGoThatWay
  | BlocksYourWay (name : string)
  | NothingToFight
  | Battle (name : string)
  | YouDeal (dmg : Z) (name : string) (shown_hp : Z)
  | Victory (name : string)
  | EnemyDeals (name : string) (edmg : Z) (shown_hp : Z)
  | Fallen
  | NothingToPickUp
  | PickedUp (desc : string)
  | PickedUpEquipped (desc : string)
  | Status (hp max_hp atk : Z) (inv : list string)
  | Healed (amount hp max_hp : Z)
  | CantUse.

(** The lines [look] prints about the room. *)
Inductive look_line :=
  | RoomTitle (r c : Z)
  | RoomDesc (desc : string)
  | EnemyHere (name : string) (hp atk : Z)
  | ItemHere (desc : string)
  | Exits (dirs : list string).

(** What [print] writes in the course of a game: a line of one of the
    commands, a line of [look], or a text. *)
Inductive shown :=
  | Said (e : event)
  | Looked (l : look_line)
  | Text (text : string).

(** [s.split(" ", 1)] *)
Fixpoint split_space (s : string) : list string :=
  match s with
  | EmptyString => [""]
  | String a s' =>
      if decide (a = Ascii.Space) then [""; s']
      else
        match split_space s' with
        | [] => [String a ""]
        | word :: more => String a word :: more
        end
  end.

Module main.

Definition initial_player (start : pos) : Player.t := Player.mk 12 12 2 start [].

Definition status (p : Player.t) : event :=
  Status (Player.hp p) (Player.max_hp p) (Player.atk p) (Player.inv p).

Definition deltas : list (string * (Z * Z)) :=
  [ ("north", (-1, 0)); ("south", (1, 0)); ("east", (0, 1)); ("west", (0, -1)) ].

Definition move (direction : string) (s : state)
    : outcome (bool * state * list event) :=
  match dict_lookup deltas direction with
  | None => Done (false, s, [InvalidDirection])
  | Some (dr, dc) =>
      let nr := (Player.pos (player s)).1 + dr in
      let nc := (Player.pos (player s)).2 + dc in
      let* open := (if in_bounds nr nc then grid_get (grid (world s)) nr nc
                    else Done false) in
      if negb open then Done (false, s, [CantGoThatWay])
      else
        let* room := dict_getitem (rooms (world s)) (Player.pos (player s)) in
        match Room.enemy room with
        | Some e => Done (false, s, [BlocksYourWay (Enemy.name e)])
        | None =>
            let p := Player.set_pos (nr, nc) (player s) in
            let* rs := dict_update (rooms (world s)) (nr, nc)
                         (Room.set_visited true) in
            Done (true, mk_state (set_rooms rs (world s)) p, [])
        end
  end.

(** The [while e["hp"] > 0 and player["hp"] > 0] loop of [fight].  [e] is
    the dict stored in the room, so what happens to [e] happens to the
    room's enemy; the loop returns [e] as it is at the end, and whether
    [room["enemy"] = None] was executed.  [randint] checks its range before
    it draws, also when no draw is left. *)
Fixpoint battle (draws : list nat) (e : Enemy.t) (p : Player.t)
    : outcome (Enemy.t * Player.t * bool * list nat * list event) :=
  if decide (Enemy.hp e > 0 ∧ Player.hp p > 0) then
    match draws with
    | [] => let* _ := randint 1 (Player.atk p) [] in OutOfDraws
    | d :: draws1 =>
        let* dmg := randint_with 1 (Player.atk p) d in
        let e := Enemy.set_hp (Enemy.hp e - dmg) e in
        let line1 := YouDeal dmg (Enemy.name e) (Z.max 0 (Enemy.hp e)) in
        if decide (Enemy.hp e ≤ 0) then
          Done (e, p, true, draws1, [line1; Victory (Enemy.name e)])
        else
          match draws1 with
          | [] => let* _ := randint 1 (Enemy.atk e) [] in OutOfDraws
          | d' :: draws2 =>
              let* edmg := randint_with 1 (Enemy.atk e) d' in
              let p := Player.set_hp (Player.hp p - edmg) p in
              let line2 := EnemyDeals (Enemy.name e) edmg (Z.max 0 (Player.hp p)) in
              if decide (Player.hp p ≤ 0) then
                Done (e, p, false, draws2, [line1; line2; Fallen])
              else
                let* '(e, p, slain, rest, lines) := battle draws2 e p in
                Done (e, p, slain, rest, line1 :: line2 :: lines)
          end
    end
  else Done (e, p, false, draws, []).

Definition fight (s : state) (draws : list nat)
    : outcome (state * list nat * list event) :=
  let here := Player.pos (player s) in
  let* room := dict_getitem (rooms (world s)) here in
  match Room.enemy room with
  | None => Done (s, draws, [NothingToFight])
  | Some e =>
      let* '(e', p, slain, rest, lines) := battle draws e (player s) in
      let room := Room.set_enemy (if slain : bool then None else Some e') room in
      Done (mk_state (set_rooms (dict_setitem (rooms (world s)) here room) (world s)) p,
            rest, Battle (Enemy.name e) :: lines)
  end.

Definition take (s : state) : outcome (state * list event) :=
  let here := Player.pos (player s) in
  let* room := dict_getitem (rooms (world s)) here in
  match Room.item room with
  | None => Done (s, [NothingToPickUp])
  | Some it =>
      let p := Player.set_inv (Player.inv (player s) ++ [Item.name it]) (player s) in
      let '(p, line) :=
        if decide (Item.name it = "potion") then (p, PickedUp (Item.desc it))
        else (Item.effect it p, PickedUpEquipped (Item.desc it)) in
      let room := Room.set_item None room in
      Done (mk_state (set_rooms (dict_setitem (rooms (world s)) here room) (world s)) p,
            [line; status p])
  end.

Definition use (item_name : string) (s : state) : outcome (state * list event) :=
  let p := player s in
  if decide (item_name = "potion" ∧ "potion" ∈ Player.inv p) then
    let old_hp := Player.hp p in
    let p := Player.set_hp (Z.min (Player.hp p + 5) (Player.max_hp p)) p in
    let* inv := list_remove "potion" (Player.inv p) in
    let p := Player.set_inv inv p in
    Done (mk_state (world s) p,
          [Healed (Player.hp p - old_hp) (Player.hp p) (Player.max_hp p)])
  else Done (s, [CantUse]).

(** The commands of the main loop that change the game. *)
Inductive command :=
  | Move (direction : string)
  | Fight
  | Take
  | Use (item_name : string).

(** One command; the flag is the loop's [moved]. *)
Definition step (c : command) (s : state) (draws : list nat)
    : outcome (bool * state * list nat * list event) :=
  match c with
  | Move direction =>
      let* '(moved, s, lines) := move direction s in Done (moved, s, draws, lines)
  | Fight =>
      let* '(s, draws, lines) := fight s draws in Done (false, s, draws, lines)
  | Take => let* '(s, lines) := take s in Done (false, s, draws, lines)
  | Use item_name =>
      let* '(s, lines) := use item_name s in Done (false, s, draws, lines)
  end.

(** The [while player["hp"] > 0] loop over the commands typed, which also
    ends when a move reaches the exit. *)
Fixpoint run (cs : list command) (s : state) (draws : list nat)
    : outcome (state * list nat * list event) :=
  match cs with
  | [] => Done (s, draws, [])
  | c :: cs' =>
      if decide (Player.hp (player s) > 0) then
        let* '(moved, s, draws, lines) := step c s draws in
        if moved && bool_decide (Player.pos (player s) = exit_pos (world s))
        then Done (s, draws, lines)
        else
          let* '(s, draws, lines') := run cs' s draws in
          Done (s, draws, lines ++ lines')
      else Done (s, draws, [])
  end.

Definition look (s : state) : outcome (list shown) :=
  let pos := Player.pos (player s) in
  let* room := dict_getitem (rooms (world s)) pos in
  let enemy_line :=
    match Room.enemy room with
    | Some e => [Looked (EnemyHere (Enemy.name e) (Enemy.hp e) (Enemy.atk e))]
    | None => []
    end in
  let item_line :=
    match Room.item room with
    | Some it => [Looked (ItemHere (Item.desc it))]
    | None => []
    end in
  let* dirs :=
    for_each [("north", (-1, 0)); ("south", (1, 0)); ("east", (0, 1)); ("west", (0, -1))]
      (λ '(name, (dr, dc)) dirs,
         let nr := pos.1 + dr in
         let nc := pos.2 + dc in
         let* open := (if in_bounds nr nc then grid_get (grid (world s)) nr nc
                       else Done false) in
         Done (if open : bool then dirs ++ [name] else dirs))
      [] in
  Done ([Looked (RoomTitle pos.1 pos.2); Looked (RoomDesc (Room.desc room))]
        ++ enemy_line ++ item_line
        ++ [Looked (Exits dirs); Said (status (player s))]).

(** [print(draw_map(grid, rooms, player["pos"], exit_pos, reveal_all))] *)
Definition print_map (s : state) (reveal_all : bool) : outcome (list shown) :=
  let* text := draw_map (grid (world s)) (rooms (world s)) (Player.pos (player s))
                 (exit_pos (world s)) reveal_all in
  Done [Text text].

Definition win_text : string :=
  newline +:+ "*** YOU FOUND THE EXIT! CONGRATULATIONS - YOU WIN! ***" +:+ newline.

(** A command that moves: [moved = move(direction)], then the rest of the
    loop's body.  The flag tells whether the loop breaks. *)
Definition go (direction : string) (s : state)
    : outcome (bool * state * list shown) :=
  let* '(moved, s, lines) := move direction s in
  if moved : bool then
    let* map := print_map s false in
    let* room := look s in
    let out := (Said <$> lines) ++ [Text ""] ++ map ++ room in
    if decide (Player.pos (player s) = exit_pos (world s))
    then Done (true, s, out ++ [Text win_text])
    else Done (false, s, out)
  else Done (false, s, Said <$> lines).

(** The body of the main loop for the command [cmd], which is the line
    typed after [strip().lower()].  The flag tells whether the loop
    breaks. *)
Definition handle (cmd : string) (s : state) (draws : list nat)
    : outcome (bool * state * list nat * list shown) :=
  if decide (cmd = "") then Done (false, s, draws, [])
  else if decide (cmd ∈ ["n"; "north"]) then
    let* '(stop, s, out) := go "north" s in Done (stop, s, draws, out)
  else if decide (cmd ∈ ["s"; "south"]) then
    let* '(stop, s, out) := go "south" s in Done (stop, s, draws, out)
  else if decide (cmd ∈ ["e"; "east"]) then
    let* '(stop, s, out) := go "east" s in Done (stop, s, draws, out)
  else if decide (cmd ∈ ["w"; "west"]) then
    let* '(stop, s, out) := go "west" s in Done (stop, s, draws, out)
  else if decide (cmd = "map") then
    let* out := print_map s false in Done (false, s, draws, out)
  else if decide (cmd = "revealmap") then
    let* out := print_map s true in Done (false, s, draws, out)
  else if decide (cmd = "look") then
    let* out := look s in Done (false, s, draws, out)
  else if decide (cmd ∈ ["take"; "get"]) then
    let* '(s, lines) := take s in Done (false, s, draws, Said <$> lines)
  else if decide (cmd ∈ ["fight"; "attack"]) then
    let* '(s, draws, lines) := fight s draws in
    Done (false, s, draws, Said <$> lines)
  else if String.prefix "use " cmd then
    let* item_name := getitem (split_space cmd) 1 in
    let* '(s, lines) := use item_name s in
    Done (false, s, draws, Said <$> lines)
  else if decide (cmd ∈ ["quit"; "q"]) then
    Done (true, s, draws, [Text "Thanks for playing!"])
  else if decide (cmd = "help") then
    Done (false, s, draws,
          [Text "Commands: n/s/e/w, look, map, take, fight, use potion, quit"])
  else Done (false, s, draws, [Text "Unknown command. Type 'help'."]).

(** The [while player["hp"] > 0] loop over the lines typed; at the end of
    the input [input] raises [EOFError], which ends the loop. *)
Fixpoint loop (cmds : list string) (s : state) (draws : list nat)
    : outcome (state * list nat * list shown) :=
  if decide (Player.hp (player s) > 0) then
    match cmds with
    | [] => Done (s, draws, [Text (newline +:+ "Bye!")])
    | cmd :: cmds' =>
        let* '(stop, s, draws, out) := handle cmd s draws in
        if stop : bool then Done (s, draws, out)
        else
          let* '(s, draws, out') := loop cmds' s draws in
          Done (s, draws, out ++ out')
    end
  else Done (s, draws, []).

Definition over_text : string := newline +:+ "--- GAME OVER ---" +:+ newline.

Definition title : list shown :=
  [ Text "";
    Text (str_repeat "=" 50);
    Text "     DUNGEON CRAWLER - Random Grid Edition";
    Text (str_repeat "=" 50);
    Text "Reach the EXIT [X] at the bottom-right to win!";
    Text "Commands: north/south/east/west (or n/s/e/w)";
    Text "          look, map, take, fight, use potion, quit";
    Text "" ].

(** The whole of [main] on the lines typed [cmds]: the final state, the
    draws left and all that was printed. *)
Definition main (cmds : list string) (draws : list nat)
    : outcome (state * list nat * list shown) :=
  let* '(d, draws) := generate_dungeon draws in
  let s := mk_state d (initial_player (start d)) in
  let* map := print_map s false in
  let* room := look s in
  let* '(s, draws, out) := loop cmds s draws in
  let* over :=
    (if decide (Player.hp (player s) ≤ 0) then
       let* final := print_map s true in
       Done ([Text over_text; Text "Final map (revealed):"] ++ final)
     else Done []) in
  Done (s, draws, title ++ map ++ room ++ out ++ over).

End main.

(** ** Properties of a dungeon and of a log *)

(** The grid has [HEIGHT] rows of [WIDTH] cells. *)
Definition wf_grid (g : list (list bool)) : Prop :=
  length g = Z.to_nat HEIGHT ∧ Forall (λ row, length row = Z.to_nat WIDTH) g.

(** A cell of the grid that is a room. *)
Definition carved (g : list (list bool)) (p : pos) : Prop :=
  in_bounds p.1 p.2 = true ∧ grid_get g p.1 p.2 = Done true.

(** Neighbours to the north, south, east or west. *)
Definition adjacent (p q : pos) : Prop :=
  Z.abs (p.1 - q.1) + Z.abs (p.2 - q.2) = 1.

(** [reachable g p]: a path of adjacent rooms leads from (0,0) to [p]. *)
Inductive reachable (g : list (list bool)) : pos → Prop :=
  | reach_start : carved g (0, 0) → reachable g (0, 0)
  | reach_step p q :
      reachable g p → adjacent p q → carved g q → reachable g q.

(** Every room of the grid is linked to (0,0). *)
Definition connected (g : list (list bool)) : Prop :=
  ∀ p, carved g p → reachable g p.

(** The rooms with an enemy lie in [area]. *)
Definition enemies_within (area : list pos) (rs : list (pos * Room.t)) : Prop :=
  ∀ p room, (p, room) ∈ rs → is_Some (Room.enemy room) → p ∈ area.

(** The rooms with an item lie in [area]. *)
Definition items_within (area : list pos) (rs : list (pos * Room.t)) : Prop :=
  ∀ p room, (p, room) ∈ rs → is_Some (Room.item room) → p ∈ area.

(** The room the player stands in. *)
Definition current_room (s : state) : option Room.t :=
  dict_lookup (rooms (world s)) (Player.pos (player s)).

(** The damage of the player's blows in a log, in order. *)
Definition player_blows (lines : list event) : list Z :=
  omap (λ l, match l with YouDeal dmg _ _ => Some dmg | _ => None end) lines.

(** The damage of the enemy's blows in a log, in order. *)
Definition enemy_blows (lines : list event) : list Z :=
  omap (λ l, match l with EnemyDeals _ edmg _ => Some edmg | _ => None end) lines.

(** The items lying in the rooms are entries of the catalog. *)
Definition catalog_items (rs : list (pos * Room.t)) : Prop :=
  ∀ p room it, (p, room) ∈ rs → Room.item room = Some it → it ∈ ITEMS.

(** A well-formed state: what the theorems about [move] and [take] ask of
    the grid and of the item in the room. *)
Definition wf_state (s : state) : Prop :=
  wf_grid (grid (world s)) ∧ catalog_items (rooms (world s)).

(** The names [move] accepts. *)
Definition cardinal_names : list string := ["north"; "south"; "east"; "west"].

(** The cell a move in [direction] would lead to. *)
Definition destination (s : state) (direction : string) : option pos :=
  match dict_lookup main.deltas direction with
  | Some (dr, dc) =>
      Some ((Player.pos (player s)).1 + dr, (Player.pos (player s)).2 + dc)
  | None => None
  end.

(** The room at [q] exists and has been visited. *)
Definition visited_at (s : state) (q : pos) : Prop :=
  ∃ room, dict_lookup (rooms (world s)) q = Some room ∧ Room.visited room = true.

(** [fight] in [s] with [draws] runs to its end, the player's blows deal
    [blows], the enemy's blows deal [hits], the player is left with
    [final_hp], and the enemy is gone from the room. *)
Definition encounter (s : state) (draws : list nat) (blows hits : list Z)
    (final_hp : Z) : Prop :=
  ∃ s' rest lines,
    main.fight s draws = Done (s', rest, lines)
    ∧ player_blows lines = blows
    ∧ enemy_blows lines = hits
    ∧ Player.hp (player s') = final_hp
    ∧ ∃ room', current_room s' = Some room' ∧ Room.enemy room' = None.

(** ** Sample states *)

Definition sample_draws : list nat := seq 0 105.

(** The dungeon generated from [sample_draws], which uses them all up:
    22 rooms, 6 of them with an enemy and 7 others with an item. *)
Definition sample_dungeon : dungeon :=
  Eval vm_compute in
    match generate_dungeon sample_draws with
    | Done (d, _) => d
    | _ => mk_dungeon [] [] (0, 0) (0, 0)
    end.

Definition sample_room_at (p : pos) : Room.t :=
  match dict_lookup (rooms sample_dungeon) p with
  | Some room => room
  | None => new_room
  end.

(** The start of a game in [sample_dungeon]. *)
Definition sample_state : state :=
  mk_state sample_dungeon (main.initial_player (start sample_dungeon)).

(** A player with atk 1 and hp 12 at (4,3), where [sample_dungeon] has a
    Goblin (hp 3, atk 1). *)
Definition goblin_fight : state :=
  mk_state sample_dungeon (Player.mk 12 12 1 (4, 3) []).

(** A fresh player at (2,5), where [sample_dungeon] has a sword. *)
Definition sword_room_state : state :=
  mk_state sample_dungeon (Player.mk 12 12 2 (2, 5) []).

(** A wounded player with two potions. *)
Definition wounded_state : state :=
  mk_state sample_dungeon (Player.mk 9 12 2 (0, 0) ["sword"; "potion"; "potion"]).

(** A player in full health with a potion. *)
Definition healthy_state : state :=
  mk_state sample_dungeon (Player.mk 12 12 2 (0, 0) ["potion"]).

(** ** More properties of outcomes and rooms *)

(** The computation raises no Python exception: it ends with a value, or
    the draws run out. *)
Definition safe {A : Type} (o : outcome A) : Prop :=
  match o with
  | Raised _ => False
  | _ => True
  end.

(** The rooms that hold an enemy, and those that hold an item. *)
Definition rooms_with_enemy (rs : list (pos * Room.t)) : list (pos * Room.t) :=
  filter (λ pr, is_Some (Room.enemy pr.2)) rs.

Definition rooms_with_item (rs : list (pos * Room.t)) : list (pos * Room.t) :=
  filter (λ pr, is_Some (Room.item pr.2)) rs.

(** The two fixed descriptions. *)
Definition entrance_text : string := "The dungeon entrance. Faint light behind you.".
Definition exit_text : string := "A grand door with golden runes — the EXIT!".

(** What [take] makes of the player who picks up [it]. *)
Definition take_player (it : Item.t) (p : Player.t) : Player.t :=
  let p := Player.set_inv (Player.inv p ++ [Item.name it]) p in
  if decide (Item.name it = "potion") then p else Item.effect it p.

(** [effect s s']: what one command can make of the state [s].  It leaves
    it as it is, or it is a successful move, a fight, a pick up or a
    potion drunk. *)
Inductive effect (s : state) : state → Prop :=
  | eff_none : effect s s
  | eff_move (q : pos) (room room_q : Room.t) :
      carved (grid (world s)) q →
      adjacent (Player.pos (player s)) q →
      current_room s = Some room →
      Room.enemy room = None →
      dict_lookup (rooms (world s)) q = Some room_q →
      effect s
        (mk_state
           (set_rooms (dict_setitem (rooms (world s)) q (Room.set_visited true room_q))
              (world s))
           (Player.set_pos q (player s)))
  | eff_fight (room : Room.t) (e e' : Enemy.t) (hp' : Z) (slain : bool) :
      current_room s = Some room →
      Room.enemy room = Some e →
      Enemy.name e' = Enemy.name e →
      Enemy.atk e' = Enemy.atk e →
      Enemy.hp e' ≤ Enemy.hp e →
      (slain = false → Enemy.hp e > 0 → Enemy.hp e' > 0) →
      hp' ≤ Player.hp (player s) →
      effect s
        (mk_state
           (set_rooms
              (dict_setitem (rooms (world s)) (Player.pos (player s))
                 (Room.set_enemy (if slain then None else Some e') room))
              (world s))
           (Player.set_hp hp' (player s)))
  | eff_take (room : Room.t) (it : Item.t) :
      current_room s = Some room →
      Room.item room = Some it →
      effect s
        (mk_state
           (set_rooms
              (dict_setitem (rooms (world s)) (Player.pos (player s))
                 (Room.set_item None room))
              (world s))
           (take_player it (player s)))
  | eff_use (l1 l2 : list string) :
      Player.inv (player s) = l1 ++ "potion" :: l2 →
      effect s
        (mk_state (world s)
           (Player.set_inv (l1 ++ l2)
              (Player.set_hp
                 (Z.min (Player.hp (player s) + 5) (Player.max_hp (player s)))
                 (player s)))).

(** What a game keeps true of its state: the grid has its shape, the rooms
    are the carved cells, the player stands in one of them with at most
    [max_hp] hp and an atk of 2 or more, the enemies in the rooms are alive
    and can strike, and the items are those of the catalog. *)
Definition playable (s : state) : Prop :=
  wf_state s
  ∧ (∀ p, p ∈ dict_keys (rooms (world s)) ↔ carved (grid (world s)) p)
  ∧ carved (grid (world s)) (Player.pos (player s))
  ∧ Player.hp (player s) ≤ Player.max_hp (player s)
  ∧ 2 ≤ Player.atk (player s)
  ∧ (∀ p room e, (p, room) ∈ rooms (world s) → Room.enemy room = Some e →
       Enemy.hp e > 0 ∧ 1 ≤ Enemy.atk e).

(** [room'] is [room] later in the game: the same description, still
    visited if it was, its item still there or gone, its enemy still there
    with no more hp than before, or gone. *)
Definition room_wears (room room' : Room.t) : Prop :=
  Room.desc room' = Room.desc room
  ∧ (Room.visited room = true → Room.visited room' = true)
  ∧ (Room.item room' = None ∨ Room.item room' = Room.item room)
  ∧ (∀ e', Room.enemy room' = Some e' →
       ∃ e, Room.enemy room = Some e ∧ Enemy.name e' = Enemy.name e
            ∧ Enemy.atk e' = Enemy.atk e ∧ Enemy.hp e' ≤ Enemy.hp e).

(** [s'] is [s] later in the game: the same map with the same rooms in the
    same order, each room worn as above, and a player whose [max_hp] and
    [atk] have not gone down. *)
Definition wears (s s' : state) : Prop :=
  grid (world s') = grid (world s)
  ∧ start (world s') = start (world s)
  ∧ exit_pos (world s') = exit_pos (world s)
  ∧ dict_keys (rooms (world s')) = dict_keys (rooms (world s))
  ∧ (∀ q room', dict_lookup (rooms (world s')) q = Some room' →
       ∃ room, dict_lookup (rooms (world s)) q = Some room ∧ room_wears room room')
  ∧ Player.max_hp (player s) ≤ Player.max_hp (player s')
  ∧ Player.atk (player s) ≤ Player.atk (player s').

(** Two room maps that look the same to the player: the same positions
    with the same visited flags, and in a visited room an enemy, or an
    item, in the one exactly when there is one in the other. *)
Definition same_known (rs1 rs2 : list (pos * Room.t)) : Prop :=
  ∀ p, match dict_lookup rs1 p, dict_lookup rs2 p with
       | Some room1, Some room2 =>
           Room.visited room1 = Room.visited room2
           ∧ (Room.visited room1 = true →
              (is_Some (Room.enemy room1) ↔ is_Some (Room.enemy room2))
              ∧ (is_Some (Room.item room1) ↔ is_Some (Room.item room2)))
       | None, None => True
       | _, _ => False
       end.

(** The command of the game a typed line stands for, if it stands for
    one. *)
Definition command_of (cmd : string) : option main.command :=
  if decide (cmd ∈ ["n"; "north"]) then Some (main.Move "north")
  else if decide (cmd ∈ ["s"; "south"]) then Some (main.Move "south")
  else if decide (cmd ∈ ["e"; "east"]) then Some (main.Move "east")
  else if decide (cmd ∈ ["w"; "west"]) then Some (main.Move "west")
  else if decide (cmd ∈ ["take"; "get"]) then Some main.Take
  else if decide (cmd ∈ ["fight"; "attack"]) then Some main.Fight
  else if String.prefix "use " cmd then main.Use <$> (split_space cmd !! 1%nat)
  else None.

(** The commands of the game in the lines typed, up to the first "quit". *)
Fixpoint script (cmds : list string) : list main.command :=
  match cmds with
  | [] => []
  | cmd :: cmds' =>
      if decide (cmd ∈ ["quit"; "q"]) then []
      else
        match command_of cmd with
        | Some c => c :: script cmds'
        | None => script cmds'
        end
  end.

(** A line that announces neither a win nor the end of the game. *)
Definition quiet (x : shown) : Prop :=
  x ≠ Text main.win_text ∧ x ≠ Text main.over_text.

(** ** Basic facts *)

Lemma bind_Done {A B : Type} (m : outcome A) (f : A → outcome B) (b : B) :
  bind m f = Done b ↔ ∃ a, m = Done a ∧ f a = Done b.
Proof.
  split.
  - destruct m as [a| |]; simpl; intros Hb; try discriminate. by exists a.
  - intros (a & -> & Hf). done.
Qed.

(** Splits a hypothesis [bind m f = Done b] into its two halves. *)
Ltac inv_bind H :=
  let a := fresh "a" in
  let Ha := fresh "H" a in
  apply bind_Done in H as (a & Ha & H).

Tactic Notation "split_bind" hyp(H) "as" simple_intropattern(a) ident(Ha) :=
  apply bind_Done in H as (a & Ha & H).

Ltac destruct_pairs :=
  repeat match goal with a : (_ * _)%type |- _ => destruct a end.

(** Splits a chain of binds that ends in [Done]. *)
Ltac inv_binds H := repeat (inv_bind H; destruct_pairs).

Section dict_facts.
Context {K V : Type} `{EqDecision K}.
Implicit Types (d : list (K * V)) (k : K) (v : V).

Lemma dict_lookup_setitem_eq d k v : dict_lookup (dict_setitem d k v) k = Some v.
Proof.
  induction d as [|[k' v'] d IH]; simpl.
  - by rewrite decide_True.
  - destruct (decide (k = k')) as [->|Hne]; simpl.
    + by rewrite decide_True.
    + by rewrite decide_False.
Qed.

Lemma dict_lookup_setitem_ne d k k' v :
  k ≠ k' → dict_lookup (dict_setitem d k v) k' = dict_lookup d k'.
Proof.
  intros Hne. induction d as [|[k0 v0] d IH]; simpl.
  - by rewrite decide_False.
  - destruct (decide (k = k0)) as [->|Hk]; simpl.
    + by rewrite !decide_False.
    + destruct (decide (k' = k0)); done.
Qed.

Lemma dict_lookup_setitem d k k' v :
  dict_lookup (dict_setitem d k v) k' =
    if decide (k = k') then Some v else dict_lookup d k'.
Proof.
  destruct (decide (k = k')) as [->|Hne].
  - apply dict_lookup_setitem_eq.
  - by apply dict_lookup_setitem_ne.
Qed.

Lemma dict_lookup_Some_keys d k v : dict_lookup d k = Some v → k ∈ dict_keys d.
Proof.
  induction d as [|[k' v'] d IH]; simpl; [done|].
  destruct (decide (k = k')) as [->|Hne]; intros Hl.
  - apply list_elem_of_here.
  - apply list_elem_of_further. by apply IH.
Qed.

Lemma dict_keys_setitem_old d k v :
  k ∈ dict_keys d → dict_keys (dict_setitem d k v) = dict_keys d.
Proof.
  induction d as [|[k' v'] d IH]; simpl.
  - by intros ?%elem_of_nil.
  - destruct (decide (k = k')) as [->|Hne]; [done|].
    intros [?|Hin]%elem_of_cons; [done|].
    change (k' :: dict_keys (dict_setitem d k v) = k' :: dict_keys d).
    by rewrite IH.
Qed.

Lemma dict_keys_setitem_new d k v :
  k ∉ dict_keys d → dict_keys (dict_setitem d k v) = dict_keys d ++ [k].
Proof.
  induction d as [|[k' v'] d IH]; simpl; [done|].
  intros Hnin. apply not_elem_of_cons in Hnin as [Hne Hnin].
  rewrite decide_False by done.
  change (k' :: dict_keys (dict_setitem d k v) = k' :: dict_keys d ++ [k]).
  by rewrite IH.
Qed.

Lemma dict_keys_setitem_NoDup d k v :
  NoDup (dict_keys d) → NoDup (dict_keys (dict_setitem d k v)).
Proof.
  intros Hnd. destruct (decide (k ∈ dict_keys d)) as [Hin|Hnin].
  - by rewrite dict_keys_setitem_old.
  - rewrite dict_keys_setitem_new by done.
    apply NoDup_app. split_and!; [done| |apply NoDup_singleton].
    intros x Hx ->%list_elem_of_singleton. done.
Qed.

Lemma dict_update_Done d k f d' :
  dict_update d k f = Done d' →
  ∃ v, dict_lookup d k = Some v ∧ d' = dict_setitem d k (f v).
Proof.
  unfold dict_update, dict_getitem. intros Hu.
  destruct (dict_lookup d k) as [v|]; simpl in Hu; [|done].
  exists v. split; congruence.
Qed.

Lemma dict_update_keys d k f d' :
  dict_update d k f = Done d' → dict_keys d' = dict_keys d.
Proof.
  intros (v & Hl & ->)%dict_update_Done.
  apply dict_keys_setitem_old. by eapply dict_lookup_Some_keys.
Qed.
End dict_facts.

Section list_facts.
Context {A : Type}.
Implicit Types (l : list A) (i : Z).

Lemma norm_index_nonneg (len : nat) i :
  0 ≤ i < Z.of_nat len → norm_index len i = Some (Z.to_nat i).
Proof. intros Hi. unfold norm_index. by rewrite decide_True. Qed.

Lemma getitem_nonneg l i :
  0 ≤ i < Z.of_nat (length l) → ∃ x, l !! Z.to_nat i = Some x ∧ getitem l i = Done x.
Proof.
  intros Hi. unfold getitem. rewrite norm_index_nonneg by done.
  destruct (lookup_lt_is_Some_2 l (Z.to_nat i)) as [x Hx]; [lia|].
  exists x. by rewrite Hx.
Qed.

Lemma getitem_Done_nonneg l i x :
  0 ≤ i → getitem l i = Done x → l !! Z.to_nat i = Some x.
Proof.
  intros Hi. unfold getitem, norm_index.
  destruct (decide (0 ≤ i < Z.of_nat (length l))).
  - destruct (l !! Z.to_nat i); congruence.
  - destruct (decide (- Z.of_nat (length l) ≤ i < 0)); [lia|done].
Qed.

Lemma setitem_nonneg l i x :
  0 ≤ i < Z.of_nat (length l) → setitem l i x = Done (<[Z.to_nat i:=x]> l).
Proof. intros Hi. unfold setitem. by rewrite norm_index_nonneg. Qed.

End list_facts.

Lemma list_remove_first {A : Type} `{EqDecision A} (x : A) (l : list A) :
  x ∈ l →
  ∃ l1 l2, l = l1 ++ x :: l2 ∧ (x ∉ l1) ∧ list_remove x l = Done (l1 ++ l2).
Proof.
  induction l as [|y l IH]; [by intros ?%elem_of_nil|].
  intros Hin. simpl. destruct (decide (x = y)) as [->|Hne].
  - exists [], l. split_and!; [done|apply not_elem_of_nil|done].
  - apply elem_of_cons in Hin as [?|Hin]; [done|].
    destruct (IH Hin) as (l1 & l2 & -> & Hnin & ->).
    exists (y :: l1), l2. split_and!; [done| |done].
    apply not_elem_of_cons. done.
Qed.

(** ** The grid *)

Lemma in_bounds_spec (r c : Z) :
  in_bounds r c = true ↔ 0 ≤ r < HEIGHT ∧ 0 ≤ c < WIDTH.
Proof.
  unfold in_bounds. rewrite andb_true_iff, !bool_decide_eq_true. done.
Qed.

Lemma wf_grid_row (g : list (list bool)) (r : Z) :
  wf_grid g → 0 ≤ r < HEIGHT →
  ∃ row, g !! Z.to_nat r = Some row ∧ getitem g r = Done row
         ∧ length row = Z.to_nat WIDTH.
Proof.
  intros [Hlen Hrows] Hr.
  destruct (getitem_nonneg g r) as (row & Hrow & Hget); [lia|].
  exists row. split_and!; [done..|].
  rewrite Forall_lookup in Hrows. by eapply Hrows.
Qed.

Lemma grid_get_in_bounds (g : list (list bool)) (r c : Z) :
  wf_grid g → in_bounds r c = true → ∃ b, grid_get g r c = Done b.
Proof.
  intros Hwf [Hr Hc]%in_bounds_spec.
  destruct (wf_grid_row g r Hwf Hr) as (row & _ & Hget & Hlen).
  destruct (getitem_nonneg row c) as (b & _ & Hb); [lia|].
  exists b. unfold grid_get. by rewrite Hget.
Qed.

(** ** Movement *)

Lemma deltas_cardinal (direction : string) :
  direction ∉ cardinal_names → dict_lookup main.deltas direction = None.
Proof.
  intros Hnin. unfold main.deltas. simpl.
  repeat match goal with
  | |- context [decide (direction = ?name)] =>
      destruct (decide (direction = name)) as [->|?];
        [exfalso; apply Hnin; unfold cardinal_names;
         repeat first [apply list_elem_of_here | apply list_elem_of_further]|]
  end.
  done.
Qed.

Lemma move_closed (s : state) (direction : string) (q : pos) :
  wf_grid (grid (world s)) →
  destination s direction = Some q →
  ¬ carved (grid (world s)) q →
  main.move direction s = Done (false, s, [CantGoThatWay]).
Proof.
  intros Hwf Hq Hnc. unfold destination in Hq. unfold main.move.
  destruct (dict_lookup main.deltas direction) as [[dr dc]|]; [|done].
  injection Hq as <-. unfold carved in Hnc. simpl in Hnc.
  destruct (in_bounds _ _) eqn:Hin; [|done].
  destruct (grid_get_in_bounds _ _ _ Hwf Hin) as [b Hb]. rewrite Hb. simpl.
  destruct b; [|done]. exfalso. by apply Hnc.
Qed.

(** C4: in a state whose current room holds an enemy with hp > 0, [move]
    in any direction returns False and leaves the whole state, the
    player's position included, as it was. *)
Theorem move_blocked_by_live_enemy
    (s : state) (direction : string) (room : Room.t) (e : Enemy.t) :
  wf_grid (grid (world s)) →
  current_room s = Some room →
  Room.enemy room = Some e →
  Enemy.hp e > 0 →
  ∃ lines, main.move direction s = Done (false, s, lines).
Proof.
  intros Hwf Hroom He _. unfold main.move.
  destruct (dict_lookup main.deltas direction) as [[dr dc]|]; [|by eexists].
  destruct (in_bounds _ _) eqn:Hin; simpl; [|by eexists].
  destruct (grid_get_in_bounds _ _ _ Hwf Hin) as [b ->]. simpl.
  destruct b; simpl; [|by eexists].
  unfold dict_getitem. unfold current_room in Hroom. rewrite Hroom. simpl.
  rewrite He. by eexists.
Qed.

(** C7: when the direction is not one of the four cardinal names, or the
    destination is out of bounds, or the destination is not a carved room,
    [move] returns False and changes nothing; and "north" from (0,0) fails
    with the position unchanged. *)
Theorem move_rejects_bad_destination :
  (∀ (s : state) (direction : string),
     wf_grid (grid (world s)) →
     direction ∉ cardinal_names
     ∨ (∃ q, destination s direction = Some q ∧ in_bounds q.1 q.2 = false)
     ∨ (∃ q, destination s direction = Some q ∧ ¬ carved (grid (world s)) q) →
     ∃ lines, main.move direction s = Done (false, s, lines))
  ∧ (∀ s : state,
       Player.pos (player s) = (0, 0) →
       main.move "north" s = Done (false, s, [CantGoThatWay])).
Proof.
  split.
  - intros s direction Hwf [Hname|[(q & Hq & Hout)|(q & Hq & Hnc)]].
    + unfold main.move. rewrite deltas_cardinal by done. by eexists.
    + eexists. eapply move_closed; [done..|].
      intros [Hin _]. congruence.
    + eexists. by eapply move_closed.
  - intros s Hpos. unfold main.move. simpl. rewrite Hpos. done.
Qed.

(** ** Items *)

Lemma catalog_effect_keeps_pos (it : Item.t) (p : Player.t) :
  it ∈ ITEMS → Player.pos (Item.effect it p) = Player.pos p.
Proof.
  unfold ITEMS. intros Hin.
  repeat (apply elem_of_cons in Hin as [->|Hin]; [done|]).
  by apply elem_of_nil in Hin.
Qed.

(** C8: when the current room holds an item of the catalog, after [take]
    the current room's item is None, and a second [take] changes nothing:
    inventory, player and rooms stay as the first [take] left them. *)
Theorem take_once_then_noop (s : state) (room : Room.t) (it : Item.t) :
  current_room s = Some room →
  Room.item room = Some it →
  it ∈ ITEMS →
  ∃ s' lines,
    main.take s = Done (s', lines)
    ∧ (∃ room', current_room s' = Some room' ∧ Room.item room' = None)
    ∧ main.take s' = Done (s', [NothingToPickUp]).
Proof.
  intros Hroom Hit Hcat. unfold current_room in Hroom.
  unfold main.take at 1. unfold dict_getitem. rewrite Hroom. simpl. rewrite Hit.
  set (p := Player.set_inv _ _).
  assert (∃ p' line,
    (if decide (Item.name it = "potion") then (p, PickedUp (Item.desc it))
     else (Item.effect it p, PickedUpEquipped (Item.desc it))) = (p', line)
    ∧ Player.pos p' = Player.pos (player s)) as (p' & line & -> & Hpos).
  { destruct (decide _); do 2 eexists; (split; [done|]); [done|].
    by rewrite catalog_effect_keeps_pos. }
  do 2 eexists. split; [done|].
  assert (current_room
            (mk_state
               (set_rooms (dict_setitem (rooms (world s)) (Player.pos (player s))
                             (Room.set_item None room)) (world s)) p')
          = Some (Room.set_item None room)) as Hcur.
  { unfold current_room. simpl. rewrite Hpos. apply dict_lookup_setitem_eq. }
  split; [by eexists|].
  unfold current_room in Hcur. unfold main.take, dict_getitem. by rewrite Hcur.
Qed.

(** C5: with "potion" in the inventory, [use "potion"] removes exactly the
    first "potion" of the inventory and nothing else, leaves hp at most
    max_hp, and heals (and reports) min(5, max_hp - hp_before). *)
Theorem use_potion_heals (s : state) :
  "potion" ∈ Player.inv (player s) →
  ∃ s' l1 l2,
    let p := player s in
    let p' := player s' in
    main.use "potion" s =
      Done (s', [Healed (Z.min 5 (Player.max_hp p - Player.hp p))
                   (Player.hp p') (Player.max_hp p')])
    ∧ Player.inv p = l1 ++ "potion" :: l2
    ∧ ("potion" ∉ l1)
    ∧ Player.inv p' = l1 ++ l2
    ∧ Player.hp p' ≤ Player.max_hp p'
    ∧ Player.hp p' - Player.hp p = Z.min 5 (Player.max_hp p - Player.hp p)
    ∧ Player.max_hp p' = Player.max_hp p
    ∧ Player.atk p' = Player.atk p
    ∧ Player.pos p' = Player.pos p
    ∧ world s' = world s.
Proof.
  intros Hin. destruct (list_remove_first _ _ Hin) as (l1 & l2 & Hinv & Hnin & Hrm).
  unfold main.use. rewrite decide_True by done. simpl. rewrite Hrm. simpl.
  exists (mk_state (world s)
            (Player.set_inv (l1 ++ l2)
               (Player.set_hp
                  (Z.min (Player.hp (player s) + 5) (Player.max_hp (player s)))
                  (player s)))), l1, l2.
  simpl. split_and!; try done.
  - repeat f_equal. lia.
  - lia.
  - lia.
Qed.

(** C10: with "potion" in the inventory and hp equal to max_hp,
    [use "potion"] still removes one "potion" while hp stays as it was and
    the amount healed is 0. *)
Theorem use_potion_at_full_health (s : state) :
  "potion" ∈ Player.inv (player s) →
  Player.hp (player s) = Player.max_hp (player s) →
  ∃ s' l1 l2,
    main.use "potion" s =
      Done (s', [Healed 0 (Player.hp (player s)) (Player.max_hp (player s))])
    ∧ Player.inv (player s) = l1 ++ "potion" :: l2
    ∧ ("potion" ∉ l1)
    ∧ Player.inv (player s') = l1 ++ l2
    ∧ S (length (Player.inv (player s'))) = length (Player.inv (player s))
    ∧ Player.hp (player s') = Player.hp (player s).
Proof.
  intros Hin Hfull.
  destruct (list_remove_first _ _ Hin) as (l1 & l2 & Hinv & Hnin & Hrm).
  unfold main.use. rewrite decide_True by done. simpl. rewrite Hrm. simpl.
  exists (mk_state (world s)
            (Player.set_inv (l1 ++ l2)
               (Player.set_hp
                  (Z.min (Player.hp (player s) + 5) (Player.max_hp (player s)))
                  (player s)))), l1, l2.
  simpl. split_and!; try done.
  - repeat f_equal; lia.
  - rewrite Hinv, !length_app. simpl. lia.
  - lia.
Qed.

(** ** Combat *)

Lemma randint_with_range (a b : Z) (d : nat) :
  a ≤ b → ∃ x, randint_with a b d = Done x ∧ a ≤ x ≤ b.
Proof.
  intros Hab. unfold randint_with, randbelow. rewrite decide_True by lia.
  eexists. split; [done|].
  pose proof (Nat.mod_upper_bound d (Z.to_nat (b + 1 - a))) as Hlt. lia.
Qed.

Lemma randint_with_one (d : nat) : randint_with 1 1 d = Done 1.
Proof.
  unfold randint_with, randbelow. rewrite decide_True by lia.
  change (Z.to_nat (1 + 1 - 1)) with 1%nat. by rewrite Nat.mod_1_r.
Qed.

(** Each round costs the enemy at least one hp, so [n] rounds and [2 * n]
    draws are enough when the enemy has at most [n] hp. *)
Lemma battle_terminates (n : nat) :
  ∀ (draws : list nat) (e : Enemy.t) (p : Player.t),
    1 ≤ Player.atk p → 1 ≤ Enemy.atk e →
    Enemy.hp e ≤ Z.of_nat n → (2 * n ≤ length draws)%nat →
    ∃ e' p' slain rest lines,
      main.battle draws e p = Done (e', p', slain, rest, lines)
      ∧ (Enemy.hp e' ≤ 0 ∨ Player.hp p' ≤ 0)
      ∧ (slain = true → Enemy.hp e' ≤ 0)
      ∧ Player.pos p' = Player.pos p.
Proof.
  induction n as [|n IH]; intros draws e p Hp He Hhp Hlen.
  - destruct draws; simpl; rewrite decide_False by lia;
      (do 5 eexists; split; [done|]; split_and!; [lia|done|done]).
  - destruct draws as [|d [|d' draws]]; simpl in Hlen; try lia.
    simpl. destruct (decide (Enemy.hp e > 0 ∧ Player.hp p > 0)) as [[He0 Hp0]|Hend].
    2: { do 5 eexists. split; [done|]. split_and!; [lia|done|done]. }
    destruct (randint_with_range 1 (Player.atk p) d) as (dmg & -> & Hdmg); [lia|].
    simpl. destruct (decide (Enemy.hp e - dmg ≤ 0)) as [Hdead|Halive].
    { do 5 eexists. split; [done|]. simpl. split_and!; [lia|lia|done]. }
    destruct (randint_with_range 1 (Enemy.atk e) d') as (edmg & -> & Hedmg); [lia|].
    simpl. destruct (decide (Player.hp p - edmg ≤ 0)) as [Hfell|Hup].
    { do 5 eexists. split; [done|]. simpl. split_and!; [lia|done|done]. }
    destruct (IH draws (Enemy.set_hp (Enemy.hp e - dmg) e)
                (Player.set_hp (Player.hp p - edmg) p))
      as (e' & p' & slain & rest & lines & -> & Hend & Hslain & Hpos);
      [done|done|simpl; lia|lia|].
    simpl. do 5 eexists. split; [done|]. done.
Qed.

(** C6: when the current room holds an enemy and both atk values are at
    least 1, [fight] runs to its end on any list of draws that holds two
    draws per hp of the enemy, and at the end the enemy's hp or the
    player's hp is at most 0; the enemy has left the room exactly when the
    loop removed it. *)
Theorem fight_terminates
    (s : state) (room : Room.t) (e : Enemy.t) (draws : list nat) :
  current_room s = Some room →
  Room.enemy room = Some e →
  1 ≤ Player.atk (player s) →
  1 ≤ Enemy.atk e →
  (2 * Z.to_nat (Enemy.hp e) ≤ length draws)%nat →
  ∃ s' rest lines e' slain battle_lines,
    main.fight s draws = Done (s', rest, lines)
    ∧ main.battle draws e (player s) = Done (e', player s', slain, rest, battle_lines)
    ∧ (Enemy.hp e' ≤ 0 ∨ Player.hp (player s') ≤ 0)
    ∧ (Room.enemy <$> current_room s') = Some (if slain then None else Some e').
Proof.
  intros Hroom He Hpatk Heatk Hlen.
  destruct (battle_terminates (Z.to_nat (Enemy.hp e)) draws e (player s))
    as (e' & p' & slain & rest & lines & Hb & Hend & _ & Hpos); [done|done|lia|done|].
  unfold main.fight, dict_getitem. unfold current_room in Hroom.
  rewrite Hroom. simpl. rewrite He, Hb. simpl.
  do 6 eexists. split; [done|]. simpl. split_and!; [done|done|].
  unfold current_room. simpl. rewrite Hpos, dict_lookup_setitem_eq. done.
Qed.

(** C2, as the code has it: a player with atk 1 and hp 12 who fights an
    enemy with hp 3 and atk 1 strikes exactly 3 times for 1 each, is hit
    exactly 2 times for 1 each (the enemy does not strike back after the
    blow that kills it), ends with hp 10, and the enemy is removed. *)
Theorem fight_goblin_two_hits
    (s : state) (room : Room.t) (e : Enemy.t) (draws : list nat) :
  current_room s = Some room →
  Room.enemy room = Some e →
  Player.atk (player s) = 1 →
  Player.hp (player s) = 12 →
  Enemy.hp e = 3 →
  Enemy.atk e = 1 →
  (5 ≤ length draws)%nat →
  encounter s draws [1; 1; 1] [1; 1] 10.
Proof.
  intros Hroom He Hpatk Hphp Hehp Heatk Hlen.
  destruct draws as [|d1 [|d2 [|d3 [|d4 [|d5 rest]]]]]; simpl in Hlen; try lia.
  unfold encounter, main.fight, dict_getitem. unfold current_room in Hroom.
  rewrite Hroom. simpl. rewrite He.
  destruct s as [w [php pmax patk ppos pinv]], e as [ename ehp eatk].
  simpl in *. subst patk php ehp eatk.
  repeat (cbn -[randint_with]; rewrite randint_with_one).
  cbn. do 3 eexists. split; [done|]. cbn. split_and!; try done.
  eexists. unfold current_room. cbn. by rewrite dict_lookup_setitem_eq.
Qed.

(** C2 as stated fails: in [goblin_fight] the player is not hit 3 times
    and does not end with hp 9. *)
Lemma fight_goblin_three_hits_refuted :
  Player.atk (player goblin_fight) = 1
  ∧ Player.hp (player goblin_fight) = 12
  ∧ (Room.enemy <$> current_room goblin_fight) = Some (Some (Enemy.mk "Goblin" 3 1))
  ∧ ¬ encounter goblin_fight [0; 0; 0; 0; 0; 0]%nat [1; 1; 1] [1; 1; 1] 9.
Proof.
  split_and!; [done..|].
  intros (s' & rest & lines & Hf & _ & Hhits & _).
  vm_compute in Hf. injection Hf as <- <- <-. vm_compute in Hhits. done.
Qed.

(** ** Visited rooms *)

Lemma visited_at_setitem (s : state) (p : Player.t) (q k : pos) (room room' : Room.t) :
  dict_lookup (rooms (world s)) k = Some room →
  (Room.visited room = true → Room.visited room' = true) →
  visited_at s q →
  visited_at (mk_state (set_rooms (dict_setitem (rooms (world s)) k room') (world s)) p) q.
Proof.
  intros Hk Hmono (r & Hr & Hv). unfold visited_at. simpl.
  rewrite dict_lookup_setitem. destruct (decide (k = q)) as [->|Hne].
  - exists room'. split; [done|]. apply Hmono. congruence.
  - by exists r.
Qed.

Lemma move_keeps_visited (direction : string) (s s' : state) (moved : bool)
    (lines : list event) (q : pos) :
  main.move direction s = Done (moved, s', lines) → visited_at s q → visited_at s' q.
Proof.
  unfold main.move. intros Hm Hq.
  destruct (dict_lookup main.deltas direction) as [[dr dc]|]; [|congruence].
  inv_bind Hm. destruct a; simpl in Hm; [|congruence].
  inv_bind Hm. destruct (Room.enemy a); [congruence|].
  inv_bind Hm. apply dict_update_Done in Ha1 as (r & Hr & ->).
  injection Hm as <- <- <-. by eapply visited_at_setitem.
Qed.

Lemma fight_keeps_visited (s s' : state) (draws rest : list nat)
    (lines : list event) (q : pos) :
  main.fight s draws = Done (s', rest, lines) → visited_at s q → visited_at s' q.
Proof.
  unfold main.fight, dict_getitem. intros Hf Hq.
  destruct (dict_lookup _ _) as [room|] eqn:Hroom; simpl in Hf; [|done].
  destruct (Room.enemy room); [|congruence].
  inv_bind Hf. destruct a as [[[[e' p] slain] rest'] lines'].
  injection Hf as <- <- <-. by eapply visited_at_setitem.
Qed.

Lemma take_keeps_visited (s s' : state) (lines : list event) (q : pos) :
  main.take s = Done (s', lines) → visited_at s q → visited_at s' q.
Proof.
  unfold main.take, dict_getitem. intros Ht Hq.
  destruct (dict_lookup _ _) as [room|] eqn:Hroom; simpl in Ht; [|done].
  destruct (Room.item room) as [it|]; [|congruence].
  destruct (decide _); injection Ht as <- <-; by eapply visited_at_setitem.
Qed.

Lemma use_keeps_visited (item_name : string) (s s' : state) (lines : list event)
    (q : pos) :
  main.use item_name s = Done (s', lines) → visited_at s q → visited_at s' q.
Proof.
  unfold main.use. intros Hu Hq. destruct (decide _); [|congruence].
  inv_bind Hu. injection Hu as <- <-. done.
Qed.

Lemma step_keeps_visited (c : main.command) (s s' : state) (draws rest : list nat)
    (moved : bool) (lines : list event) (q : pos) :
  main.step c s draws = Done (moved, s', rest, lines) →
  visited_at s q → visited_at s' q.
Proof.
  destruct c; simpl; intros Hs; inv_bind Hs.
  - destruct a as [[m s1] l1]. injection Hs as <- <- <- <-.
    by eapply move_keeps_visited.
  - destruct a as [[s1 d1] l1]. injection Hs as <- <- <- <-.
    by eapply fight_keeps_visited.
  - destruct a as [s1 l1]. injection Hs as <- <- <- <-.
    by eapply take_keeps_visited.
  - destruct a as [s1 l1]. injection Hs as <- <- <- <-.
    by eapply use_keeps_visited.
Qed.

(** C9: a room whose visited flag is true still exists with the flag true
    after any one of move, fight, take and use, and after any sequence of
    them run by the main loop. *)
Theorem visited_stays_true (q : pos) :
  (∀ (c : main.command) (s s' : state) (draws rest : list nat) (moved : bool)
     (lines : list event),
     main.step c s draws = Done (moved, s', rest, lines) →
     visited_at s q → visited_at s' q)
  ∧ (∀ (cs : list main.command) (s s' : state) (draws rest : list nat)
       (lines : list event),
       main.run cs s draws = Done (s', rest, lines) →
       visited_at s q → visited_at s' q).
Proof.
  split; [intros; by eapply step_keeps_visited|].
  induction cs as [|c cs IH]; simpl; intros s s' draws rest lines Hrun Hq.
  - by injection Hrun as <- <- <-.
  - destruct (decide _); [|by injection Hrun as <- <- <-].
    inv_bind Hrun. destruct a as [[[moved s1] d1] l1].
    apply step_keeps_visited with (q := q) in Ha; [|done].
    destruct (_ && _).
    + by injection Hrun as <- <- <-.
    + inv_bind Hrun. destruct a as [[s2 d2] l2]. injection Hrun as <- <- <-.
      by eapply IH.
Qed.

(** ** Cells of the grid *)

Lemma getitem_lookup {A : Type} (l : list A) (i : Z) (x : A) :
  0 ≤ i → l !! Z.to_nat i = Some x → getitem l i = Done x.
Proof.
  intros Hi Hx. pose proof (lookup_lt_Some _ _ _ Hx) as Hlt.
  unfold getitem. rewrite norm_index_nonneg by lia. by rewrite Hx.
Qed.

Lemma grid_get_lookup (g : list (list bool)) (r c : Z) (row : list bool) (b : bool) :
  0 ≤ r → 0 ≤ c →
  g !! Z.to_nat r = Some row → row !! Z.to_nat c = Some b →
  grid_get g r c = Done b.
Proof.
  intros Hr Hc Hrow Hb. unfold grid_get.
  rewrite (getitem_lookup g r row) by done. simpl. by apply getitem_lookup.
Qed.

(** Writing a cell inside a well-formed grid succeeds, keeps the grid
    well-formed and changes that cell only. *)
Lemma grid_set_spec (g : list (list bool)) (r c : Z) (v : bool) :
  wf_grid g → in_bounds r c = true →
  ∃ g', grid_set g r c v = Done g'
        ∧ wf_grid g'
        ∧ ∀ r' c', in_bounds r' c' = true →
            grid_get g' r' c' =
              if decide ((r', c') = (r, c)) then Done v else grid_get g r' c'.
Proof.
  intros Hwf [Hr Hc]%in_bounds_spec.
  destruct (wf_grid_row g r Hwf Hr) as (row & Hrow & Hget & Hlen).
  pose proof (lookup_lt_Some _ _ _ Hrow) as Hrlt.
  exists (<[Z.to_nat r := <[Z.to_nat c := v]> row]> g).
  split_and!.
  - unfold grid_set. rewrite Hget. simpl.
    rewrite setitem_nonneg by lia. simpl. apply setitem_nonneg. lia.
  - destruct Hwf as [Hh Hw]. split; [by rewrite length_insert|].
    apply Forall_insert; [done|]. by rewrite length_insert.
  - intros r' c' [Hr' Hc']%in_bounds_spec.
    destruct (wf_grid_row g r' Hwf Hr') as (row' & Hrow' & Hget' & Hlen').
    destruct (lookup_lt_is_Some_2 row' (Z.to_nat c')) as [b Hb]; [lia|].
    destruct (decide (r' = r)) as [->|Hrne].
    + assert (row' = row) as -> by congruence.
      destruct (decide (c' = c)) as [->|Hcne].
      * rewrite decide_True by done.
        eapply grid_get_lookup; [lia..| |].
        -- by apply list_lookup_insert_eq.
        -- apply list_lookup_insert_eq. lia.
      * rewrite decide_False by congruence.
        rewrite (grid_get_lookup g r c' row b) by (done || lia).
        eapply grid_get_lookup; [lia..| |].
        -- by apply list_lookup_insert_eq.
        -- rewrite list_lookup_insert_ne by lia. done.
    + rewrite decide_False by congruence.
      rewrite (grid_get_lookup g r' c' row' b) by (done || lia).
      eapply grid_get_lookup; [lia..| |done].
      rewrite list_lookup_insert_ne by lia. done.
Qed.

(** ** Connectivity *)

Lemma reachable_carved (g : list (list bool)) (p : pos) :
  reachable g p → carved g p.
Proof. by destruct 1. Qed.

Lemma reachable_mono (g g' : list (list bool)) (p : pos) :
  (∀ q, carved g q → carved g' q) → reachable g p → reachable g' p.
Proof.
  intros Hsub. induction 1 as [H0|p q _ IH Hadj Hq].
  - apply reach_start. by apply Hsub.
  - eapply reach_step; [done..|]. by apply Hsub.
Qed.

(** Carving a cell next to a room keeps the grid connected. *)
Lemma carve_next_to_room (g : list (list bool)) (p q : pos) :
  wf_grid g → connected g → carved g p → adjacent p q →
  in_bounds q.1 q.2 = true →
  ∃ g', grid_set g q.1 q.2 true = Done g'
        ∧ wf_grid g' ∧ connected g' ∧ carved g' q
        ∧ ∀ x, carved g x → carved g' x.
Proof.
  intros Hwf Hconn Hp Hadj Hq.
  destruct (grid_set_spec g q.1 q.2 true Hwf Hq) as (g' & Hset & Hwf' & Hget).
  assert (∀ x, carved g x → carved g' x) as Hsub.
  { intros x [Hx Hgx]. split; [done|]. rewrite Hget by done.
    destruct (decide _); done. }
  assert (carved g' q) as Hq'.
  { split; [done|]. rewrite Hget by done. by rewrite decide_True. }
  exists g'. split_and!; try done.
  intros x [Hx Hgx]. rewrite Hget in Hgx by done.
  destruct (decide ((x.1, x.2) = (q.1, q.2))) as [Heq|Hne].
  - assert (x = q) as -> by (destruct x, q; simpl in *; congruence).
    eapply reach_step; [|done..].
    eapply reachable_mono; [done|]. by apply Hconn.
  - eapply reachable_mono; [done|]. apply Hconn. by split.
Qed.

Lemma for_each_invariant {A S : Type} (P : S → Prop) (xs : list A)
    (body : A → S → outcome S) (s s' : S) :
  (∀ x s1 s2, x ∈ xs → body x s1 = Done s2 → P s1 → P s2) →
  for_each xs body s = Done s' → P s → P s'.
Proof.
  revert s. induction xs as [|x xs IH]; simpl; intros s Hbody Hrun Hs.
  - by injection Hrun as <-.
  - inv_bind Hrun. eapply IH; [|done|].
    + intros y s1 s2 Hy. apply Hbody. by apply list_elem_of_further.
    + eapply Hbody; [apply list_elem_of_here|done..].
Qed.

Lemma choice_with_elem {A : Type} (seq : list A) (d : nat) (x : A) :
  choice_with seq d = Done x → x ∈ seq.
Proof.
  unfold choice_with. destruct (seq !! _) as [y|] eqn:Hy; [|done].
  intros [= <-]. by eapply list_elem_of_lookup_2.
Qed.

Lemma weighted_dirs_elem (dirs : list (Z * Z)) (m : Z * Z) :
  m ∈ weighted_dirs dirs → m ∈ dirs.
Proof.
  unfold weighted_dirs. rewrite !list_elem_of_In, in_flat_map.
  intros ([dr dc] & Hin & Hrep). apply list_elem_of_In in Hrep.
  apply elem_of_replicate in Hrep as [-> _]. done.
Qed.

(** A move of the walk leads to a neighbour inside the grid. *)
Lemma walk_dirs_spec (r c dr dc : Z) :
  in_bounds r c = true → (dr, dc) ∈ walk_dirs r c →
  in_bounds (r + dr) (c + dc) = true ∧ adjacent (r, c) (r + dr, c + dc).
Proof.
  rewrite !in_bounds_spec. unfold adjacent, walk_dirs, HEIGHT, WIDTH. simpl.
  intros Hrc Hin.
  repeat (apply elem_of_app in Hin as [Hin|Hin]);
    (destruct (decide _) in Hin;
       [apply list_elem_of_singleton in Hin; injection Hin as -> ->; lia
       |by apply elem_of_nil in Hin]).
Qed.

Lemma carve_path_connected (draws : list nat) :
  ∀ (g : list (list bool)) (path : list pos) (r c : Z)
    (g' : list (list bool)) (path' : list pos) (rest : list nat),
    wf_grid g → connected g → carved g (r, c) →
    carve_path draws g path r c = Done (g', path', rest) →
    wf_grid g' ∧ connected g' ∧ (∀ x, carved g x → carved g' x)
    ∧ carved g' (HEIGHT - 1, WIDTH - 1).
Proof.
  assert (∀ (g g' : list (list bool)) (path path' : list pos) (r c : Z)
            (l rest : list nat),
            wf_grid g → connected g → carved g (r, c) →
            (r, c) = (HEIGHT - 1, WIDTH - 1) →
            Done (g, path, l) = Done (g', path', rest) →
            wf_grid g' ∧ connected g' ∧ (∀ x, carved g x → carved g' x)
            ∧ carved g' (HEIGHT - 1, WIDTH - 1)) as Hstop.
  { intros g g' path path' r c l rest Hwf Hconn Hrc Hend [= <- <- <-].
    rewrite <- Hend. done. }
  induction draws as [|d draws IH]; intros g path r c g' path' rest Hwf Hconn Hrc;
    simpl; destruct (decide ((r, c) = (HEIGHT - 1, WIDTH - 1))) as [Hend|Hgo];
    [by eapply Hstop|done|by eapply Hstop|].
  intros Hrun. inv_bind Hrun. destruct a as [dr dc].
  apply choice_with_elem, weighted_dirs_elem in Ha.
  destruct (walk_dirs_spec r c dr dc) as [Hin Hadj]; [by destruct Hrc|done|].
  inv_bind Hrun. destruct a.
  - apply IH in Hrun; [done..|]. by split.
  - destruct (carve_next_to_room g (r, c) (r + dr, c + dc))
      as (g1 & Hset & Hwf1 & Hconn1 & Hq1 & Hsub1); [done..|].
    simpl in Hset. rewrite Hset in Hrun. simpl in Hrun.
    apply IH in Hrun as (? & ? & Hsub & ?); [|done..].
    split_and!; [done..| |done]. intros x Hx. by apply Hsub, Hsub1.
Qed.

Lemma attach_room_connected (dirs : list (Z * Z)) :
  ∀ (g g' : list (list bool)) (rr rc : Z),
    Forall (λ m, Z.abs m.1 + Z.abs m.2 = 1) dirs →
    wf_grid g → connected g → in_bounds rr rc = true →
    attach_room g rr rc dirs = Done g' →
    wf_grid g' ∧ connected g' ∧ ∀ x, carved g x → carved g' x.
Proof.
  induction dirs as [|[dr dc] dirs IH]; intros g g' rr rc Hdirs Hwf Hconn Hin; simpl.
  - by intros [= <-].
  - apply Forall_cons in Hdirs as [Hunit Hdirs]. simpl in Hunit.
    destruct (in_bounds (rr + dr) (rc + dc)) eqn:Hn; [|by apply IH].
    intros Hrun. inv_bind Hrun. destruct a; [|by apply (IH g g' rr rc)].
    destruct (carve_next_to_room g (rr + dr, rc + dc) (rr, rc))
      as (g1 & Hset & Hwf1 & Hconn1 & _ & Hsub1); [done..|by split| |done|].
    { unfold adjacent. simpl. lia. }
    simpl in Hset. rewrite Hset in Hrun. by injection Hrun as <-.
Qed.

Lemma randint_range (a b : Z) (draws rest : list nat) (x : Z) :
  randint a b draws = Done (x, rest) → a ≤ x ≤ b.
Proof.
  unfold randint. destruct (decide _); [|done]. destruct draws as [|d draws]; [done|].
  destruct (randint_with_range a b d) as (y & -> & Hy); [lia|].
  simpl. by intros [= <- <-].
Qed.

Lemma extra_room_connected (g g' : list (list bool)) (draws rest : list nat) :
  wf_grid g → connected g →
  extra_room (g, draws) = Done (g', rest) →
  wf_grid g' ∧ connected g' ∧ ∀ x, carved g x → carved g' x.
Proof.
  intros Hwf Hconn Hrun. unfold extra_room in Hrun.
  inv_bind Hrun. destruct a as [rr draws1]. apply randint_range in Ha.
  inv_bind Hrun. destruct a as [rc draws2]. apply randint_range in Ha0.
  inv_bind Hrun. destruct a.
  - by injection Hrun as <- <-.
  - inv_bind Hrun. injection Hrun as <- <-.
    eapply attach_room_connected; [|done..| |done].
    + repeat constructor.
    + apply in_bounds_spec. unfold HEIGHT, WIDTH in *. lia.
Qed.

(** The grid returned by [generate_dungeon] is well-formed and connected,
    and holds the start and the exit. *)
Lemma generate_dungeon_grid (draws rest : list nat) (d : dungeon) :
  generate_dungeon draws = Done (d, rest) →
  wf_grid (grid d) ∧ connected (grid d)
  ∧ carved (grid d) (0, 0) ∧ carved (grid d) (HEIGHT - 1, WIDTH - 1).
Proof.
  unfold generate_dungeon. intros Hgen.
  set (g0 := replicate _ _) in Hgen.
  assert (wf_grid g0) as Hwf0.
  { unfold g0. split; [by rewrite length_replicate|].
    apply Forall_replicate. by rewrite length_replicate. }
  destruct (grid_set_spec g0 0 0 true Hwf0) as (g1 & Hset & Hwf1 & Hget1); [done|].
  inv_bind Hgen. rewrite Hset in Ha. injection Ha as <-.
  assert (carved g1 (0, 0)) as Hstart.
  { split; [done|]. rewrite Hget1 by done. by rewrite decide_True. }
  assert (connected g1) as Hconn1.
  { intros [r c] [Hin Hrc]. cbn [fst snd] in Hin, Hrc. rewrite Hget1 in Hrc by done.
    destruct (decide ((r, c) = (0, 0))) as [[= -> ->]|Hne]; [by apply reach_start|].
    exfalso. apply in_bounds_spec in Hin.
    assert (grid_get g0 r c = Done false) as Hfalse; [|congruence].
    eapply grid_get_lookup; [lia..| |].
    - apply lookup_replicate_2. unfold HEIGHT in *. lia.
    - apply lookup_replicate_2. unfold WIDTH in *. lia. }
  inv_bind Hgen. destruct a as [[g2 path] draws2].
  apply carve_path_connected in Ha as (Hwf2 & Hconn2 & Hsub2 & Hexit2); [|done..].
  inv_bind Hgen. destruct a as [g3 draws3].
  assert (wf_grid g3 ∧ connected g3 ∧ ∀ x, carved g2 x → carved g3 x)
    as (Hwf3 & Hconn3 & Hsub3).
  { refine (for_each_invariant
              (λ st, wf_grid st.1 ∧ connected st.1 ∧ ∀ x, carved g2 x → carved st.1 x)
              _ _ (g2, draws2) (g3, draws3) _ Ha _); [|done].
    intros _ [ga da] [gb db] _ Hstep (Hwfa & Hconna & Hsuba). cbn [fst snd] in *.
    apply extra_room_connected in Hstep as (? & ? & Hsubb); [|done..].
    split_and!; [done..|]. intros x Hx. by apply Hsubb, Hsuba. }
  inv_binds Hgen. injection Hgen as <- <-. simpl. split_and!; [done..| |].
  - by apply Hsub3, Hsub2.
  - by apply Hsub3.
Qed.

(** ** Shuffling *)

Lemma swap_Permutation {A : Type} (l : list A) (i j : nat) : swap l i j ≡ₚ l.
Proof.
  unfold swap.
  destruct (l !! i) as [a|] eqn:Hi; [|done].
  destruct (l !! j) as [b|] eqn:Hj; [|done].
  pose proof (lookup_lt_Some _ _ _ Hi) as Hilt.
  pose proof (lookup_lt_Some _ _ _ Hj) as Hjlt.
  apply Permutation_inj. split; [by rewrite !length_insert|].
  exists (λ k, if decide (k = j) then i else if decide (k = i) then j else k).
  split.
  - intros x y Hxy. repeat case_decide; congruence.
  - intros k. destruct (decide (k = j)) as [->|Hkj].
    + rewrite list_lookup_insert_eq by (by rewrite length_insert). done.
    + rewrite list_lookup_insert_ne by done.
      destruct (decide (k = i)) as [->|Hki].
      * by rewrite list_lookup_insert_eq.
      * by rewrite list_lookup_insert_ne.
Qed.

Lemma shuffle_Permutation {A : Type} (x x' : list A) (draws rest : list nat) :
  shuffle x draws = Done (x', rest) → x' ≡ₚ x.
Proof.
  unfold shuffle. intros Hrun.
  refine (for_each_invariant (λ st : list A * list nat, st.1 ≡ₚ x)
            _ _ (x, draws) (x', rest) _ Hrun _); [|done].
  intros i [y dy] [z dz] _ Hstep Hy. cbn [fst] in *.
  destruct dy as [|d dy]; [done|]. injection Hstep as <- <-.
  by rewrite swap_Permutation.
Qed.

(** ** Rooms *)

Lemma dict_setitem_elem {K V : Type} `{EqDecision K}
    (d : list (K * V)) (k q : K) (v x : V) :
  (q, x) ∈ dict_setitem d k v → (q, x) ∈ d ∨ (q = k ∧ x = v).
Proof.
  induction d as [|[k' v'] d IH]; simpl.
  - intros [= -> ->]%list_elem_of_singleton. by right.
  - destruct (decide (k = k')) as [->|Hne].
    + intros [[= -> ->]|Hin]%elem_of_cons; [by right|].
      left. by apply list_elem_of_further.
    + intros [[= -> ->]|Hin]%elem_of_cons; [left; apply list_elem_of_here|].
      destruct (IH Hin) as [?|?]; [left|by right]. by apply list_elem_of_further.
Qed.

Lemma dict_lookup_elem {K V : Type} `{EqDecision K} (d : list (K * V)) (k : K) (v : V) :
  dict_lookup d k = Some v → (k, v) ∈ d.
Proof.
  induction d as [|[k' v'] d IH]; simpl; [done|].
  destruct (decide (k = k')) as [->|Hne].
  - intros [= ->]. apply list_elem_of_here.
  - intros Hl. apply list_elem_of_further. by apply IH.
Qed.

(** What [rooms[k][field] = ...] leaves in the dict. *)
Lemma dict_update_elem {K V : Type} `{EqDecision K}
    (d d' : list (K * V)) (k q : K) (f : V → V) (x : V) :
  dict_update d k f = Done d' → (q, x) ∈ d' →
  (q, x) ∈ d ∨ (q = k ∧ ∃ v, (k, v) ∈ d ∧ x = f v).
Proof.
  intros (v & Hv & ->)%dict_update_Done Hin.
  apply dict_setitem_elem in Hin as [?|[-> ->]]; [by left|right].
  split; [done|]. exists v. split; [|done]. by apply dict_lookup_elem.
Qed.

Lemma build_rooms_spec (g : list (list bool)) (rs : list (pos * Room.t)) :
  build_rooms g = Done rs →
  NoDup (dict_keys rs) ∧ ∀ p room, (p, room) ∈ rs → room = new_room.
Proof.
  unfold build_rooms. intros Hrun.
  refine (for_each_invariant
            (λ rs : list (pos * Room.t),
               NoDup (dict_keys rs) ∧ ∀ p room, (p, room) ∈ rs → room = new_room)
            _ _ [] rs _ Hrun _).
  - intros r rs1 rs2 _ Hrow Hrs1.
    refine (for_each_invariant
              (λ rs : list (pos * Room.t),
                 NoDup (dict_keys rs) ∧ ∀ p room, (p, room) ∈ rs → room = new_room)
              _ _ rs1 rs2 _ Hrow Hrs1).
    intros c rs3 rs4 _ Hcell [Hnd Hnew]. inv_bind Hcell.
    destruct a; injection Hcell as <-; [|done]. split.
    + by apply dict_keys_setitem_NoDup.
    + intros p room [Hin|[_ ->]]%dict_setitem_elem; [by eapply Hnew|done].
  - split; [apply NoDup_nil_2|]. by intros p room ?%elem_of_nil.
Qed.

Lemma place_enemies_spec (targets : list pos) (rs rs' : list (pos * Room.t))
    (draws rest : list nat) (area items : list pos) :
  place_enemies targets rs draws = Done (rs', rest) →
  targets ⊆ area →
  enemies_within area rs → items_within items rs →
  enemies_within area rs' ∧ items_within items rs'.
Proof.
  unfold place_enemies. intros Hrun Hsub He Hi.
  refine (for_each_invariant
            (λ st : list (pos * Room.t) * list nat,
               enemies_within area st.1 ∧ items_within items st.1)
            _ _ (rs, draws) (rs', rest) _ Hrun _); [|done].
  intros k [rs1 d1] [rs2 d2] Hk Hstep [He1 Hi1]. cbn [fst] in *.
  inv_binds Hstep. injection Hstep as <- <-. split.
  - intros q room Hin Hsome.
    destruct (dict_update_elem _ _ _ _ _ _ Ha0 Hin) as [Hin'|[-> _]].
    + by eapply He1.
    + by apply Hsub.
  - intros q room Hin Hsome.
    destruct (dict_update_elem _ _ _ _ _ _ Ha0 Hin) as [Hin'|[-> (v & Hv & ->)]].
    + by eapply Hi1.
    + by eapply Hi1.
Qed.

Lemma place_items_spec (item_pool : list Item.t) (targets : list pos)
    (rs rs' : list (pos * Room.t)) (enemies area : list pos) :
  place_items item_pool targets rs = Done rs' →
  targets ⊆ area →
  enemies_within enemies rs → items_within area rs →
  enemies_within enemies rs' ∧ items_within area rs'.
Proof.
  unfold place_items. intros Hrun Hsub He Hi.
  refine (for_each_invariant
            (λ rs : list (pos * Room.t),
               enemies_within enemies rs ∧ items_within area rs)
            _ _ rs rs' _ Hrun _); [|done].
  intros [i k] rs1 rs2 Hk Hstep [He1 Hi1].
  apply list_elem_of_lookup in Hk as [j Hj].
  rewrite list_lookup_imap in Hj.
  destruct (targets !! j) as [k'|] eqn:Hk'; [|done]. injection Hj as <- <-.
  apply list_elem_of_lookup_2 in Hk'.
  inv_bind Hstep. split.
  - intros q room Hin Hsome.
    destruct (dict_update_elem _ _ _ _ _ _ Hstep Hin) as [Hin'|[-> (v & Hv & ->)]].
    + by eapply He1.
    + by eapply He1.
  - intros q room Hin Hsome.
    destruct (dict_update_elem _ _ _ _ _ _ Hstep Hin) as [Hin'|[-> _]].
    + by eapply Hi1.
    + by apply Hsub.
Qed.

Lemma describe_rooms_spec (rs rs' : list (pos * Room.t)) (draws rest : list nat)
    (enemies items : list pos) :
  describe_rooms rs draws = Done (rs', rest) →
  enemies_within enemies rs → items_within items rs →
  enemies_within enemies rs' ∧ items_within items rs'.
Proof.
  unfold describe_rooms. intros Hrun He Hi.
  refine (for_each_invariant
            (λ st : list (pos * Room.t) * list nat,
               enemies_within enemies st.1 ∧ items_within items st.1)
            _ _ (rs, draws) (rs', rest) _ Hrun _); [|done].
  intros k [rs1 d1] [rs2 d2] _ Hstep [He1 Hi1]. cbn [fst] in *.
  inv_bind Hstep. unfold dict_getitem in Ha.
  destruct (dict_lookup rs1 k) as [v|] eqn:Hv; [|done]. injection Ha as <-.
  apply dict_lookup_elem in Hv.
  destruct (decide _); [|by injection Hstep as <- <-].
  inv_binds Hstep. injection Hstep as <- <-. split.
  - intros q room [Hin|[-> ->]]%dict_setitem_elem Hsome; by eapply He1.
  - intros q room [Hin|[-> ->]]%dict_setitem_elem Hsome; by eapply Hi1.
Qed.

Lemma dict_update_within (rs rs' : list (pos * Room.t)) (k : pos)
    (f : Room.t → Room.t) (enemies items : list pos) :
  dict_update rs k f = Done rs' →
  (∀ v, Room.enemy (f v) = Room.enemy v) →
  (∀ v, Room.item (f v) = Room.item v) →
  enemies_within enemies rs ∧ items_within items rs →
  enemies_within enemies rs' ∧ items_within items rs'.
Proof.
  intros Hup Hfe Hfi [He Hi]. split; intros q room Hin Hsome;
    destruct (dict_update_elem _ _ _ _ _ _ Hup Hin) as [Hin'|[-> (v & Hv & ->)]].
  - by eapply He.
  - rewrite Hfe in Hsome. by eapply He.
  - by eapply Hi.
  - rewrite Hfi in Hsome. by eapply Hi.
Qed.

(** Enemies go to the first [n_enemies] rooms of the shuffled list and
    items to rooms of the rest of it, so the two areas share no room. *)
Lemma generate_dungeon_areas (draws rest : list nat) (d : dungeon) :
  generate_dungeon draws = Done (d, rest) →
  ∃ enemies items : list pos,
    (∀ p, p ∈ enemies → p ∉ items)
    ∧ enemies_within enemies (rooms d) ∧ items_within items (rooms d).
Proof.
  unfold generate_dungeon. intros Hgen.
  split_bind Hgen as g1 Hset. split_bind Hgen as [[g2 path] draws0] Hwalk.
  split_bind Hgen as [g3 draws1] Hextra.
  split_bind Hgen as rs0 Hbuild. apply build_rooms_spec in Hbuild as [Hnd0 Hnew0].
  assert (enemies_within [] rs0 ∧ items_within [] rs0) as Hin0.
  { split; intros p room Hin Hsome; rewrite (Hnew0 p room Hin) in Hsome;
      by destruct Hsome. }
  split_bind Hgen as rs1 Hup1. pose proof (dict_update_keys _ _ _ _ Hup1) as Hk1.
  eapply dict_update_within in Hup1; [|done..].
  split_bind Hgen as rs2 Hup2. pose proof (dict_update_keys _ _ _ _ Hup2) as Hk2.
  eapply dict_update_within in Hup2; [|done..].
  split_bind Hgen as rs3 Hup3. pose proof (dict_update_keys _ _ _ _ Hup3) as Hk3.
  eapply dict_update_within in Hup3 as [He3 Hi3]; [|done..].
  assert (NoDup (dict_keys rs3)) as Hnd3 by (by rewrite Hk3, Hk2, Hk1).
  split_bind Hgen as [placeable draws2] Hshuf.
  apply shuffle_Permutation in Hshuf.
  assert (NoDup placeable) as Hndp.
  { rewrite Hshuf. by apply NoDup_filter. }
  set (n_enemies := Nat.max 2 (length placeable / 3)) in Hgen.
  split_bind Hgen as [rs4 draws3] Hen.
  eapply (place_enemies_spec _ _ _ _ _
            (take n_enemies placeable) (drop n_enemies placeable))
    in Hen as [He4 Hi4]; [|done| |].
  2: { intros p room Hin Hsome. by apply He3, elem_of_nil in Hin. }
  2: { intros p room Hin Hsome. by apply Hi3, elem_of_nil in Hin. }
  split_bind Hgen as [remaining draws4] Hshuf2.
  apply shuffle_Permutation in Hshuf2.
  split_bind Hgen as [item_pool draws5] Hpool.
  split_bind Hgen as rs5 Hit.
  eapply (place_items_spec _ _ _ _ _ (drop n_enemies placeable))
    in Hit as [He5 Hi5]; [| |done..].
  2: { intros p Hp. rewrite <- Hshuf2. by eapply subseteq_take. }
  split_bind Hgen as [rs6 draws6] Hdesc.
  eapply describe_rooms_spec in Hdesc as [He6 Hi6]; [|done..].
  injection Hgen as <- <-. simpl.
  exists (take n_enemies placeable), (drop n_enemies placeable).
  split_and!; [|done..].
  rewrite <- (take_drop n_enemies placeable) in Hndp.
  apply NoDup_app in Hndp as (_ & Hdisj & _). done.
Qed.

(** The rooms sit on carved cells of the grid. *)
Lemma build_rooms_keys (g : list (list bool)) (rs : list (pos * Room.t)) :
  build_rooms g = Done rs → ∀ p, p ∈ dict_keys rs → carved g p.
Proof.
  unfold build_rooms. intros Hrun.
  refine (for_each_invariant
            (λ rs : list (pos * Room.t), ∀ p, p ∈ dict_keys rs → carved g p)
            _ _ [] rs _ Hrun _); [|by intros p ?%elem_of_nil].
  intros r rs1 rs2 Hr Hrow Hrs1.
  refine (for_each_invariant
            (λ rs : list (pos * Room.t), ∀ p, p ∈ dict_keys rs → carved g p)
            _ _ rs1 rs2 _ Hrow Hrs1).
  intros c rs3 rs4 Hc Hcell Hrs3. inv_bind Hcell.
  destruct a; injection Hcell as <-; [|done].
  intros p Hp. destruct (decide ((r, c) ∈ dict_keys rs3)) as [Hold|Hnew].
  { rewrite dict_keys_setitem_old in Hp by done. by apply Hrs3. }
  rewrite dict_keys_setitem_new in Hp by done.
  apply elem_of_app in Hp as [Hp|Hp]; [by apply Hrs3|].
  apply list_elem_of_singleton in Hp as ->.
  apply elem_of_seqZ in Hr, Hc. split; [|done].
  apply in_bounds_spec. simpl. lia.
Qed.

Lemma place_enemies_keys (targets : list pos) (rs rs' : list (pos * Room.t))
    (draws rest : list nat) :
  place_enemies targets rs draws = Done (rs', rest) → dict_keys rs' = dict_keys rs.
Proof.
  unfold place_enemies. intros Hrun.
  refine (for_each_invariant
            (λ st : list (pos * Room.t) * list nat, dict_keys st.1 = dict_keys rs)
            _ _ (rs, draws) (rs', rest) _ Hrun _); [|done].
  intros k [rs1 d1] [rs2 d2] _ Hstep Hk. cbn [fst] in *.
  inv_binds Hstep. injection Hstep as <- <-.
  by erewrite dict_update_keys.
Qed.

Lemma place_items_keys (item_pool : list Item.t) (targets : list pos)
    (rs rs' : list (pos * Room.t)) :
  place_items item_pool targets rs = Done rs' → dict_keys rs' = dict_keys rs.
Proof.
  unfold place_items. intros Hrun.
  refine (for_each_invariant
            (λ st : list (pos * Room.t), dict_keys st = dict_keys rs)
            _ _ rs rs' _ Hrun _); [|done].
  intros [i k] rs1 rs2 _ Hstep Hk. inv_bind Hstep.
  by erewrite dict_update_keys.
Qed.

Lemma describe_rooms_keys (rs rs' : list (pos * Room.t)) (draws rest : list nat) :
  describe_rooms rs draws = Done (rs', rest) → dict_keys rs' = dict_keys rs.
Proof.
  unfold describe_rooms. intros Hrun.
  refine (for_each_invariant
            (λ st : list (pos * Room.t) * list nat, dict_keys st.1 = dict_keys rs)
            _ _ (rs, draws) (rs', rest) _ Hrun _); [|done].
  intros k [rs1 d1] [rs2 d2] _ Hstep Hk. cbn [fst] in *.
  inv_bind Hstep. unfold dict_getitem in Ha.
  destruct (dict_lookup rs1 k) as [v|] eqn:Hv; [|done]. injection Ha as <-.
  destruct (decide _); [|by injection Hstep as <- <-].
  inv_binds Hstep. injection Hstep as <- <-.
  rewrite dict_keys_setitem_old; [done|]. by eapply dict_lookup_Some_keys.
Qed.

(** The rooms of a generated dungeon are keyed by carved cells, and the
    start is (0,0). *)
Lemma generate_dungeon_keys (draws rest : list nat) (d : dungeon) :
  generate_dungeon draws = Done (d, rest) →
  start d = (0, 0) ∧ ∀ p, p ∈ dict_keys (rooms d) → carved (grid d) p.
Proof.
  unfold generate_dungeon. intros Hgen.
  split_bind Hgen as g1 Hset. split_bind Hgen as [[g2 path] draws0] Hwalk.
  split_bind Hgen as [g3 draws1] Hextra.
  split_bind Hgen as rs0 Hbuild. pose proof (build_rooms_keys _ _ Hbuild) as Hkeys.
  split_bind Hgen as rs1 Hup1. apply dict_update_keys in Hup1.
  split_bind Hgen as rs2 Hup2. apply dict_update_keys in Hup2.
  split_bind Hgen as rs3 Hup3. apply dict_update_keys in Hup3.
  split_bind Hgen as [placeable draws2] Hshuf.
  split_bind Hgen as [rs4 draws3] Hen. apply place_enemies_keys in Hen.
  split_bind Hgen as [remaining draws4] Hshuf2.
  split_bind Hgen as [item_pool draws5] Hpool.
  split_bind Hgen as rs5 Hit. apply place_items_keys in Hit.
  split_bind Hgen as [rs6 draws6] Hdesc. apply describe_rooms_keys in Hdesc.
  injection Hgen as <- <-. simpl. split; [done|].
  by rewrite Hdesc, Hit, Hen, Hup3, Hup2, Hup1.
Qed.

(** ** The generated dungeon *)

(** C1: in every dungeon [generate_dungeon] returns, whatever the draws,
    every carved cell of the grid is reached from the start (0,0) by a path
    of 4-adjacent carved cells; so is every room of the room map. *)
Theorem generated_dungeon_connected (draws rest : list nat) (d : dungeon) :
  generate_dungeon draws = Done (d, rest) →
  start d = (0, 0)
  ∧ (∀ p, carved (grid d) p → reachable (grid d) p)
  ∧ (∀ p room, (p, room) ∈ rooms d → reachable (grid d) p).
Proof.
  intros Hgen.
  destruct (generate_dungeon_keys _ _ _ Hgen) as [Hstart Hkeys].
  destruct (generate_dungeon_grid _ _ _ Hgen) as (_ & Hconn & _).
  split_and!; [done..|].
  intros p room Hin. apply Hconn, Hkeys.
  unfold dict_keys. by apply (list_elem_of_fmap_2 fst) in Hin.
Qed.

(** C3, as the code has it: whatever the draws, no room of a dungeon
    returned by [generate_dungeon] holds both an enemy and an item; items
    go only to rooms that were not chosen for enemies. *)
Theorem generated_room_enemy_or_item
    (draws rest : list nat) (d : dungeon) (p : pos) (room : Room.t) :
  generate_dungeon draws = Done (d, rest) →
  (p, room) ∈ rooms d →
  Room.enemy room = None ∨ Room.item room = None.
Proof.
  intros (enemies & items & Hdisj & He & Hi)%generate_dungeon_areas Hin.
  destruct (Room.enemy room) as [e|] eqn:Henemy; [|by left].
  destruct (Room.item room) as [it|] eqn:Hitem; [|by right].
  exfalso. apply (Hdisj p).
  - eapply He; [done|]. by rewrite Henemy.
  - eapply Hi; [done|]. by rewrite Hitem.
Qed.

(** C3 as stated fails: no list of draws makes [generate_dungeon] return
    a dungeon with a room that holds both an enemy and an item. *)
Lemma generated_room_with_both_refuted :
  ¬ ∃ (draws rest : list nat) (d : dungeon) (p : pos) (room : Room.t),
      generate_dungeon draws = Done (d, rest)
      ∧ (p, room) ∈ rooms d
      ∧ is_Some (Room.enemy room) ∧ is_Some (Room.item room).
Proof.
  intros (draws & rest & d & p & room & Hgen & Hin & Henemy & Hitem).
  apply generate_dungeon_areas in Hgen as (enemies & items & Hdisj & He & Hi).
  apply (Hdisj p); [by eapply He|by eapply Hi].
Qed.

(** ** States the game reaches

    Every state the program gets to, from [generate_dungeon] through any
    commands, has a well-formed grid and only catalog items in its rooms. *)

Lemma getitem_elem {A : Type} (l : list A) (i : Z) (x : A) :
  getitem l i = Done x → x ∈ l.
Proof.
  unfold getitem. destruct (norm_index _ _) as [k|]; [|done].
  destruct (l !! k) as [y|] eqn:Hy; [|done].
  intros [= <-]. by eapply list_elem_of_lookup_2.
Qed.

Lemma catalog_items_setitem (rs : list (pos * Room.t)) (k : pos) (v : Room.t) :
  catalog_items rs →
  (∀ it, Room.item v = Some it → it ∈ ITEMS) →
  catalog_items (dict_setitem rs k v).
Proof.
  intros Hrs Hv p room it [Hin|[-> ->]]%dict_setitem_elem Hit.
  - by eapply Hrs.
  - by apply Hv.
Qed.

Lemma catalog_items_update (rs rs' : list (pos * Room.t)) (k : pos)
    (f : Room.t → Room.t) :
  dict_update rs k f = Done rs' →
  (∀ v it, Room.item (f v) = Some it → Room.item v = Some it ∨ it ∈ ITEMS) →
  catalog_items rs → catalog_items rs'.
Proof.
  intros Hup Hf Hrs p room it Hin Hit.
  destruct (dict_update_elem _ _ _ _ _ _ Hup Hin) as [Hin'|[-> (v & Hv & ->)]].
  - by eapply Hrs.
  - destruct (Hf v it Hit) as [Hold|?]; [by eapply Hrs|done].
Qed.

Lemma place_enemies_catalog (targets : list pos) (rs rs' : list (pos * Room.t))
    (draws rest : list nat) :
  place_enemies targets rs draws = Done (rs', rest) →
  catalog_items rs → catalog_items rs'.
Proof.
  unfold place_enemies. intros Hrun Hrs.
  refine (for_each_invariant
            (λ st : list (pos * Room.t) * list nat, catalog_items st.1)
            _ _ (rs, draws) (rs', rest) _ Hrun Hrs).
  intros k [rs1 d1] [rs2 d2] _ Hstep Hrs1. cbn [fst] in *.
  inv_binds Hstep. injection Hstep as <- <-.
  eapply catalog_items_update; [done| |done]. intros v it Hit. by left.
Qed.

Lemma place_items_catalog (item_pool : list Item.t) (targets : list pos)
    (rs rs' : list (pos * Room.t)) :
  place_items item_pool targets rs = Done rs' →
  item_pool ⊆ ITEMS →
  catalog_items rs → catalog_items rs'.
Proof.
  unfold place_items. intros Hrun Hpool Hrs.
  refine (for_each_invariant catalog_items _ _ rs rs' _ Hrun Hrs).
  intros [i k] rs1 rs2 _ Hstep Hrs1. inv_bind Hstep.
  destruct (decide _); [done|]. apply getitem_elem, Hpool in Ha.
  eapply catalog_items_update; [done| |done].
  intros v it [= <-]. by right.
Qed.

Lemma describe_rooms_catalog (rs rs' : list (pos * Room.t)) (draws rest : list nat) :
  describe_rooms rs draws = Done (rs', rest) →
  catalog_items rs → catalog_items rs'.
Proof.
  unfold describe_rooms. intros Hrun Hrs.
  refine (for_each_invariant
            (λ st : list (pos * Room.t) * list nat, catalog_items st.1)
            _ _ (rs, draws) (rs', rest) _ Hrun Hrs).
  intros k [rs1 d1] [rs2 d2] _ Hstep Hrs1. cbn [fst] in *.
  inv_bind Hstep. unfold dict_getitem in Ha.
  destruct (dict_lookup rs1 k) as [v|] eqn:Hv; [|done]. injection Ha as <-.
  apply dict_lookup_elem in Hv.
  destruct (decide _); [|by injection Hstep as <- <-].
  inv_binds Hstep. injection Hstep as <- <-.
  apply catalog_items_setitem; [done|]. intros it Hit. by eapply Hrs1.
Qed.

Lemma generate_dungeon_catalog (draws rest : list nat) (d : dungeon) :
  generate_dungeon draws = Done (d, rest) → catalog_items (rooms d).
Proof.
  unfold generate_dungeon. intros Hgen.
  split_bind Hgen as g1 Hset. split_bind Hgen as [[g2 path] draws0] Hwalk.
  split_bind Hgen as [g3 draws1] Hextra.
  split_bind Hgen as rs0 Hbuild. apply build_rooms_spec in Hbuild as [_ Hnew0].
  assert (catalog_items rs0) as Hrs0.
  { intros p room it Hin Hit. by rewrite (Hnew0 p room Hin) in Hit. }
  split_bind Hgen as rs1 Hup1.
  eapply catalog_items_update in Hup1; [|by left|done].
  split_bind Hgen as rs2 Hup2.
  eapply catalog_items_update in Hup2; [|by left|done].
  split_bind Hgen as rs3 Hup3.
  eapply catalog_items_update in Hup3; [|by left|done].
  split_bind Hgen as [placeable draws2] Hshuf.
  split_bind Hgen as [rs4 draws3] Hen.
  apply place_enemies_catalog in Hen; [|done].
  split_bind Hgen as [remaining draws4] Hshuf2.
  split_bind Hgen as [item_pool draws5] Hpool.
  apply shuffle_Permutation in Hpool.
  split_bind Hgen as rs5 Hit.
  apply place_items_catalog in Hit; [|by intros it; rewrite Hpool|done].
  split_bind Hgen as [rs6 draws6] Hdesc.
  apply describe_rooms_catalog in Hdesc; [|done].
  by injection Hgen as <- <-.
Qed.

Lemma step_keeps_wf (c : main.command) (s s' : state) (draws rest : list nat)
    (moved : bool) (lines : list event) :
  main.step c s draws = Done (moved, s', rest, lines) → wf_state s → wf_state s'.
Proof.
  intros Hstep [Hgrid Hcat]. destruct c; simpl in Hstep; inv_bind Hstep.
  - (* move *)
    destruct a as [[m s1] l1]. injection Hstep as <- <- <- <-.
    unfold main.move in Ha.
    destruct (dict_lookup main.deltas direction) as [[dr dc]|];
      [|by injection Ha as <- <- <-].
    inv_bind Ha. destruct a; simpl in Ha; [|by injection Ha as <- <- <-].
    inv_bind Ha. destruct (Room.enemy a); [by injection Ha as <- <- <-|].
    inv_bind Ha. injection Ha as <- <- <-. split; [done|]. simpl.
    eapply catalog_items_update; [done| |done]. intros v it Hit. by left.
  - (* fight *)
    destruct a as [[s1 d1] l1]. injection Hstep as <- <- <- <-.
    unfold main.fight, dict_getitem in Ha.
    destruct (dict_lookup _ _) as [room|] eqn:Hroom; simpl in Ha; [|done].
    destruct (Room.enemy room); [|by injection Ha as <- <- <-].
    inv_bind Ha. destruct a as [[[[e' p] slain] rest'] lines'].
    injection Ha as <- <- <-. split; [done|]. simpl.
    apply catalog_items_setitem; [done|]. intros it Hit.
    apply dict_lookup_elem in Hroom. by eapply Hcat.
  - (* take *)
    destruct a as [s1 l1]. injection Hstep as <- <- <- <-.
    unfold main.take, dict_getitem in Ha.
    destruct (dict_lookup _ _) as [room|] eqn:Hroom; simpl in Ha; [|done].
    destruct (Room.item room) as [it|]; [|by injection Ha as <- <-].
    destruct (decide _); injection Ha as <- <-; (split; [done|]); simpl;
      by apply catalog_items_setitem.
  - (* use *)
    destruct a as [s1 l1]. injection Hstep as <- <- <- <-.
    unfold main.use in Ha. destruct (decide _); [|by injection Ha as <- <-].
    inv_bind Ha. by injection Ha as <- <-.
Qed.

Lemma run_keeps_wf (cs : list main.command) :
  ∀ (s s' : state) (draws rest : list nat) (lines : list event),
    main.run cs s draws = Done (s', rest, lines) → wf_state s → wf_state s'.
Proof.
  induction cs as [|c cs IH]; simpl; intros s s' draws rest lines Hrun Hwf.
  - by injection Hrun as <- <- <-.
  - destruct (decide _); [|by injection Hrun as <- <- <-].
    inv_bind Hrun. destruct a as [[[moved s1] d1] l1].
    apply step_keeps_wf in Ha; [|done].
    destruct (_ && _).
    + by injection Hrun as <- <- <-.
    + inv_bind Hrun. destruct a as [[s2 d2] l2]. injection Hrun as <- <- <-.
      by eapply IH.
Qed.

(** A game: a dungeon is generated, then commands are run from its start. *)
Lemma game_states_wf (draws rest rest' : list nat) (d : dungeon)
    (cs : list main.command) (s : state) (lines : list event) :
  generate_dungeon draws = Done (d, rest) →
  main.run cs (mk_state d (main.initial_player (start d))) rest
    = Done (s, rest', lines) →
  wf_state s.
Proof.
  intros Hgen Hrun. eapply run_keeps_wf; [done|]. split; simpl.
  - by apply generate_dungeon_grid in Hgen as [? _].
  - by eapply generate_dungeon_catalog.
Qed.

(** ** Loops that cover their list, computations that raise nothing *)

Lemma for_each_covers {A S : Type} (Q : A → S → Prop) (xs : list A)
    (body : A → S → outcome S) :
  (∀ x s1 s2, x ∈ xs → body x s1 = Done s2 → Q x s2) →
  (∀ x y s1 s2, x ∈ xs → body x s1 = Done s2 → Q y s1 → Q y s2) →
  ∀ s s', for_each xs body s = Done s' → ∀ x, x ∈ xs → Q x s'.
Proof.
  induction xs as [|x0 xs IH]; intros Hnew Hkeep s s' Hrun x Hx.
  - by apply elem_of_nil in Hx.
  - simpl in Hrun. inv_bind Hrun.
    assert (∀ y, Q y a → Q y s') as Hlater.
    { intros y Hy.
      refine (for_each_invariant (Q y) xs body a s' _ Hrun Hy).
      intros z s1 s2 Hz. apply Hkeep. by apply list_elem_of_further. }
    apply elem_of_cons in Hx as [->|Hx].
    + apply Hlater. eapply Hnew; [apply list_elem_of_here|done].
    + eapply IH; [| |done..].
      * intros z s1 s2 Hz. apply Hnew. by apply list_elem_of_further.
      * intros z y s1 s2 Hz. apply Hkeep. by apply list_elem_of_further.
Qed.

Lemma safe_bind {A B : Type} (m : outcome A) (f : A → outcome B) :
  safe m → (∀ a, m = Done a → safe (f a)) → safe (bind m f).
Proof. destruct m as [a| |]; simpl; [|done..]. intros _ Hf. by apply Hf. Qed.

Lemma safe_for_each {A S : Type} (P : S → Prop) (xs : list A)
    (body : A → S → outcome S) :
  (∀ x s, x ∈ xs → P s → safe (body x s)) →
  (∀ x s1 s2, x ∈ xs → body x s1 = Done s2 → P s1 → P s2) →
  ∀ s, P s → safe (for_each xs body s).
Proof.
  induction xs as [|x xs IH]; intros Hsafe Hkeep s Hs; simpl; [done|].
  apply safe_bind.
  - apply Hsafe; [apply list_elem_of_here|done].
  - intros s1 Hs1. apply IH.
    + intros y s2 Hy. apply Hsafe. by apply list_elem_of_further.
    + intros y s2 s3 Hy. apply Hkeep. by apply list_elem_of_further.
    + eapply Hkeep; [apply list_elem_of_here|done..].
Qed.

Lemma dict_elem_lookup {K V : Type} `{EqDecision K} (d : list (K * V)) (k : K) (v : V) :
  NoDup (dict_keys d) → (k, v) ∈ d → dict_lookup d k = Some v.
Proof.
  induction d as [|[k' v'] d IH]; simpl; intros Hnd Hin.
  - by apply elem_of_nil in Hin.
  - apply NoDup_cons in Hnd as [Hk' Hnd].
    apply elem_of_cons in Hin as [[= -> ->]|Hin].
    + by rewrite decide_True.
    + destruct (decide (k = k')) as [->|Hne]; [|by apply IH].
      exfalso. apply Hk'. by apply (list_elem_of_fmap_2 fst) in Hin.
Qed.

Lemma dict_lookup_None_keys {K V : Type} `{EqDecision K} (d : list (K * V)) (k : K) :
  dict_lookup d k = None ↔ k ∉ dict_keys d.
Proof.
  induction d as [|[k' v'] d IH]; simpl.
  - split; [intros _; apply not_elem_of_nil|done].
  - change (dict_keys ((k', v') :: d)) with (k' :: dict_keys d).
    rewrite not_elem_of_cons. destruct (decide (k = k')) as [->|Hne].
    + split; [done|]. by intros [? _].
    + rewrite IH. split; [by split|by intros [_ ?]].
Qed.

Lemma dict_keys_lookup {K V : Type} `{EqDecision K} (d : list (K * V)) (k : K) :
  k ∈ dict_keys d → ∃ v, dict_lookup d k = Some v.
Proof.
  intros Hin. destruct (dict_lookup d k) as [v|] eqn:Hv; [by exists v|].
  by apply dict_lookup_None_keys in Hv.
Qed.

Lemma dict_keys_setitem_mono {K V : Type} `{EqDecision K}
    (d : list (K * V)) (k q : K) (v : V) :
  q ∈ dict_keys d → q ∈ dict_keys (dict_setitem d k v).
Proof.
  intros Hq. destruct (decide (k ∈ dict_keys d)) as [Hk|Hk].
  - by rewrite dict_keys_setitem_old.
  - rewrite dict_keys_setitem_new by done. apply elem_of_app. by left.
Qed.

Lemma dict_keys_setitem_here {K V : Type} `{EqDecision K}
    (d : list (K * V)) (k : K) (v : V) :
  k ∈ dict_keys (dict_setitem d k v).
Proof. eapply dict_lookup_Some_keys, dict_lookup_setitem_eq. Qed.

(** ** The room map and the grid *)

(** Every carved cell gets a room. *)
Lemma build_rooms_complete (g : list (list bool)) (rs : list (pos * Room.t)) :
  build_rooms g = Done rs → ∀ p, carved g p → p ∈ dict_keys rs.
Proof.
  unfold build_rooms. intros Hrun [r c] [[Hr Hc]%in_bounds_spec Hget].
  simpl in Hr, Hc, Hget.
  assert (r ∈ seqZ 0 HEIGHT) as Hrin by (apply elem_of_seqZ; lia).
  assert (c ∈ seqZ 0 WIDTH) as Hcin by (apply elem_of_seqZ; lia).
  refine (for_each_covers
            (λ r (rs : list (pos * Room.t)),
               ∀ c, c ∈ seqZ 0 WIDTH → grid_get g r c = Done true →
                    (r, c) ∈ dict_keys rs)
            _ _ _ _ [] rs Hrun r Hrin c Hcin Hget).
  - intros r1 rs1 rs2 _ Hrow.
    refine (for_each_covers
              (λ c (rs : list (pos * Room.t)),
                 grid_get g r1 c = Done true → (r1, c) ∈ dict_keys rs)
              _ _ _ _ rs1 rs2 Hrow).
    + intros c1 rs3 rs4 _ Hcell Hc1. rewrite Hc1 in Hcell. simpl in Hcell.
      injection Hcell as <-. apply dict_keys_setitem_here.
    + intros c1 c2 rs3 rs4 _ Hcell Hold Hc2. inv_bind Hcell.
      destruct a; injection Hcell as <-; [|by apply Hold].
      by apply dict_keys_setitem_mono, Hold.
  - intros r1 r2 rs1 rs2 _ Hrow Hold c2 Hc2 Hget2.
    refine (for_each_invariant
              (λ rs : list (pos * Room.t), (r2, c2) ∈ dict_keys rs)
              _ _ rs1 rs2 _ Hrow (Hold c2 Hc2 Hget2)).
    intros c1 rs3 rs4 _ Hcell Hin. inv_bind Hcell.
    destruct a; injection Hcell as <-; [|done].
    by apply dict_keys_setitem_mono.
Qed.

(** ** What each stage of the generator does to a room *)

Lemma choice_elem {A : Type} (seq : list A) (draws rest : list nat) (x : A) :
  choice seq draws = Done (x, rest) → x ∈ seq.
Proof.
  unfold choice. destruct seq as [|y seq]; [done|].
  destruct draws as [|d draws]; [done|]. intros Hc. inv_bind Hc.
  injection Hc as <- <-. by eapply choice_with_elem.
Qed.

Lemma dict_update_lookup {K V : Type} `{EqDecision K}
    (d d' : list (K * V)) (k : K) (f : V → V) :
  dict_update d k f = Done d' →
  ∃ v, dict_lookup d k = Some v
       ∧ ∀ q, dict_lookup d' q = if decide (k = q) then Some (f v) else dict_lookup d q.
Proof.
  intros (v & Hv & ->)%dict_update_Done. exists v. split; [done|].
  intros q. apply dict_lookup_setitem.
Qed.

Lemma place_enemies_lookup (targets : list pos) :
  ∀ (rs rs' : list (pos * Room.t)) (draws rest : list nat),
    place_enemies targets rs draws = Done (rs', rest) →
    ∀ p, (p ∉ targets → dict_lookup rs' p = dict_lookup rs p)
         ∧ (p ∈ targets →
            ∃ room e, dict_lookup rs p = Some room ∧ e ∈ ENEMIES
                      ∧ dict_lookup rs' p = Some (Room.set_enemy (Some e) room)).
Proof.
  unfold place_enemies.
  induction targets as [|k ts IH]; intros rs rs' draws rest Hrun p; cbn [for_each] in Hrun.
  - injection Hrun as <- <-. split; [done|]. by intros ?%elem_of_nil.
  - inv_bind Hrun. destruct a as [rs1 draws1].
    inv_bind Ha. destruct a as [e draws2]. apply choice_elem in Ha0.
    inv_bind Ha. injection Ha as <- <-.
    apply dict_update_lookup in Ha1 as (v & Hv & Hrs1).
    destruct (IH _ _ _ _ Hrun p) as [Hout Hin]. split.
    + intros [Hne Hts]%not_elem_of_cons.
      rewrite Hout, Hrs1 by done. by rewrite decide_False.
    + intros Hp. destruct (decide (p ∈ ts)) as [Hts|Hts].
      * destruct (Hin Hts) as (room1 & e1 & Hroom1 & He1 & Hfin).
        rewrite Hrs1 in Hroom1. destruct (decide (k = p)) as [->|Hne].
        -- injection Hroom1 as <-. by exists v, e1.
        -- by exists room1, e1.
      * apply elem_of_cons in Hp as [->|?]; [|done].
        exists v, e. rewrite Hout, Hrs1 by done. by rewrite decide_True.
Qed.

Lemma imap_pair_snd_gen {A : Type} (l : list A) (g : nat → nat) :
  (imap (λ i x, (g i, x)) l).*2 = l.
Proof.
  revert g. induction l as [|x l IH]; intros g; simpl; [done|].
  f_equal. apply (IH (g ∘ S)).
Qed.

Lemma imap_pair_snd {A : Type} (l : list A) : (imap (λ i x, (i, x)) l).*2 = l.
Proof. exact (imap_pair_snd_gen l id). Qed.

Lemma place_items_lookup (item_pool : list Item.t) (targets : list pos)
    (rs rs' : list (pos * Room.t)) :
  place_items item_pool targets rs = Done rs' →
  ∀ p, (p ∉ targets → dict_lookup rs' p = dict_lookup rs p)
       ∧ (p ∈ targets →
          ∃ room it, dict_lookup rs p = Some room ∧ it ∈ item_pool
                     ∧ dict_lookup rs' p = Some (Room.set_item (Some it) room)).
Proof.
  unfold place_items. intros Hrun p.
  rewrite <- (imap_pair_snd targets).
  revert rs Hrun. generalize (imap (λ i p, (i, p)) targets) as ips.
  induction ips as [|[i k] ips IH]; intros rs Hrun; cbn [for_each] in Hrun.
  - injection Hrun as <-. split; [done|]. by intros ?%elem_of_nil.
  - inv_bind Hrun. rename a into rs1. inv_bind Ha. rename a into it.
    assert (it ∈ item_pool) as Hit.
    { destruct (decide _); [done|]. by eapply getitem_elem. }
    apply dict_update_lookup in Ha as (v & Hv & Hrs1).
    destruct (IH _ Hrun) as [Hout Hin].
    change (((i, k) :: ips).*2) with (k :: ips.*2). split.
    + intros [Hne Hts]%not_elem_of_cons.
      rewrite Hout, Hrs1 by done. by rewrite decide_False.
    + intros Hp. destruct (decide (p ∈ ips.*2)) as [Hts|Hts].
      * destruct (Hin Hts) as (room1 & it1 & Hroom1 & Hit1 & Hfin).
        rewrite Hrs1 in Hroom1. destruct (decide (k = p)) as [->|Hne].
        -- injection Hroom1 as <-. by exists v, it1.
        -- by exists room1, it1.
      * apply elem_of_cons in Hp as [->|?]; [|done].
        exists v, it. rewrite Hout, Hrs1 by done. by rewrite decide_True.
Qed.

Lemma descs_not_empty (text : string) : text ∈ descs → text ≠ "".
Proof.
  unfold descs. intros Hin.
  repeat (apply elem_of_cons in Hin as [->|Hin]; [done|]).
  by apply elem_of_nil in Hin.
Qed.

(** A room with a description keeps it; a room without one gets one of the
    flavour texts. *)
Lemma describe_rooms_lookup (rs rs' : list (pos * Room.t)) (draws rest : list nat) :
  describe_rooms rs draws = Done (rs', rest) →
  ∀ p room, dict_lookup rs p = Some room →
    if decide (Room.desc room = "")
    then ∃ text, text ∈ descs ∧ dict_lookup rs' p = Some (Room.set_desc text room)
    else dict_lookup rs' p = Some room.
Proof.
  unfold describe_rooms. intros Hrun p room Hroom.
  assert (p ∈ dict_keys rs) as Hp by (by eapply dict_lookup_Some_keys).
  revert Hrun Hp room Hroom. generalize (dict_keys rs) as ks. intros ks.
  assert (∀ (ks : list pos) (rs : list (pos * Room.t)) (draws : list nat),
            for_each ks
              (λ p '(rooms, draws),
                 let* room := dict_getitem rooms p in
                 if decide (Room.desc room = "") then
                   let* '(text, draws) := choice descs draws in
                   Done (dict_setitem rooms p (Room.set_desc text room), draws)
                 else Done (rooms, draws))
              (rs, draws) = Done (rs', rest) →
            ∀ room, dict_lookup rs p = Some room →
              (p ∉ ks ∨ Room.desc room ≠ "" → dict_lookup rs' p = Some room)
              ∧ (p ∈ ks → Room.desc room = "" →
                 ∃ text, text ∈ descs
                         ∧ dict_lookup rs' p = Some (Room.set_desc text room)))
    as Hgen.
  { clear. induction ks as [|k ks IH]; intros rs draws Hrun room Hroom;
      cbn [for_each] in Hrun.
    - injection Hrun as <- <-. split; [done|]. by intros ?%elem_of_nil.
    - inv_bind Hrun. destruct a as [rs1 draws1]. inv_bind Ha. rename a into v.
      unfold dict_getitem in Ha0.
      destruct (dict_lookup rs k) as [v'|] eqn:Hv; [|done]. injection Ha0 as ->.
      destruct (decide (Room.desc v = "")) as [Hempty|Hfull].
      + inv_bind Ha. destruct a as [text draws2]. injection Ha as <- <-.
        apply choice_elem in Ha0. pose proof (descs_not_empty _ Ha0) as Htext.
        destruct (decide (k = p)) as [->|Hne].
        * assert (room = v) as -> by congruence.
          destruct (IH _ _ Hrun (Room.set_desc text v)) as [Hkeep _];
            [apply dict_lookup_setitem_eq|].
          split; [intros [Hnin|?]; [|done]; by apply not_elem_of_cons in Hnin as [? _]|].
          intros _ _. exists text. split; [done|]. apply Hkeep. by right.
        * destruct (IH _ _ Hrun room) as [Hkeep Hnew];
            [by rewrite dict_lookup_setitem_ne|].
          split.
          -- intros [[_ Hnin]%not_elem_of_cons|?]; apply Hkeep; [by left|by right].
          -- intros [?|Hin]%elem_of_cons; [done|]. by apply Hnew.
      + injection Ha as <- <-.
        destruct (IH _ _ Hrun room Hroom) as [Hkeep Hnew]. split.
        * intros [[_ Hnin]%not_elem_of_cons|?]; apply Hkeep; [by left|by right].
        * intros [->|Hin]%elem_of_cons; [congruence|]. by apply Hnew. }
  intros Hrun Hp room Hroom. destruct (Hgen ks rs draws Hrun room Hroom) as [Hkeep Hnew].
  destruct (decide (Room.desc room = "")); [by apply Hnew|]. apply Hkeep. by right.
Qed.

(** ** The layout of a generated dungeon *)

(** Names the results of the stages of [generate_dungeon]. *)
Ltac generation_stages Hgen :=
  unfold generate_dungeon in Hgen;
  split_bind Hgen as g1 Hset;
  split_bind Hgen as [[g2 path] draws0] Hwalk;
  split_bind Hgen as [g3 draws1] Hextra;
  split_bind Hgen as rs0 Hbuild;
  split_bind Hgen as rs1 Hup1;
  split_bind Hgen as rs2 Hup2;
  split_bind Hgen as rs3 Hup3;
  split_bind Hgen as [placeable draws2] Hshuf;
  split_bind Hgen as [rs4 draws3] Hen;
  split_bind Hgen as [remaining draws4] Hshuf2;
  split_bind Hgen as [item_pool draws5] Hpool;
  split_bind Hgen as rs5 Hit;
  split_bind Hgen as [rs6 draws6] Hdesc;
  injection Hgen as <- <-.

Lemma filter_all {A : Type} (P : A → Prop) `{∀ x, Decision (P x)} (l : list A) :
  (∀ x, x ∈ l → P x) → filter P l = l.
Proof.
  induction l as [|x l IH]; intros Hall; [done|].
  rewrite filter_cons_True by (apply Hall, list_elem_of_here).
  f_equal. apply IH. intros y Hy. by apply Hall, list_elem_of_further.
Qed.

Lemma filter_two_out {A : Type} `{EqDecision A} (l : list A) (a b : A) :
  NoDup l → a ∈ l → b ∈ l → a ≠ b →
  length l = S (S (length (filter (λ x, x ≠ a ∧ x ≠ b) l))).
Proof.
  intros Hnd Ha Hb Hab.
  apply elem_of_Permutation in Ha as [l1 Hl1].
  assert (b ∈ l1) as Hb1.
  { rewrite Hl1 in Hb. by apply elem_of_cons in Hb as [?|?]. }
  apply elem_of_Permutation in Hb1 as [l2 Hl2].
  rewrite Hl2 in Hl1. rewrite Hl1 in Hnd. rewrite Hl1.
  apply NoDup_cons in Hnd as [Ha' Hnd]. apply NoDup_cons in Hnd as [Hb' Hnd].
  apply not_elem_of_cons in Ha' as [_ Ha'].
  rewrite filter_cons_False by (by intros [? _]).
  rewrite filter_cons_False by (by intros [_ ?]).
  rewrite filter_all; [done|].
  intros x Hx. split; intros ->; done.
Qed.

(** The rooms after the start and the exit have been marked. *)
Lemma marked_rooms_lookup (rs0 rs1 rs2 rs3 : list (pos * Room.t)) :
  (∀ p room, (p, room) ∈ rs0 → room = new_room) →
  dict_update rs0 (0, 0) (Room.set_desc entrance_text) = Done rs1 →
  dict_update rs1 (0, 0) (Room.set_visited true) = Done rs2 →
  dict_update rs2 (HEIGHT - 1, WIDTH - 1) (Room.set_desc exit_text) = Done rs3 →
  ∀ p room, dict_lookup rs3 p = Some room →
    room = Room.mk None None (bool_decide (p = (0, 0)))
             (if decide (p = (HEIGHT - 1, WIDTH - 1)) then exit_text
              else if decide (p = (0, 0)) then entrance_text else "").
Proof.
  intros Hnew (v1 & Hv1 & Hrs1)%dict_update_lookup (v2 & Hv2 & Hrs2)%dict_update_lookup
    (v3 & Hv3 & Hrs3)%dict_update_lookup p room Hroom.
  assert (∀ q r, dict_lookup rs0 q = Some r → r = new_room) as Hnew'.
  { intros q r Hr. eapply Hnew. by apply dict_lookup_elem. }
  rewrite Hrs1, decide_True in Hv2 by done. injection Hv2 as <-.
  apply Hnew' in Hv1 as ->.
  rewrite Hrs2, decide_False, Hrs1, decide_False in Hv3 by done.
  apply Hnew' in Hv3 as ->.
  rewrite Hrs3, Hrs2, Hrs1 in Hroom.
  destruct (decide (p = (HEIGHT - 1, WIDTH - 1))) as [->|Hne3].
  { rewrite decide_True in Hroom by done. injection Hroom as <-.
    by rewrite bool_decide_eq_false_2. }
  rewrite decide_False in Hroom by done.
  destruct (decide (p = (0, 0))) as [->|Hne0].
  { rewrite decide_True in Hroom by done. injection Hroom as <-.
    by rewrite bool_decide_eq_true_2. }
  rewrite !decide_False in Hroom by done. rewrite bool_decide_eq_false_2 by done.
  by apply Hnew' in Hroom.
Qed.

(** Where the enemies and the items are, and what every room looks like. *)
Lemma generate_dungeon_layout (draws rest : list nat) (d : dungeon) :
  generate_dungeon draws = Done (d, rest) →
  ∃ enemies items : list pos,
    NoDup (dict_keys (rooms d))
    ∧ NoDup (enemies ++ items)
    ∧ (∀ p, p ∈ enemies ++ items →
         p ∈ dict_keys (rooms d) ∧ p ≠ (0, 0) ∧ p ≠ (HEIGHT - 1, WIDTH - 1))
    ∧ (let k := (length (rooms d) - 2)%nat in
       length enemies = Nat.min (Nat.max 2 (k / 3)) k
       ∧ length items =
           Nat.min (Nat.max 2 ((k - length enemies) / 2)) (k - length enemies))
    ∧ ∀ p room, dict_lookup (rooms d) p = Some room →
        (if decide (p ∈ enemies)
         then ∃ e, e ∈ ENEMIES ∧ Room.enemy room = Some e
         else Room.enemy room = None)
        ∧ (if decide (p ∈ items)
           then ∃ it, it ∈ ITEMS ∧ Room.item room = Some it
           else Room.item room = None)
        ∧ Room.visited room = bool_decide (p = (0, 0))
        ∧ (if decide (p = (0, 0)) then Room.desc room = entrance_text
           else if decide (p = (HEIGHT - 1, WIDTH - 1)) then Room.desc room = exit_text
           else Room.desc room ∈ descs).
Proof.
  intros Hgen.
  pose proof (generate_dungeon_grid _ _ _ Hgen) as (Hwf & Hconn & Hc0 & Hc1).
  generation_stages Hgen. cbn [grid rooms] in *.
  pose proof (build_rooms_spec _ _ Hbuild) as [Hnd0 Hnew0].
  pose proof (build_rooms_complete _ _ Hbuild) as Hcomp0.
  pose proof (dict_update_keys _ _ _ _ Hup1) as Hk1.
  pose proof (dict_update_keys _ _ _ _ Hup2) as Hk2.
  pose proof (dict_update_keys _ _ _ _ Hup3) as Hk3.
  pose proof (place_enemies_keys _ _ _ _ _ Hen) as Hk4.
  pose proof (place_items_keys _ _ _ _ Hit) as Hk5.
  pose proof (describe_rooms_keys _ _ _ _ Hdesc) as Hk6.
  assert (dict_keys rs6 = dict_keys rs0) as Hkeys
    by (by rewrite Hk6, Hk5, Hk4, Hk3, Hk2, Hk1).
  apply shuffle_Permutation in Hshuf, Hshuf2, Hpool.
  rewrite Hk3, Hk2, Hk1 in Hshuf.
  set (n_enemies := Nat.max 2 (length placeable / 3)) in *.
  set (n_items := Nat.max 2 (length remaining / 2)) in *.
  assert (NoDup placeable) as Hndp by (rewrite Hshuf; by apply NoDup_filter).
  assert (length rs6 = S (S (length placeable))) as Hlen.
  { rewrite Hshuf. rewrite <- (length_fmap fst rs6).
    change (fst <$> rs6) with (dict_keys rs6). rewrite Hkeys.
    apply filter_two_out; [done|by apply Hcomp0..|done]. }
  assert (∀ p, p ∈ take n_items remaining → p ∈ drop n_enemies placeable) as Hsub.
  { intros p Hp. rewrite <- Hshuf2. by eapply subseteq_take. }
  assert (∀ p, p ∈ take n_enemies placeable ++ take n_items remaining →
            p ∈ dict_keys rs6 ∧ p ≠ (0, 0) ∧ p ≠ (HEIGHT - 1, WIDTH - 1)) as Harea.
  { intros p Hp.
    assert (p ∈ placeable) as Hpl.
    { apply elem_of_app in Hp as [Hp|Hp%Hsub].
      - by eapply subseteq_take.
      - by eapply subseteq_drop. }
    rewrite Hshuf in Hpl. apply list_elem_of_filter in Hpl as [[? ?] Hpl].
    by rewrite Hkeys. }
  exists (take n_enemies placeable), (take n_items remaining).
  split_and!.
  - by rewrite Hkeys.
  - apply NoDup_app. split_and!.
    + rewrite <- (take_drop n_enemies placeable) in Hndp.
      by apply NoDup_app in Hndp as (? & _ & _).
    + intros p Hp Hp'%Hsub.
      rewrite <- (take_drop n_enemies placeable) in Hndp.
      apply NoDup_app in Hndp as (_ & Hdisj & _). by eapply Hdisj.
    + eapply sublist_NoDup; [|apply sublist_take].
      rewrite Hshuf2. rewrite <- (take_drop n_enemies placeable) in Hndp.
      by apply NoDup_app in Hndp as (_ & _ & ?).
  - exact Harea.
  - assert (length rs6 - 2 = length placeable)%nat as Hk by lia.
    rewrite Hk, length_take. done.
  - assert (length rs6 - 2 = length placeable)%nat as Hk by lia.
    rewrite Hk, !length_take.
    assert (length remaining = length placeable - n_enemies)%nat as Hrem
      by (by rewrite Hshuf2, length_drop).
    subst n_items. rewrite Hrem. clearbody n_enemies.
    replace (length placeable - n_enemies `min` length placeable)%nat
      with (length placeable - n_enemies)%nat by lia.
    done.
  - intros p room6 Hroom6.
    assert (p ∈ dict_keys rs3) as Hp3.
    { rewrite <- Hk4, <- Hk5, <- Hk6. by eapply dict_lookup_Some_keys. }
    apply dict_keys_lookup in Hp3 as [room3 Hroom3].
    pose proof (marked_rooms_lookup _ _ _ _ Hnew0 Hup1 Hup2 Hup3 _ _ Hroom3) as Hmark.
    destruct (place_enemies_lookup _ _ _ _ _ Hen p) as [Hen_out Hen_in].
    destruct (place_items_lookup _ _ _ _ Hit p) as [Hit_out Hit_in].
    assert (∃ room5, dict_lookup rs5 p = Some room5
              ∧ (if decide (p ∈ take n_enemies placeable)
                 then ∃ e, e ∈ ENEMIES ∧ Room.enemy room5 = Some e
                 else Room.enemy room5 = None)
              ∧ (if decide (p ∈ take n_items remaining)
                 then ∃ it, it ∈ ITEMS ∧ Room.item room5 = Some it
                 else Room.item room5 = None)
              ∧ Room.visited room5 = Room.visited room3
              ∧ Room.desc room5 = Room.desc room3)
      as (room5 & Hroom5 & Henemy & Hitem & Hvis & Hdsc).
    { assert (∃ room4, dict_lookup rs4 p = Some room4
                ∧ (if decide (p ∈ take n_enemies placeable)
                   then ∃ e, e ∈ ENEMIES ∧ Room.enemy room4 = Some e
                   else Room.enemy room4 = None)
                ∧ Room.item room4 = None
                ∧ Room.visited room4 = Room.visited room3
                ∧ Room.desc room4 = Room.desc room3)
        as (room4 & Hroom4 & Henemy & Hitem & Hvis & Hdsc).
      { destruct (decide (p ∈ take n_enemies placeable)) as [HE|HE].
        - destruct (Hen_in HE) as (r & e & Hr & He & Hfin).
          assert (r = room3) as -> by congruence.
          eexists. split; [done|]. rewrite Hmark.
          split_and!; [by exists e|done..].
        - exists room3. rewrite Hen_out by done. split; [done|]. by rewrite Hmark. }
      destruct (decide (p ∈ take n_items remaining)) as [HI|HI].
      - destruct (Hit_in HI) as (r & it & Hr & Hit' & Hfin).
        assert (r = room4) as -> by congruence.
        eexists. split; [done|]. split_and!; [done| |done..].
        exists it. split; [by rewrite <- Hpool|done].
      - exists room4. by rewrite Hit_out. }
    pose proof (describe_rooms_lookup _ _ _ _ Hdesc _ _ Hroom5) as Hfin.
    rewrite Hdsc, Hmark in Hfin. cbn [Room.desc] in Hfin.
    rewrite Hmark in Hvis, Hdsc. cbn [Room.visited Room.desc] in Hvis, Hdsc.
    destruct (decide (p = (0, 0))) as [->|Hne0].
    { rewrite decide_False in Hfin by done.
      assert (room6 = room5) as -> by congruence.
      rewrite decide_False in Hdsc by done. done. }
    destruct (decide (p = (HEIGHT - 1, WIDTH - 1))) as [->|Hne1].
    { rewrite decide_False in Hfin by done.
      by assert (room6 = room5) as -> by congruence. }
    rewrite decide_True in Hfin by done.
    destruct Hfin as (text & Htext & Hfin).
    assert (room6 = Room.set_desc text room5) as -> by congruence.
    done.
Qed.

(** ** Rooms and cells of a generated dungeon *)

Lemma generate_dungeon_complete (draws rest : list nat) (d : dungeon) :
  generate_dungeon draws = Done (d, rest) →
  ∀ p, carved (grid d) p → p ∈ dict_keys (rooms d).
Proof.
  intros Hgen p. generation_stages Hgen. cbn [grid rooms].
  erewrite describe_rooms_keys, place_items_keys, place_enemies_keys by done.
  erewrite !dict_update_keys by done. by eapply build_rooms_complete.
Qed.

(** X1: the room map of a generated dungeon has one room for every carved
    cell of the grid and no others, each position once. *)
Theorem generated_rooms_are_carved_cells (draws rest : list nat) (d : dungeon) :
  generate_dungeon draws = Done (d, rest) →
  NoDup (dict_keys (rooms d))
  ∧ ∀ p, p ∈ dict_keys (rooms d) ↔ carved (grid d) p.
Proof.
  intros Hgen.
  destruct (generate_dungeon_keys _ _ _ Hgen) as [_ Hkc].
  destruct (generate_dungeon_layout _ _ _ Hgen) as (_ & _ & Hnd & _).
  split; [done|]. intros p. split; [apply Hkc|].
  by eapply generate_dungeon_complete.
Qed.

(** On the way from (0,0) to a reachable cell, every anti-diagonal
    [r + c = k] in between holds a carved cell. *)
Lemma reachable_diagonals (g : list (list bool)) (p : pos) :
  reachable g p →
  ∀ k, 0 ≤ k ≤ p.1 + p.2 → ∃ q, carved g q ∧ q.1 + q.2 = k.
Proof.
  induction 1 as [H0|p q Hp IH Hadj Hq]; intros k Hk; simpl in Hk.
  - exists (0, 0). split; [done|]. simpl. lia.
  - destruct (decide (k ≤ p.1 + p.2)) as [Hle|Hgt]; [apply IH; lia|].
    exists q. split; [done|]. unfold adjacent in Hadj. lia.
Qed.

Lemma carved_cells_on_diagonals (g : list (list bool)) (n : nat) :
  reachable g (HEIGHT - 1, WIDTH - 1) → (n ≤ 11)%nat →
  ∃ l : list pos,
    length l = n ∧ NoDup l
    ∧ ∀ q, q ∈ l → carved g q ∧ q.1 + q.2 < Z.of_nat n.
Proof.
  intros Hexit. induction n as [|n IH]; intros Hn.
  - exists []. split_and!; [done|apply NoDup_nil_2|]. by intros q ?%elem_of_nil.
  - destruct IH as (l & Hlen & Hnd & Hl); [lia|].
    destruct (reachable_diagonals g _ Hexit (Z.of_nat n)) as (q & Hq & Hsum).
    { unfold HEIGHT, WIDTH. simpl. lia. }
    exists (q :: l). split_and!.
    + simpl. by rewrite Hlen.
    + apply NoDup_cons. split; [|done]. intros Hin. apply Hl in Hin. lia.
    + intros x [->|Hx]%elem_of_cons; [split; [done|lia]|].
      apply Hl in Hx as [? ?]. split; [done|lia].
Qed.

Lemma generate_dungeon_room_count (draws rest : list nat) (d : dungeon) :
  generate_dungeon draws = Done (d, rest) → (11 ≤ length (rooms d))%nat.
Proof.
  intros Hgen.
  destruct (generate_dungeon_grid _ _ _ Hgen) as (_ & Hconn & _ & Hexit).
  destruct (carved_cells_on_diagonals (grid d) 11) as (l & Hlen & Hndl & Hl);
    [by apply Hconn|done|].
  rewrite <- Hlen, <- (length_fmap fst (rooms d)).
  apply submseteq_length, NoDup_submseteq; [done|].
  intros q Hq. eapply generate_dungeon_complete; [done|]. by apply Hl.
Qed.

(** X2: a generated dungeon has at least 11 rooms, the fewest a path of
    adjacent cells from (0,0) to (4,6) can have, and at most the 35 cells
    of the grid. *)
Theorem generated_dungeon_room_bounds (draws rest : list nat) (d : dungeon) :
  generate_dungeon draws = Done (d, rest) →
  (11 ≤ length (rooms d) ≤ 35)%nat.
Proof.
  intros Hgen. split; [by eapply generate_dungeon_room_count|].
  destruct (generate_dungeon_keys _ _ _ Hgen) as [_ Hkc].
  destruct (generate_dungeon_layout _ _ _ Hgen) as (_ & _ & Hnd & _).
  rewrite <- (length_fmap fst (rooms d)).
  change 35%nat with (length (r ← seqZ 0 HEIGHT; c ← seqZ 0 WIDTH; [(r, c)])).
  apply submseteq_length, NoDup_submseteq; [done|].
  intros [r c] [[Hr Hc]%in_bounds_spec _]%Hkc. simpl in Hr, Hc.
  apply list_elem_of_bind. exists r. split; [|apply elem_of_seqZ; lia].
  apply list_elem_of_bind. exists c. split; [|apply elem_of_seqZ; lia].
  apply list_elem_of_here.
Qed.

Lemma dict_keys_filter_NoDup {K V : Type} (d : list (K * V))
    (P : K * V → Prop) `{∀ kv, Decision (P kv)} :
  NoDup (dict_keys d) → NoDup (dict_keys (filter P d)).
Proof.
  induction d as [|[k v] d IH]; [done|].
  change (dict_keys ((k, v) :: d)) with (k :: dict_keys d).
  intros [Hk Hnd]%NoDup_cons.
  destruct (decide (P (k, v))) as [HP|HP].
  - rewrite filter_cons_True by done.
    change (dict_keys ((k, v) :: filter P d)) with (k :: dict_keys (filter P d)).
    apply NoDup_cons. split; [|by apply IH].
    intros ([k' v'] & -> & [_ Hin]%list_elem_of_filter)%list_elem_of_fmap.
    apply Hk. by apply (list_elem_of_fmap_2 fst) in Hin.
  - rewrite filter_cons_False by done. by apply IH.
Qed.

Lemma rooms_filter_count (rs : list (pos * Room.t)) (area : list pos)
    (P : pos * Room.t → Prop) `{∀ pr, Decision (P pr)} :
  NoDup (dict_keys rs) → NoDup area →
  (∀ p room, (p, room) ∈ rs → (P (p, room) ↔ p ∈ area)) →
  (∀ p, p ∈ area → p ∈ dict_keys rs) →
  length (filter P rs) = length area.
Proof.
  intros Hnd Hna Hiff Hsub.
  rewrite <- (length_fmap fst (filter P rs)). apply Permutation_length.
  apply NoDup_Permutation; [|done|].
  - by apply dict_keys_filter_NoDup.
  - intros p. rewrite list_elem_of_fmap. split.
    + intros ([q room] & -> & [HP Hin]%list_elem_of_filter). by apply (Hiff q room).
    + intros Hp. destruct (dict_keys_lookup rs p (Hsub p Hp)) as [room Hroom].
      apply dict_lookup_elem in Hroom. exists (p, room). split; [done|].
      apply list_elem_of_filter. split; [|done]. by apply Hiff.
Qed.

(** X3: in a generated dungeon with [k] rooms besides the start and the
    exit, exactly [max(2, k // 3)] rooms hold an enemy and exactly
    [max(2, (k - n_enemies) // 2)] rooms hold an item; both numbers are at
    least 3. *)
Theorem generated_enemy_and_item_counts (draws rest : list nat) (d : dungeon) :
  generate_dungeon draws = Done (d, rest) →
  let k := (length (rooms d) - 2)%nat in
  let n_enemies := Nat.max 2 (k / 3) in
  let n_items := Nat.max 2 ((k - n_enemies) / 2) in
  length (rooms_with_enemy (rooms d)) = n_enemies
  ∧ length (rooms_with_item (rooms d)) = n_items
  ∧ (3 ≤ n_enemies)%nat ∧ (3 ≤ n_items)%nat.
Proof.
  intros Hgen k n_enemies n_items.
  pose proof (generate_dungeon_room_count _ _ _ Hgen) as Hcount.
  destruct (generate_dungeon_layout _ _ _ Hgen)
    as (enemies & items & Hnd & Hnda & Harea & [Hne Hni] & Hrooms).
  fold k in Hne, Hni.
  assert (9 ≤ k)%nat as Hk by (unfold k; lia).
  assert (3 ≤ k / 3)%nat as Hk3 by (apply (Nat.div_le_lower_bound k 3 3); lia).
  assert (k / 3 ≤ k)%nat as Hk3' by (apply Nat.Div0.div_le_upper_bound; lia).
  pose proof (Nat.Div0.mul_div_le k 3) as Hmul.
  assert (n_enemies = (k / 3)%nat) as Hn by (unfold n_enemies; lia).
  assert (length enemies = n_enemies) as Hlen_e by (fold n_enemies in Hne; lia).
  assert (3 ≤ (k - n_enemies) / 2)%nat as Hrem
    by (apply Nat.div_le_lower_bound; lia).
  assert ((k - n_enemies) / 2 ≤ k - n_enemies)%nat as Hrem'
    by (apply Nat.Div0.div_le_upper_bound; lia).
  assert (length items = n_items) as Hlen_i.
  { rewrite Hlen_e in Hni. fold n_items in Hni. unfold n_items in *. lia. }
  apply NoDup_app in Hnda as (Hnde & _ & Hndi).
  split_and!; [| |lia|unfold n_items; lia].
  - rewrite <- Hlen_e. apply rooms_filter_count; [done..| |].
    + intros p room Hin. apply dict_elem_lookup in Hin; [|done].
      destruct (Hrooms p room Hin) as (He & _). simpl.
      destruct (decide (p ∈ enemies)) as [Hp|Hp].
      * destruct He as (e & _ & ->). by split.
      * rewrite He. split; [by intros [? ?]|done].
    + intros p Hp. apply Harea, elem_of_app. by left.
  - rewrite <- Hlen_i. apply rooms_filter_count; [done..| |].
    + intros p room Hin. apply dict_elem_lookup in Hin; [|done].
      destruct (Hrooms p room Hin) as (_ & Hi & _). simpl.
      destruct (decide (p ∈ items)) as [Hp|Hp].
      * destruct Hi as (it & _ & ->). by split.
      * rewrite Hi. split; [by intros [? ?]|done].
    + intros p Hp. apply Harea, elem_of_app. by right.
Qed.

(** X4: every enemy of a generated dungeon is a fresh copy of a catalog
    entry, so it has between 3 and 6 hp and an atk between 1 and 3; every
    item is a catalog entry. *)
Theorem generated_contents_from_catalogs
    (draws rest : list nat) (d : dungeon) (p : pos) (room : Room.t) :
  generate_dungeon draws = Done (d, rest) →
  (p, room) ∈ rooms d →
  (∀ e, Room.enemy room = Some e →
        e ∈ ENEMIES ∧ 3 ≤ Enemy.hp e ≤ 6 ∧ 1 ≤ Enemy.atk e ≤ 3)
  ∧ (∀ it, Room.item room = Some it → it ∈ ITEMS).
Proof.
  intros Hgen Hin.
  destruct (generate_dungeon_layout _ _ _ Hgen)
    as (enemies & items & Hnd & _ & _ & _ & Hrooms).
  apply dict_elem_lookup in Hin; [|done].
  destruct (Hrooms p room Hin) as (He & Hi & _). split.
  - intros e Hroom. destruct (decide (p ∈ enemies)); [|congruence].
    destruct He as (e' & He' & Heq). assert (e' = e) as -> by congruence.
    split; [done|]. unfold ENEMIES in He'.
    repeat (apply elem_of_cons in He' as [->|He']; [simpl; lia|]).
    by apply elem_of_nil in He'.
  - intros it Hroom. destruct (decide (p ∈ items)); [|congruence].
    destruct Hi as (it' & Hit' & Heq). congruence.
Qed.

(** X5: a generated dungeon has a start room at (0,0) and an exit room at
    (4,6), both without enemy and item; the start room is the only visited
    one; the start and the exit carry their fixed descriptions and every
    other room one of the ten flavour texts. *)
Theorem generated_start_and_exit (draws rest : list nat) (d : dungeon) :
  generate_dungeon draws = Done (d, rest) →
  start d = (0, 0) ∧ exit_pos d = (4, 6)
  ∧ (∃ room, dict_lookup (rooms d) (0, 0) = Some room)
  ∧ (∃ room, dict_lookup (rooms d) (4, 6) = Some room)
  ∧ ∀ p room, (p, room) ∈ rooms d →
      Room.visited room = bool_decide (p = (0, 0))
      ∧ (p = (0, 0) ∨ p = (4, 6) → Room.enemy room = None ∧ Room.item room = None)
      ∧ (p = (0, 0) → Room.desc room = entrance_text)
      ∧ (p = (4, 6) → Room.desc room = exit_text)
      ∧ (p ≠ (0, 0) → p ≠ (4, 6) → Room.desc room ∈ descs).
Proof.
  intros Hgen.
  destruct (generate_dungeon_grid _ _ _ Hgen) as (_ & _ & Hc0 & Hc1).
  pose proof (generate_dungeon_complete _ _ _ Hgen) as Hcomp.
  destruct (generate_dungeon_layout _ _ _ Hgen)
    as (enemies & items & Hnd & _ & Harea & _ & Hrooms).
  split_and!.
  - by destruct (generate_dungeon_keys _ _ _ Hgen).
  - generation_stages Hgen. done.
  - by apply dict_keys_lookup, Hcomp.
  - by apply dict_keys_lookup, Hcomp.
  - intros p room Hin. apply dict_elem_lookup in Hin; [|done].
    destruct (Hrooms p room Hin) as (He & Hi & Hv & Hd).
    change (HEIGHT - 1, WIDTH - 1) with (4, 6) in *.
    split_and!; [done| | | |].
    + intros Hp.
      assert (p ∉ enemies ++ items) as [Hpe Hpi]%not_elem_of_app.
      { intros (_ & ? & ?)%Harea. by destruct Hp. }
      rewrite decide_False in He by done. by rewrite decide_False in Hi.
    + intros ->. by rewrite decide_True in Hd.
    + intros ->. by rewrite decide_False, decide_True in Hd.
    + intros ? ?. by rewrite !decide_False in Hd.
Qed.

(** ** The generator raises no exception *)

Lemma choice_with_Done {A : Type} (seq : list A) (d : nat) :
  seq ≠ [] → ∃ x, choice_with seq d = Done x.
Proof.
  intros Hne. unfold choice_with, randbelow.
  destruct (lookup_lt_is_Some_2 seq (d mod length seq)%nat) as [x Hx].
  { apply Nat.mod_upper_bound. by destruct seq. }
  exists x. by rewrite Hx.
Qed.

Lemma choice_safe {A : Type} (seq : list A) (draws : list nat) :
  seq ≠ [] → safe (choice seq draws).
Proof.
  intros Hne. unfold choice. destruct seq as [|y seq]; [done|].
  destruct draws as [|d draws]; [done|].
  destruct (choice_with_Done (y :: seq) d Hne) as [x ->]. done.
Qed.

Lemma randint_safe (a b : Z) (draws : list nat) : a ≤ b → safe (randint a b draws).
Proof.
  intros Hab. unfold randint. rewrite decide_True by lia.
  destruct draws as [|d draws]; [done|].
  destruct (randint_with_range a b d Hab) as (x & -> & _). done.
Qed.

Lemma shuffle_safe {A : Type} (x : list A) (draws : list nat) :
  safe (shuffle x draws).
Proof.
  unfold shuffle. apply (safe_for_each (λ _, True)); [|done..].
  intros i [y dy] _ _. by destruct dy.
Qed.

Lemma dict_update_present {K V : Type} `{EqDecision K}
    (d : list (K * V)) (k : K) (f : V → V) :
  k ∈ dict_keys d → ∃ d', dict_update d k f = Done d'.
Proof.
  intros [v Hv]%dict_keys_lookup. unfold dict_update, dict_getitem.
  rewrite Hv. by eexists.
Qed.

Lemma walk_dirs_not_empty (r c : Z) :
  in_bounds r c = true → (r, c) ≠ (HEIGHT - 1, WIDTH - 1) →
  weighted_dirs (walk_dirs r c) ≠ [].
Proof.
  intros [Hr Hc]%in_bounds_spec Hne. unfold walk_dirs, weighted_dirs.
  destruct (decide (r < HEIGHT - 1)); [done|].
  destruct (decide (c < WIDTH - 1)); [done|].
  exfalso. apply Hne. f_equal; lia.
Qed.

Lemma carve_path_safe (draws : list nat) :
  ∀ (g : list (list bool)) (path : list pos) (r c : Z),
    wf_grid g → in_bounds r c = true → safe (carve_path draws g path r c).
Proof.
  induction draws as [|d draws IH]; intros g path r c Hwf Hin; simpl;
    destruct (decide ((r, c) = (HEIGHT - 1, WIDTH - 1))) as [Hend|Hgo]; try done.
  destruct (choice_with_Done _ d (walk_dirs_not_empty r c Hin Hgo)) as [[dr dc] Hm].
  rewrite Hm. cbn [bind].
  apply choice_with_elem, weighted_dirs_elem in Hm.
  destruct (walk_dirs_spec r c dr dc Hin Hm) as [Hin' _].
  destruct (grid_get_in_bounds g _ _ Hwf Hin') as [b ->]. cbn [bind].
  destruct b; [by apply IH|].
  destruct (grid_set_spec g (r + dr) (c + dc) true Hwf Hin') as (g' & -> & Hwf' & _).
  cbn [bind]. by apply IH.
Qed.

Lemma attach_room_safe (dirs : list (Z * Z)) (g : list (list bool)) (rr rc : Z) :
  wf_grid g → in_bounds rr rc = true →
  safe (attach_room g rr rc dirs)
  ∧ ∀ g', attach_room g rr rc dirs = Done g' → wf_grid g'.
Proof.
  intros Hwf Hin. induction dirs as [|[dr dc] dirs [IHs IHw]]; simpl.
  - split; [done|]. by intros g' [= <-].
  - destruct (in_bounds (rr + dr) (rc + dc)) eqn:Hn; [|done].
    destruct (grid_get_in_bounds g _ _ Hwf Hn) as [b ->]. cbn [bind].
    destruct b; [|done].
    destruct (grid_set_spec g rr rc true Hwf Hin) as (g1 & -> & Hwf1 & _).
    split; [done|]. by intros g' [= <-].
Qed.

Lemma extra_room_safe (g : list (list bool)) (draws : list nat) :
  wf_grid g →
  safe (extra_room (g, draws))
  ∧ ∀ g' rest, extra_room (g, draws) = Done (g', rest) → wf_grid g'.
Proof.
  intros Hwf. unfold extra_room. split.
  - apply safe_bind; [by apply randint_safe|]. intros [rr d1] Hrr.
    apply safe_bind; [by apply randint_safe|]. intros [rc d2] Hrc.
    apply randint_range in Hrr, Hrc.
    assert (in_bounds rr rc = true) as Hin
      by (apply in_bounds_spec; unfold HEIGHT, WIDTH in *; lia).
    destruct (grid_get_in_bounds g _ _ Hwf Hin) as [b ->]. cbn [bind].
    destruct b; [done|].
    apply safe_bind; [by apply attach_room_safe|done].
  - intros g' rest Hrun. inv_bind Hrun. destruct a as [rr d1].
    inv_bind Hrun. destruct a as [rc d2]. apply randint_range in Ha, Ha0.
    assert (in_bounds rr rc = true) as Hin
      by (apply in_bounds_spec; unfold HEIGHT, WIDTH in *; lia).
    inv_bind Hrun. destruct a; [by injection Hrun as <- <-|].
    inv_bind Hrun. injection Hrun as <- <-.
    by eapply attach_room_safe.
Qed.

Lemma build_rooms_safe (g : list (list bool)) : wf_grid g → safe (build_rooms g).
Proof.
  intros Hwf. unfold build_rooms.
  apply (safe_for_each (λ _, True)); [|done..]. intros r rs Hr _.
  apply (safe_for_each (λ _, True)); [|done..]. intros c rs1 Hc _.
  apply elem_of_seqZ in Hr, Hc.
  destruct (grid_get_in_bounds g r c Hwf) as [b ->]; [apply in_bounds_spec; lia|].
  cbn [bind]. by destruct b.
Qed.

Lemma place_enemies_safe (targets : list pos) (rs : list (pos * Room.t))
    (draws : list nat) :
  (∀ p, p ∈ targets → p ∈ dict_keys rs) → safe (place_enemies targets rs draws).
Proof.
  intros Hsub. unfold place_enemies.
  apply (safe_for_each
           (λ st : list (pos * Room.t) * list nat, dict_keys st.1 = dict_keys rs));
    [| |done].
  - intros p [rs1 d1] Hp Hk. cbn [fst] in Hk.
    apply safe_bind; [by apply choice_safe|]. intros [e d2] _.
    destruct (dict_update_present rs1 p (Room.set_enemy (Some e))) as [rs2 ->];
      [rewrite Hk; by apply Hsub|done].
  - intros p [rs1 d1] [rs2 d2] _ Hstep Hk. cbn [fst] in *.
    inv_binds Hstep. injection Hstep as <- <-. by erewrite dict_update_keys.
Qed.

Lemma place_items_safe (item_pool : list Item.t) (targets : list pos)
    (rs : list (pos * Room.t)) :
  item_pool ≠ [] → (∀ p, p ∈ targets → p ∈ dict_keys rs) →
  safe (place_items item_pool targets rs).
Proof.
  intros Hpool Hsub. unfold place_items.
  apply (safe_for_each (λ st : list (pos * Room.t), dict_keys st = dict_keys rs));
    [| |done].
  - intros [i p] rs1 Hp Hk.
    apply list_elem_of_lookup in Hp as [j Hj]. rewrite list_lookup_imap in Hj.
    destruct (targets !! j) as [p'|] eqn:Hp'; [|done]. injection Hj as <- <-.
    apply list_elem_of_lookup_2 in Hp'.
    rewrite decide_False by (by destruct item_pool).
    destruct (getitem_nonneg item_pool
                (Z.of_nat j `mod` Z.of_nat (length item_pool))) as (it & _ & ->).
    { apply Z.mod_pos_bound. destruct item_pool; [done|]. simpl. lia. }
    cbn [bind].
    destruct (dict_update_present rs1 p' (Room.set_item (Some it))) as [rs2 ->];
      [rewrite Hk; by apply Hsub|done].
  - intros [i p] rs1 rs2 _ Hstep Hk. inv_bind Hstep. by erewrite dict_update_keys.
Qed.

Lemma describe_rooms_safe (rs : list (pos * Room.t)) (draws : list nat) :
  safe (describe_rooms rs draws).
Proof.
  unfold describe_rooms.
  apply (safe_for_each
           (λ st : list (pos * Room.t) * list nat, dict_keys st.1 = dict_keys rs));
    [| |done].
  - intros p [rs1 d1] Hp Hk. cbn [fst] in Hk. rewrite <- Hk in Hp.
    apply dict_keys_lookup in Hp as [v Hv]. unfold dict_getitem. rewrite Hv.
    cbn [bind]. destruct (decide _); [|done].
    apply safe_bind; [by apply choice_safe|]. by intros [text d2] _.
  - intros p [rs1 d1] [rs2 d2] _ Hstep Hk. cbn [fst] in *.
    inv_bind Hstep. unfold dict_getitem in Ha.
    destruct (dict_lookup rs1 p) as [v|] eqn:Hv; [|done]. injection Ha as <-.
    destruct (decide _); [|by injection Hstep as <- <-].
    inv_binds Hstep. injection Hstep as <- <-.
    rewrite dict_keys_setitem_old; [done|]. by eapply dict_lookup_Some_keys.
Qed.

Lemma generate_dungeon_safe (draws : list nat) : safe (generate_dungeon draws).
Proof.
  unfold generate_dungeon.
  set (g0 := replicate _ _).
  assert (wf_grid g0) as Hwf0.
  { unfold g0. split; [by rewrite length_replicate|].
    apply Forall_replicate. by rewrite length_replicate. }
  destruct (grid_set_spec g0 0 0 true Hwf0) as (g1 & Hset & Hwf1 & Hget1); [done|].
  rewrite Hset. cbn [bind].
  assert (carved g1 (0, 0)) as Hstart.
  { split; [done|]. rewrite Hget1 by done. by rewrite decide_True. }
  assert (connected g1) as Hconn1.
  { intros [r c] [Hin Hrc]. cbn [fst snd] in Hin, Hrc. rewrite Hget1 in Hrc by done.
    destruct (decide ((r, c) = (0, 0))) as [[= -> ->]|Hne]; [by apply reach_start|].
    exfalso. apply in_bounds_spec in Hin.
    assert (grid_get g0 r c = Done false) as Hfalse; [|congruence].
    eapply grid_get_lookup; [lia..| |].
    - apply lookup_replicate_2. unfold HEIGHT in *. lia.
    - apply lookup_replicate_2. unfold WIDTH in *. lia. }
  apply safe_bind; [by apply carve_path_safe|]. intros [[g2 path] draws0] Hwalk.
  apply carve_path_connected in Hwalk as (Hwf2 & Hconn2 & Hsub2 & Hexit2); [|done..].
  apply safe_bind.
  { apply (safe_for_each (λ st : list (list bool) * list nat, wf_grid st.1));
      [| |done].
    - intros _ [ga da] _ Hga. by apply extra_room_safe.
    - intros _ [ga da] [gb db] _ Hstep Hga. by eapply extra_room_safe. }
  intros [g3 draws1] Hextra.
  assert (wf_grid g3 ∧ connected g3 ∧ ∀ x, carved g2 x → carved g3 x)
    as (Hwf3 & Hconn3 & Hsub3).
  { refine (for_each_invariant
              (λ st, wf_grid st.1 ∧ connected st.1 ∧ ∀ x, carved g2 x → carved st.1 x)
              _ _ (g2, draws0) (g3, draws1) _ Hextra _); [|done].
    intros _ [ga da] [gb db] _ Hstep (Hwfa & Hconna & Hsuba). cbn [fst snd] in *.
    apply extra_room_connected in Hstep as (? & ? & Hsubb); [|done..].
    split_and!; [done..|]. intros x Hx. by apply Hsubb, Hsuba. }
  apply safe_bind; [by apply build_rooms_safe|]. intros rs0 Hbuild.
  pose proof (build_rooms_complete _ _ Hbuild) as Hcomp.
  assert ((0, 0) ∈ dict_keys rs0) as Hk0 by (by apply Hcomp, Hsub3, Hsub2).
  assert ((HEIGHT - 1, WIDTH - 1) ∈ dict_keys rs0) as Hk1 by (by apply Hcomp, Hsub3).
  destruct (dict_update_present rs0 (0, 0)
              (Room.set_desc "The dungeon entrance. Faint light behind you."))
    as [rs1 Hup1]; [done|].
  rewrite Hup1. cbn [bind]. apply dict_update_keys in Hup1.
  destruct (dict_update_present rs1 (0, 0) (Room.set_visited true))
    as [rs2 Hup2]; [by rewrite Hup1|].
  rewrite Hup2. cbn [bind]. apply dict_update_keys in Hup2.
  destruct (dict_update_present rs2 (HEIGHT - 1, WIDTH - 1)
              (Room.set_desc "A grand door with golden runes — the EXIT!"))
    as [rs3 Hup3]; [by rewrite Hup2, Hup1|].
  rewrite Hup3. cbn [bind]. apply dict_update_keys in Hup3.
  apply safe_bind; [apply shuffle_safe|]. intros [placeable draws2] Hshuf.
  apply shuffle_Permutation in Hshuf.
  assert (∀ p, p ∈ placeable → p ∈ dict_keys rs3) as Hpl.
  { intros p Hp. rewrite Hshuf in Hp. by apply list_elem_of_filter in Hp as [_ ?]. }
  apply safe_bind.
  { apply place_enemies_safe. intros p Hp. by eapply Hpl, subseteq_take. }
  intros [rs4 draws3] Hen. apply place_enemies_keys in Hen.
  apply safe_bind; [apply shuffle_safe|]. intros [remaining draws4] Hshuf2.
  apply shuffle_Permutation in Hshuf2.
  apply safe_bind; [apply shuffle_safe|]. intros [item_pool draws5] Hpool.
  apply shuffle_Permutation in Hpool.
  apply safe_bind.
  { apply place_items_safe.
    - intros ->. by apply Permutation_nil_l in Hpool.
    - intros p Hp%subseteq_take. rewrite Hshuf2 in Hp. rewrite Hen.
      by eapply Hpl, subseteq_drop. }
  intros rs5 Hit.
  apply safe_bind; [apply describe_rooms_safe|]. by intros [rs6 draws6] _.
Qed.

Lemma safe_not_Raised {A : Type} (o : outcome A) (e : exn) : safe o → o ≠ Raised e.
Proof. by destruct o. Qed.

(** X6: whatever the draws, [generate_dungeon] raises no exception: every
    list index and every dict key it uses exists.  It returns a dungeon or
    is still drawing when the draws end. *)
Theorem generate_dungeon_raises_nothing (draws : list nat) (e : exn) :
  generate_dungeon draws ≠ Raised e.
Proof. apply safe_not_Raised, generate_dungeon_safe. Qed.

(** ** More about movement *)

Lemma destination_adjacent (s : state) (direction : string) (q : pos) :
  destination s direction = Some q → adjacent (Player.pos (player s)) q.
Proof.
  unfold destination, main.deltas, adjacent. simpl.
  repeat (destruct (decide (direction = _)) as [_|_];
          [intros [= <-]; simpl; lia|]).
  done.
Qed.

(** What a move that returns True has done. *)
Lemma move_true_inv (s s' : state) (direction : string) (lines : list event) :
  main.move direction s = Done (true, s', lines) →
  ∃ q room room_q,
    destination s direction = Some q
    ∧ carved (grid (world s)) q
    ∧ current_room s = Some room ∧ Room.enemy room = None
    ∧ dict_lookup (rooms (world s)) q = Some room_q
    ∧ s' = mk_state
             (set_rooms (dict_setitem (rooms (world s)) q (Room.set_visited true room_q))
                (world s))
             (Player.set_pos q (player s))
    ∧ lines = [].
Proof.
  unfold main.move, destination, current_room, carved.
  destruct (dict_lookup main.deltas direction) as [[dr dc]|]; [|done].
  set (q := ((Player.pos (player s)).1 + dr, (Player.pos (player s)).2 + dc)).
  intros Hm. split_bind Hm as open Hopen. destruct open; simpl in Hm; [|done].
  destruct (in_bounds _ _) eqn:Hin; [|done].
  split_bind Hm as room Hroom. destruct (Room.enemy room) eqn:He; [done|].
  split_bind Hm as rs Hrs. injection Hm as <- <-.
  apply dict_update_Done in Hrs as (room_q & Hq & ->).
  unfold dict_getitem in Hroom.
  destruct (dict_lookup (rooms (world s)) (Player.pos (player s)))
    as [room0|] eqn:Hroom0; [|done].
  injection Hroom as ->.
  exists q, room, room_q. by split_and!.
Qed.

(** When a move returns True. *)
Lemma move_true_intro (s : state) (direction : string) (q : pos)
    (room room_q : Room.t) :
  destination s direction = Some q →
  carved (grid (world s)) q →
  current_room s = Some room → Room.enemy room = None →
  dict_lookup (rooms (world s)) q = Some room_q →
  main.move direction s =
    Done (true,
          mk_state
            (set_rooms (dict_setitem (rooms (world s)) q (Room.set_visited true room_q))
               (world s))
            (Player.set_pos q (player s)),
          []).
Proof.
  unfold main.move, destination, current_room, carved.
  destruct (dict_lookup main.deltas direction) as [[dr dc]|]; [|done].
  intros [= <-] [Hin Hget] Hroom He Hq.
  simpl in Hin, Hget. rewrite Hin, Hget. simpl.
  unfold dict_getitem, dict_update, dict_getitem. rewrite Hroom. simpl.
  rewrite He, Hq. done.
Qed.

(** X7: [move] returns True exactly when the direction leads to a carved
    cell that has a room and no enemy is in the current room; the player
    then stands on that cell, its room is marked visited, nothing is
    printed, and nothing else changes. *)
Theorem move_true_iff (s s' : state) (direction : string) (lines : list event) :
  main.move direction s = Done (true, s', lines) ↔
  ∃ q room room_q,
    destination s direction = Some q
    ∧ carved (grid (world s)) q
    ∧ current_room s = Some room ∧ Room.enemy room = None
    ∧ dict_lookup (rooms (world s)) q = Some room_q
    ∧ s' = mk_state
             (set_rooms (dict_setitem (rooms (world s)) q (Room.set_visited true room_q))
                (world s))
             (Player.set_pos q (player s))
    ∧ lines = [].
Proof.
  split; [apply move_true_inv|].
  intros (q & room & room_q & Hq & Hc & Hroom & He & Hrq & -> & ->).
  by apply (move_true_intro s direction q room room_q).
Qed.

(** ** More about combat *)

Lemma randint_no_draw {A : Type} (a b : Z) (x : A) :
  (let* _ := randint a b [] in OutOfDraws) ≠ Done x.
Proof. unfold randint. by destruct (decide _). Qed.

(** What the loop of [fight] does to the two fighters and to the draws. *)
Lemma battle_frame (n : nat) :
  ∀ (draws rest : list nat) (e e' : Enemy.t) (p p' : Player.t) (slain : bool)
    (lines : list event),
    (length draws ≤ n)%nat →
    main.battle draws e p = Done (e', p', slain, rest, lines) →
    Enemy.name e' = Enemy.name e ∧ Enemy.atk e' = Enemy.atk e
    ∧ Enemy.hp e' ≤ Enemy.hp e
    ∧ p' = Player.set_hp (Player.hp p') p ∧ Player.hp p' ≤ Player.hp p
    ∧ (∃ used, draws = used ++ rest)
    ∧ (slain = true → Enemy.hp e' ≤ 0 ∧ Player.hp p' > 0)
    ∧ (slain = false → Enemy.hp e > 0 → Player.hp p > 0 →
       Player.hp p' ≤ 0 ∧ 0 < Enemy.hp e' < Enemy.hp e).
Proof.
  induction n as [|n IH]; intros draws rest e e' p p' slain lines Hlen Hb.
  - destruct draws; [|simpl in Hlen; lia]. simpl in Hb.
    destruct (decide _) as [[? ?]|Hend]; [by apply randint_no_draw in Hb|]. injection Hb as <- <- <- <- <-.
    split_and!; try done; [by destruct p|by exists []|intros _ ? ?; lia].
  - destruct draws as [|d draws]; simpl in Hb.
    { destruct (decide _) as [[? ?]|Hend]; [by apply randint_no_draw in Hb|]. injection Hb as <- <- <- <- <-.
      split_and!; try done; [by destruct p|by exists []|intros _ ? ?; lia]. }
    destruct (decide _) as [[He0 Hp0]|Hend].
    2: { injection Hb as <- <- <- <- <-.
         split_and!; try done; [by destruct p|by exists []|intros _ ? ?; lia]. }
    split_bind Hb as dmg Hdmg0.
    assert (1 ≤ dmg) as Hdmg.
    { unfold randint_with in Hdmg0. destruct (decide _); [|done].
      injection Hdmg0 as <-. lia. }
    destruct (decide (Enemy.hp e - dmg ≤ 0)) as [Hdead|Hlive].
    { injection Hb as <- <- <- <- <-. simpl in *.
      split_and!; try done; [lia|by destruct p|by exists [d]]. }
    destruct draws as [|d' draws]; [by apply randint_no_draw in Hb|].
    split_bind Hb as edmg Hedmg0.
    assert (1 ≤ edmg) as Hedmg.
    { unfold randint_with in Hedmg0. destruct (decide _); [|done].
      injection Hedmg0 as <-. lia. }
    destruct (decide (Player.hp p - edmg ≤ 0)) as [Hfell|Hup].
    { injection Hb as <- <- <- <- <-. simpl in *.
      split_and!; try done; [lia|lia|by exists [d; d']|intros _ _ _; lia]. }
    split_bind Hb as [[[[e1 p1] slain1] rest1] lines1] Hrec.
    injection Hb as <- <- <- <- <-.
    apply IH in Hrec as (Hname & Hatk & Hhp & Hp1 & Hhp1 & [used Hused] & Hs & Hns);
      [|simpl in Hlen; lia].
    simpl in *. split_and!; try done; try lia.
    + exists (d :: d' :: used). by rewrite Hused.
    + intros Hf _ _. destruct Hns as [? ?]; [done|lia..].
Qed.


(** [fight] in a room with an enemy is the loop, stored back. *)
Lemma fight_battle (s s' : state) (draws rest : list nat) (lines : list event)
    (room : Room.t) (e : Enemy.t) :
  current_room s = Some room →
  Room.enemy room = Some e →
  main.fight s draws = Done (s', rest, lines) →
  ∃ e' p' slain battle_lines,
    main.battle draws e (player s) = Done (e', p', slain, rest, battle_lines)
    ∧ s' = mk_state
             (set_rooms
                (dict_setitem (rooms (world s)) (Player.pos (player s))
                   (Room.set_enemy (if slain then None else Some e') room))
                (world s))
             p'.
Proof.
  unfold current_room, main.fight, dict_getitem. intros -> He. simpl. rewrite He.
  intros Hf. split_bind Hf as [[[[e' p'] slain] rest'] battle_lines] Hb.
  injection Hf as <- <- <-. by exists e', p', slain, battle_lines.
Qed.



(** ** What a command does to the state *)

Lemma battle_idle (draws : list nat) (e : Enemy.t) (p : Player.t) :
  ¬ (Enemy.hp e > 0 ∧ Player.hp p > 0) →
  main.battle draws e p = Done (e, p, false, draws, []).
Proof. intros Hend. destruct draws; simpl; by rewrite decide_False. Qed.

Lemma move_effect (direction : string) (s s' : state) (moved : bool)
    (lines : list event) :
  main.move direction s = Done (moved, s', lines) → effect s s'.
Proof.
  intros Hm. destruct moved.
  - pose proof Hm as Hm'.
    apply move_true_inv in Hm as (q & room & room_q & Hq & Hc & Hroom & He & Hrq & -> & _).
    eapply eff_move; [done|by eapply destination_adjacent|done..].
  - unfold main.move in Hm.
    destruct (dict_lookup main.deltas direction) as [[dr dc]|];
      [|injection Hm as <- _; constructor].
    split_bind Hm as open Hopen. destruct open; simpl in Hm;
      [|injection Hm as <- _; constructor].
    split_bind Hm as room Hroom.
    destruct (Room.enemy room); [injection Hm as <- _; constructor|].
    split_bind Hm as rs Hrs. done.
Qed.

Lemma fight_effect (s s' : state) (draws rest : list nat) (lines : list event) :
  main.fight s draws = Done (s', rest, lines) → effect s s'.
Proof.
  intros Hf. destruct (current_room s) as [room|] eqn:Hroom.
  2: { unfold main.fight, dict_getitem in Hf. unfold current_room in Hroom.
       by rewrite Hroom in Hf. }
  destruct (Room.enemy room) as [e|] eqn:He.
  2: { unfold main.fight, dict_getitem in Hf. unfold current_room in Hroom.
       rewrite Hroom in Hf. simpl in Hf. rewrite He in Hf.
       injection Hf as <- _ _. constructor. }
  destruct (fight_battle _ _ _ _ _ _ _ Hroom He Hf)
    as (e' & p' & slain & battle_lines & Hb & ->).
  pose proof Hb as Hb'.
  apply (battle_frame (length draws)) in Hb
    as (Hname & Hatk & Hhp & Hp' & Hhp' & _ & _ & Hns); [|done].
  rewrite Hp'. eapply eff_fight; try done.
  intros -> He0. destruct (decide (Player.hp (player s) > 0)) as [Hp0|Hp0].
  - destruct Hns as [_ ?]; [done..|]. lia.
  - rewrite battle_idle in Hb' by (intros [_ ?]; done).
    injection Hb' as <- _ _ _. done.
Qed.

Lemma take_effect (s s' : state) (lines : list event) :
  main.take s = Done (s', lines) → effect s s'.
Proof.
  unfold main.take. intros Ht. split_bind Ht as room Hroom.
  unfold dict_getitem in Hroom.
  destruct (dict_lookup _ _) as [room0|] eqn:Hroom0; [|done]. injection Hroom as ->.
  destruct (Room.item room) as [it|] eqn:Hit; [|injection Ht as <- _; constructor].
  assert (s' = mk_state
                 (set_rooms
                    (dict_setitem (rooms (world s)) (Player.pos (player s))
                       (Room.set_item None room))
                    (world s))
                 (take_player it (player s))) as ->.
  { unfold take_player. destruct (decide (Item.name it = "potion"));
      by injection Ht as <- _. }
  by eapply eff_take.
Qed.

Lemma use_effect (item_name : string) (s s' : state) (lines : list event) :
  main.use item_name s = Done (s', lines) → effect s s'.
Proof.
  unfold main.use. intros Hu.
  destruct (decide _) as [[_ Hin]|_]; [|injection Hu as <- _; constructor].
  split_bind Hu as inv' Hinv. injection Hu as <- _. simpl in Hinv.
  destruct (list_remove_first "potion" _ Hin) as (l1 & l2 & Hl & _ & Hrem).
  rewrite Hrem in Hinv. injection Hinv as <-.
  by apply eff_use.
Qed.

Lemma step_effect (c : main.command) (s s' : state) (draws rest : list nat)
    (moved : bool) (lines : list event) :
  main.step c s draws = Done (moved, s', rest, lines) → effect s s'.
Proof.
  destruct c; simpl; intros Hs.
  - split_bind Hs as [[m s1] l1] Hm. injection Hs as _ <- _ _.
    by eapply move_effect.
  - split_bind Hs as [[s1 d1] l1] Hf. injection Hs as _ <- _ _.
    by eapply fight_effect.
  - split_bind Hs as [s1 l1] Ht. injection Hs as _ <- _ _.
    by eapply take_effect.
  - split_bind Hs as [s1 l1] Hu. injection Hs as _ <- _ _.
    by eapply use_effect.
Qed.

(** ** What a game keeps true *)

Lemma take_player_stats (it : Item.t) (p : Player.t) :
  it ∈ ITEMS →
  Player.pos (take_player it p) = Player.pos p
  ∧ Player.inv (take_player it p) = Player.inv p ++ [Item.name it]
  ∧ Player.atk p ≤ Player.atk (take_player it p)
  ∧ Player.max_hp p ≤ Player.max_hp (take_player it p)
  ∧ Player.max_hp (take_player it p) - Player.hp (take_player it p)
    = Player.max_hp p - Player.hp p.
Proof.
  unfold ITEMS, take_player. intros Hin.
  repeat (apply elem_of_cons in Hin as [->|Hin]; [simpl; split_and!; (done || lia)|]).
  by apply elem_of_nil in Hin.
Qed.

Lemma effect_keeps_playable (s s' : state) :
  effect s s' → playable s → playable s'.
Proof.
  intros Heff (Hwf & Hkeys & Hpos & Hhp & Hatk & Hen).
  destruct Hwf as [Hgrid Hcat].
  destruct Heff as [|q room room_q Hq Hadj Hroom He Hrq
                    |room e e' hp' slain Hroom He Hname Hat Hle Hlive Hhp'
                    |room it Hroom Hit
                    |l1 l2 Hinv].
  - done.
  - split_and!; simpl; try done.
    + split; [done|]. apply catalog_items_setitem; [done|].
      intros it Hit. eapply Hcat; [by apply dict_lookup_elem|done].
    + intros p. rewrite dict_keys_setitem_old; [done|].
      by eapply dict_lookup_Some_keys.
    + intros p rm en [Hin|[-> ->]]%dict_setitem_elem Hrm; [by eapply Hen|].
      eapply Hen; [by apply dict_lookup_elem|done].
  - unfold current_room in Hroom.
    pose proof (dict_lookup_elem _ _ _ Hroom) as Hin0.
    split_and!; simpl; try done; try lia.
    + split; [done|]. apply catalog_items_setitem; [done|].
      intros it Hit. by eapply Hcat.
    + intros p. rewrite dict_keys_setitem_old; [done|].
      by eapply dict_lookup_Some_keys.
    + intros p rm en [Hin|[-> ->]]%dict_setitem_elem Hrm; [by eapply Hen|].
      destruct slain; [done|]. simpl in Hrm. injection Hrm as <-.
      destruct (Hen _ _ _ Hin0 He) as [He0 He1]. split; [by apply Hlive|lia].
  - unfold current_room in Hroom.
    pose proof (dict_lookup_elem _ _ _ Hroom) as Hin0.
    pose proof (Hcat _ _ _ Hin0 Hit) as Hitems.
    destruct (take_player_stats it (player s) Hitems) as (Hp & _ & Ha & Hm & Hd).
    split_and!; simpl; try done; try lia.
    + split; [done|]. apply catalog_items_setitem; [done|]. done.
    + intros p. rewrite dict_keys_setitem_old; [done|].
      by eapply dict_lookup_Some_keys.
    + by rewrite Hp.
    + intros p rm en [Hin|[-> ->]]%dict_setitem_elem Hrm; [by eapply Hen|].
      by eapply Hen.
  - split_and!; simpl; try done; lia.
Qed.

Lemma room_wears_refl (room : Room.t) : room_wears room room.
Proof.
  split_and!; [done|done|by right|]. intros e' He'. exists e'. split_and!; (done || lia).
Qed.

Lemma wears_refl (s : state) : wears s s.
Proof.
  split_and!; try done; try lia.
  intros q room' Hq. exists room'. split; [done|apply room_wears_refl].
Qed.

Lemma wears_trans (s1 s2 s3 : state) : wears s1 s2 → wears s2 s3 → wears s1 s3.
Proof.
  intros (Hg & Hs & He & Hk & Hr & Hm & Ha) (Hg' & Hs' & He' & Hk' & Hr' & Hm' & Ha').
  split_and!; try congruence; try lia.
  intros q room3 Hq3.
  destruct (Hr' _ _ Hq3) as (room2 & Hq2 & Hd2 & Hv2 & Hi2 & Hen2).
  destruct (Hr _ _ Hq2) as (room1 & Hq1 & Hd1 & Hv1 & Hi1 & Hen1).
  exists room1. split; [done|]. split_and!.
  - congruence.
  - auto.
  - destruct Hi2 as [?|Hi2]; [by left|]. rewrite Hi2. done.
  - intros e3 He3. destruct (Hen2 _ He3) as (e2 & He2 & ? & ? & ?).
    destruct (Hen1 _ He2) as (e1 & He1 & ? & ? & ?).
    exists e1. split_and!; (done || congruence || lia).
Qed.

(** Storing a worn copy of the room at [k] back under [k]. *)
Lemma wears_setitem (s : state) (k : pos) (room room' : Room.t) (p' : Player.t) :
  dict_lookup (rooms (world s)) k = Some room →
  room_wears room room' →
  Player.max_hp (player s) ≤ Player.max_hp p' →
  Player.atk (player s) ≤ Player.atk p' →
  wears s (mk_state (set_rooms (dict_setitem (rooms (world s)) k room') (world s)) p').
Proof.
  intros Hk Hw Hm Ha. split_and!; simpl; try done.
  - apply dict_keys_setitem_old. by eapply dict_lookup_Some_keys.
  - intros q rm. rewrite dict_lookup_setitem.
    destruct (decide (k = q)) as [<-|Hne].
    + intros [= <-]. by exists room.
    + intros Hq. exists rm. split; [done|apply room_wears_refl].
Qed.

Lemma effect_wears (s s' : state) : effect s s' → playable s → wears s s'.
Proof.
  intros Heff (Hwf & Hkeys & Hpos & Hhp & Hatk & Hen).
  destruct Hwf as [Hgrid Hcat].
  destruct Heff as [|q room room_q Hq Hadj Hroom He Hrq
                    |room e e' hp' slain Hroom He Hname Hat Hle Hlive Hhp'
                    |room it Hroom Hit
                    |l1 l2 Hinv].
  - apply wears_refl.
  - apply (wears_setitem s q room_q); simpl; [done| |lia..].
    split_and!; simpl; [done|done|by right|].
    intros e' He'. exists e'. split_and!; (done || lia).
  - apply (wears_setitem s _ room); simpl; [done| |lia..].
    split_and!; simpl; [done|done|by right|].
    intros e1. destruct slain; [done|]. intros [= <-]. by exists e.
  - unfold current_room in Hroom.
    pose proof (Hcat _ _ _ (dict_lookup_elem _ _ _ Hroom) Hit) as Hitems.
    destruct (take_player_stats it (player s) Hitems) as (_ & _ & Ha & Hm & _).
    apply (wears_setitem s _ room); [done| |done..].
    split_and!; simpl; [done|done|by left|].
    intros e' He'. exists e'. split_and!; (done || lia).
  - split_and!; simpl; try done; try lia.
    intros q room' Hq. exists room'. split; [done|apply room_wears_refl].
Qed.

Lemma run_keeps_playable (cs : list main.command) :
  ∀ (s s' : state) (draws rest : list nat) (lines : list event),
    main.run cs s draws = Done (s', rest, lines) →
    playable s → playable s' ∧ wears s s'.
Proof.
  induction cs as [|c cs IH]; simpl; intros s s' draws rest lines Hrun Hs.
  - injection Hrun as <- <- <-. split; [done|apply wears_refl].
  - destruct (decide _); [|injection Hrun as <- <- <-; split; [done|apply wears_refl]].
    split_bind Hrun as [[[moved s1] d1] l1] Hstep.
    apply step_effect in Hstep.
    pose proof (effect_keeps_playable _ _ Hstep Hs) as Hs1.
    pose proof (effect_wears _ _ Hstep Hs) as Hw1.
    destruct (_ && _).
    + by injection Hrun as <- <- <-.
    + split_bind Hrun as [[s2 d2] l2] Hrest. injection Hrun as <- <- <-.
      destruct (IH _ _ _ _ _ Hrest Hs1) as [Hs2 Hw2].
      split; [done|]. by eapply wears_trans.
Qed.

Lemma generated_playable (draws rest : list nat) (d : dungeon) :
  generate_dungeon draws = Done (d, rest) →
  playable (mk_state d (main.initial_player (start d))).
Proof.
  intros Hgen.
  destruct (generate_dungeon_grid _ _ _ Hgen) as (Hgrid & _ & Hstart & _).
  pose proof (generate_dungeon_catalog _ _ _ Hgen) as Hcat.
  pose proof (generate_dungeon_complete _ _ _ Hgen) as Hcomplete.
  destruct (generate_dungeon_layout _ _ _ Hgen)
    as (enemies & items & Hnd & _ & _ & _ & Hrooms).
  destruct (generate_dungeon_keys _ _ _ Hgen) as [Hs Hkeys].
  split_and!; simpl; [done| |by rewrite Hs|done|done|].
  - intros p. split; [apply Hkeys|apply Hcomplete].
  - intros p room e Hin He.
    destruct (Hrooms p room (dict_elem_lookup _ _ _ Hnd Hin)) as (Hen & _).
    destruct (decide (p ∈ enemies)); [|congruence].
    destruct Hen as (en & Hcatalog & Hen). assert (en = e) as -> by congruence.
    unfold ENEMIES in Hcatalog.
    repeat (apply elem_of_cons in Hcatalog as [->|Hcatalog]; [simpl; lia|]).
    by apply elem_of_nil in Hcatalog.
Qed.

(** X10: at every point of a game played in a generated dungeon, the
    player stands on a carved cell that has a room, has at most [max_hp]
    hp and an atk of 2 or more, every enemy still in a room has positive
    hp, and the rooms are exactly the carved cells. *)
Theorem game_stays_playable
    (draws rest draws' rest' : list nat) (d : dungeon) (cs : list main.command)
    (s : state) (lines : list event) :
  generate_dungeon draws = Done (d, rest) →
  main.run cs (mk_state d (main.initial_player (start d))) draws'
    = Done (s, rest', lines) →
  playable s.
Proof.
  intros Hgen Hrun.
  by destruct (run_keeps_playable _ _ _ _ _ _ Hrun (generated_playable _ _ _ Hgen)).
Qed.

(** X11: a game never changes the map and never adds anything to it: the
    grid, the start, the exit, the rooms and their descriptions stay as
    generated; an item is still in its room or gone; an enemy is still in
    its room with no more hp than before, or gone; and the player's max_hp
    and atk never go down. *)
Theorem game_only_wears_down
    (draws rest draws' rest' : list nat) (d : dungeon) (cs : list main.command)
    (s : state) (lines : list event) :
  generate_dungeon draws = Done (d, rest) →
  main.run cs (mk_state d (main.initial_player (start d))) draws'
    = Done (s, rest', lines) →
  wears (mk_state d (main.initial_player (start d))) s.
Proof.
  intros Hgen Hrun.
  by destruct (run_keeps_playable _ _ _ _ _ _ Hrun (generated_playable _ _ _ Hgen)).
Qed.

(** ** No exception in play *)

Lemma safe_Done {A : Type} (a : A) : safe (Done a).
Proof. done. Qed.

Lemma randint_with_safe (a b : Z) (d : nat) : a ≤ b → safe (randint_with a b d).
Proof. intros Hab. by destruct (randint_with_range a b d Hab) as (x & -> & _). Qed.

Lemma battle_safe (n : nat) :
  ∀ (draws : list nat) (e : Enemy.t) (p : Player.t),
    (length draws ≤ n)%nat → 1 ≤ Player.atk p → 1 ≤ Enemy.atk e →
    safe (main.battle draws e p).
Proof.
  induction n as [|n IH]; intros draws e p Hlen Hp He.
  - destruct draws; [|simpl in Hlen; lia]. simpl.
    destruct (decide _); [|done]. unfold randint. by rewrite decide_True by lia.
  - destruct draws as [|d draws]; simpl.
    { destruct (decide _); [|done]. unfold randint. by rewrite decide_True by lia. }
    destruct (decide _); [|done].
    apply safe_bind; [apply randint_with_safe; lia|]. intros dmg _.
    destruct (decide _); [done|].
    destruct draws as [|d' draws].
    { unfold randint. by rewrite decide_True by lia. }
    apply safe_bind; [apply randint_with_safe; simpl; lia|]. intros edmg _.
    destruct (decide _); [done|].
    apply safe_bind; [|by intros [[[[? ?] ?] ?] ?] _].
    apply IH; [simpl in Hlen; lia|done..].
Qed.

Lemma playable_room (s : state) :
  playable s → ∃ room, current_room s = Some room.
Proof.
  intros (_ & Hkeys & Hpos & _). apply dict_keys_lookup. by apply Hkeys.
Qed.

Lemma playable_cell (s : state) (r c : Z) :
  playable s → in_bounds r c = true →
  ∃ b, grid_get (grid (world s)) r c = Done b
       ∧ (b = true → ∃ room, dict_lookup (rooms (world s)) (r, c) = Some room).
Proof.
  intros ([Hgrid _] & Hkeys & _) Hin.
  destruct (grid_get_in_bounds _ r c Hgrid Hin) as [b Hb].
  exists b. split; [done|]. intros ->. apply dict_keys_lookup, Hkeys. by split.
Qed.

Lemma move_safe (direction : string) (s : state) :
  playable s → safe (main.move direction s).
Proof.
  intros Hs. unfold main.move.
  destruct (dict_lookup main.deltas direction) as [[dr dc]|]; [|done].
  destruct (in_bounds _ _) eqn:Hin; [|done].
  destruct (playable_cell _ _ _ Hs Hin) as (b & -> & Hb). simpl.
  destruct b; [|done]. simpl.
  destruct (playable_room s Hs) as [room Hroom]. unfold current_room in Hroom.
  unfold dict_getitem at 1. rewrite Hroom. simpl.
  destruct (Room.enemy room); [done|].
  destruct (Hb eq_refl) as [room_q Hq].
  unfold dict_update, dict_getitem. by rewrite Hq.
Qed.

Lemma fight_safe (s : state) (draws : list nat) :
  playable s → safe (main.fight s draws).
Proof.
  intros Hs. unfold main.fight.
  destruct (playable_room s Hs) as [room Hroom]. unfold current_room in Hroom.
  unfold dict_getitem. rewrite Hroom. simpl.
  destruct (Room.enemy room) as [e|] eqn:He; [|done].
  destruct Hs as (_ & _ & _ & _ & Hatk & Hen).
  destruct (Hen _ _ _ (dict_lookup_elem _ _ _ Hroom) He) as [_ He1].
  apply safe_bind; [|by intros [[[[? ?] ?] ?] ?] _].
  apply (battle_safe (length draws)); [done|lia|done].
Qed.

Lemma take_safe (s : state) : playable s → safe (main.take s).
Proof.
  intros Hs. unfold main.take.
  destruct (playable_room s Hs) as [room Hroom]. unfold current_room in Hroom.
  unfold dict_getitem. rewrite Hroom. simpl.
  destruct (Room.item room); [|done]. by destruct (decide _).
Qed.

Lemma use_safe (item_name : string) (s : state) : safe (main.use item_name s).
Proof.
  unfold main.use. destruct (decide _) as [[_ Hin]|_]; [|done].
  destruct (list_remove_first "potion" _ Hin) as (l1 & l2 & _ & _ & Hrem).
  simpl. by rewrite Hrem.
Qed.

Lemma step_safe (c : main.command) (s : state) (draws : list nat) :
  playable s → safe (main.step c s draws).
Proof.
  intros Hs. destruct c; simpl.
  - apply safe_bind; [by apply move_safe|]. by intros [[? ?] ?] _.
  - apply safe_bind; [by apply fight_safe|]. by intros [[? ?] ?] _.
  - apply safe_bind; [by apply take_safe|]. by intros [? ?] _.
  - apply safe_bind; [by apply use_safe|]. by intros [? ?] _.
Qed.

Lemma run_safe (cs : list main.command) :
  ∀ (s : state) (draws : list nat), playable s → safe (main.run cs s draws).
Proof.
  induction cs as [|c cs IH]; simpl; intros s draws Hs; [done|].
  destruct (decide _); [|done].
  apply safe_bind; [by apply step_safe|].
  intros [[[moved s1] d1] l1] Hstep.
  destruct (_ && _); [done|].
  apply safe_bind; [|by intros [[? ?] ?] _].
  apply IH. eapply effect_keeps_playable; [|done]. by eapply step_effect.
Qed.

(** ** The map *)

Lemma string_length_app (s1 s2 : string) :
  String.length (s1 +:+ s2) = (String.length s1 + String.length s2)%nat.
Proof. induction s1 as [|a s1 IH]; simpl; [done|]. by rewrite IH. Qed.

Lemma for_each_ext {A S : Type} (xs : list A) (body1 body2 : A → S → outcome S) :
  (∀ x s, x ∈ xs → body1 x s = body2 x s) →
  ∀ s, for_each xs body1 s = for_each xs body2 s.
Proof.
  induction xs as [|x xs IH]; intros Heq s; simpl; [done|].
  rewrite Heq by apply list_elem_of_here.
  destruct (body2 x s) as [s1| |]; simpl; [|done..].
  apply IH. intros y s2 Hy. apply Heq. by apply list_elem_of_further.
Qed.

(** A loop whose every round takes the state from [P n] to [P (S n)]. *)
Lemma for_each_count {A S : Type} (P : nat → S → Prop) (xs : list A)
    (body : A → S → outcome S) :
  (∀ x n s1 s2, x ∈ xs → body x s1 = Done s2 → P n s1 → P (Datatypes.S n) s2) →
  ∀ n s s', for_each xs body s = Done s' → P n s → P (n + length xs)%nat s'.
Proof.
  induction xs as [|x xs IH]; simpl; intros Hbody n s s' Hrun Hs.
  - injection Hrun as <-. by rewrite Nat.add_0_r.
  - split_bind Hrun as s1 Hx.
    replace (n + Datatypes.S (length xs))%nat with (Datatypes.S n + length xs)%nat by lia.
    eapply IH; [|done|].
    + intros y m s2 s3 Hy. apply Hbody. by apply list_elem_of_further.
    + eapply Hbody; [apply list_elem_of_here|done..].
Qed.

Lemma cell_text_length (g : list (list bool)) (rs : list (pos * Room.t))
    (player_pos exit_pos : pos) (reveal_all : bool) (r c : Z) (cell : string) :
  cell_text g rs player_pos exit_pos reveal_all r c = Done cell →
  String.length cell = 3%nat.
Proof.
  unfold cell_text. destruct (decide _); [by intros [= <-]|].
  intros Hc. split_bind Hc as open Hopen. destruct open; simpl in Hc; [|by injection Hc as <-].
  split_bind Hc as room Hroom.
  destruct (_ && _); [by injection Hc as <-|].
  destruct (decide _); [by injection Hc as <-|].
  destruct (Room.enemy room); [by injection Hc as <-|].
  destruct (Room.item room); by injection Hc as <-.
Qed.

Lemma right_wall_length (g : list (list bool)) (r c : Z) (wall : string) :
  right_wall g r c = Done wall → String.length wall = 1%nat.
Proof.
  unfold right_wall. destruct (decide _); [|by intros [= <-]].
  intros Hw. split_bind Hw as here Hhere. destruct here; [|by injection Hw as <-].
  split_bind Hw as east Heast. injection Hw as <-. by destruct east.
Qed.

Lemma bottom_wall_length (g : list (list bool)) (r c : Z) (wall : string) :
  bottom_wall g r c = Done wall → String.length wall = 3%nat.
Proof.
  unfold bottom_wall. destruct (decide _); [|by intros [= <-]].
  intros Hw. split_bind Hw as here Hhere. destruct here; [|by injection Hw as <-].
  split_bind Hw as south Hsouth. injection Hw as <-. by destruct south.
Qed.

Lemma map_row_length (g : list (list bool)) (rs : list (pos * Room.t))
    (player_pos exit_pos : pos) (reveal_all : bool) (r : Z) (row_mid row_bot : string) :
  map_row g rs player_pos exit_pos reveal_all r = Done (row_mid, row_bot) →
  String.length row_mid = 29%nat ∧ String.length row_bot = 29%nat.
Proof.
  unfold map_row. intros Hrun.
  set (P := λ (n : nat) (st : string * string),
         String.length st.1 = (1 + 4 * n)%nat ∧ String.length st.2 = (1 + 4 * n)%nat).
  assert (P (0 + length (seqZ 0 WIDTH))%nat (row_mid, row_bot)) as HP.
  { eapply (for_each_count P); [|exact Hrun|done].
    intros c n [m1 b1] [m2 b2] _ Hbody [Hm Hb]. unfold P. cbn [fst snd] in *.
    split_bind Hbody as cell Hcell. split_bind Hbody as right Hright.
    split_bind Hbody as bot Hbot. injection Hbody as <- <-.
    apply cell_text_length in Hcell. apply right_wall_length in Hright.
    apply bottom_wall_length in Hbot.
    rewrite !string_length_app, Hm, Hb, Hcell, Hright, Hbot. simpl. lia. }
  exact HP.
Qed.

(** X12: whenever [draw_map] returns, the text is 13 lines joined by line
    feeds: a top border, two lines for each of the 5 rows, an empty line
    and the legend; each of the 11 lines of the grid has 29 characters. *)
Theorem draw_map_shape (g : list (list bool)) (rs : list (pos * Room.t))
    (player_pos exit_pos : pos) (reveal_all : bool) (text : string) :
  draw_map g rs player_pos exit_pos reveal_all = Done text →
  ∃ border rows,
    text = String.concat newline (border :: rows ++ [""; legend])
    ∧ length rows = 10%nat
    ∧ Forall (λ line, String.length line = 29%nat) (border :: rows).
Proof.
  unfold draw_map, map_lines. intros Hd. split_bind Hd as lines Hlines.
  injection Hd as <-. split_bind Hlines as lines0 Hrows. injection Hlines as <-.
  set (border := "+" +:+ str_repeat "---+" (Z.to_nat WIDTH)) in *.
  set (P := λ (n : nat) (ls : list string),
         ∃ rows, ls = border :: rows ∧ length rows = (2 * n)%nat
                 ∧ Forall (λ line, String.length line = 29%nat) rows).
  assert (P (0 + length (seqZ 0 HEIGHT))%nat lines0) as (rows & -> & Hlen & Hall).
  { eapply (for_each_count P); [|exact Hrows|].
    - intros r n ls1 ls2 _ Hbody (rows & -> & Hlen & Hall).
      split_bind Hbody as [row_mid row_bot] Hrow. injection Hbody as <-.
      apply map_row_length in Hrow as [Hm Hb].
      exists (rows ++ [row_mid; row_bot]). split; [done|].
      split; [rewrite length_app; simpl; lia|].
      apply Forall_app. split; [done|]. by repeat constructor.
    - exists []. split; [done|]. split; [done|constructor]. }
  exists border, rows. split; [done|]. split; [done|].
  constructor; [reflexivity|done].
Qed.

Lemma cell_text_same_known (g : list (list bool)) (rs1 rs2 : list (pos * Room.t))
    (player_pos exit_pos : pos) (r c : Z) :
  same_known rs1 rs2 →
  cell_text g rs1 player_pos exit_pos false r c
  = cell_text g rs2 player_pos exit_pos false r c.
Proof.
  intros Hsame. unfold cell_text. destruct (decide _); [done|].
  destruct (grid_get g r c) as [open| |]; simpl; [|done..].
  destruct open; simpl; [|done].
  specialize (Hsame (r, c)). unfold dict_getitem.
  destruct (dict_lookup rs1 (r, c)) as [room1|], (dict_lookup rs2 (r, c)) as [room2|];
    simpl; try done.
  destruct Hsame as [Hv Hc]. rewrite <- Hv.
  destruct (Room.visited room1); simpl; [|done].
  destruct (decide _); [done|].
  destruct (Hc eq_refl) as [He Hi].
  destruct (Room.enemy room1) as [e1|], (Room.enemy room2) as [e2|]; try done.
  - destruct He as [He _]. by destruct He.
  - destruct He as [_ He]. by destruct He.
  - destruct (Room.item room1) as [i1|], (Room.item room2) as [i2|]; try done.
    + destruct Hi as [Hi _]. by destruct Hi.
    + destruct Hi as [_ Hi]. by destruct Hi.
Qed.

(** X13: without [reveal_all] the map shows nothing of a room that has
    not been visited: for two room maps that differ only in what their
    unvisited rooms hold, [draw_map] returns the same. *)
Theorem map_hides_unvisited (g : list (list bool)) (rs1 rs2 : list (pos * Room.t))
    (player_pos exit_pos : pos) :
  same_known rs1 rs2 →
  draw_map g rs1 player_pos exit_pos false = draw_map g rs2 player_pos exit_pos false.
Proof.
  intros Hsame. unfold draw_map, map_lines.
  rewrite (for_each_ext _ _
    (λ r lines,
       let* '(row_mid, row_bot) := map_row g rs2 player_pos exit_pos false r in
       Done (lines ++ [row_mid; row_bot]))); [done|].
  intros r lines _. unfold map_row.
  rewrite (for_each_ext _ _
    (λ c '(row_mid, row_bot),
       let* cell := cell_text g rs2 player_pos exit_pos false r c in
       let* right := right_wall g r c in
       let* bot := bottom_wall g r c in
       Done (row_mid +:+ (cell +:+ right), row_bot +:+ (bot +:+ "+")))); [done|].
  intros c [row_mid row_bot] _. by rewrite (cell_text_same_known g rs1 rs2).
Qed.

Lemma for_each_Done {A S : Type} (P : S → Prop) (xs : list A)
    (body : A → S → outcome S) :
  (∀ x s, x ∈ xs → P s → ∃ s', body x s = Done s' ∧ P s') →
  ∀ s, P s → ∃ s', for_each xs body s = Done s' ∧ P s'.
Proof.
  induction xs as [|x xs IH]; simpl; intros Hbody s Hs; [by exists s|].
  destruct (Hbody x s (list_elem_of_here _ _) Hs) as (s1 & -> & Hs1). simpl.
  apply IH; [|done]. intros y s2 Hy. apply Hbody. by apply list_elem_of_further.
Qed.

(** The map can be drawn of every well-formed grid whose carved cells have
    a room. *)
Lemma draw_map_Done (g : list (list bool)) (rs : list (pos * Room.t))
    (player_pos exit_pos : pos) (reveal_all : bool) :
  wf_grid g →
  (∀ p, carved g p → ∃ room, dict_lookup rs p = Some room) →
  ∃ text, draw_map g rs player_pos exit_pos reveal_all = Done text.
Proof.
  intros Hgrid Hrooms.
  assert (∀ r c, r ∈ seqZ 0 HEIGHT → c ∈ seqZ 0 WIDTH →
            ∃ b, grid_get g r c = Done b) as Hget.
  { intros r c Hr%elem_of_seqZ Hc%elem_of_seqZ.
    apply grid_get_in_bounds; [done|]. apply in_bounds_spec. lia. }
  assert (∀ r, r ∈ seqZ 0 HEIGHT →
            ∃ rows, map_row g rs player_pos exit_pos reveal_all r = Done rows)
    as Hrow.
  { intros r Hr. unfold map_row.
    destruct (for_each_Done (λ _, True) (seqZ 0 WIDTH)
      (λ c '(row_mid, row_bot),
         let* cell := cell_text g rs player_pos exit_pos reveal_all r c in
         let* right := right_wall g r c in
         let* bot := bottom_wall g r c in
         Done (row_mid +:+ (cell +:+ right), row_bot +:+ (bot +:+ "+")))) with
      (s := ("|", "+")) as (rows & Hrows & _); [|done|by exists rows].
    intros c [row_mid row_bot] Hc _.
    destruct (Hget r c Hr Hc) as [b Hb].
    pose proof Hr as Hr'. pose proof Hc as Hc'.
    apply elem_of_seqZ in Hr', Hc'.
    assert (∃ cell, cell_text g rs player_pos exit_pos reveal_all r c = Done cell)
      as [cell ->].
    { unfold cell_text. destruct (decide _); [by eexists|]. rewrite Hb. simpl.
      destruct b; simpl; [|by eexists].
      destruct (Hrooms (r, c)) as [room Hroom].
      { split; [apply in_bounds_spec; simpl; lia|done]. }
      unfold dict_getitem. rewrite Hroom. simpl.
      destruct (_ && _); [by eexists|]. destruct (decide _); [by eexists|].
      destruct (Room.enemy room); [by eexists|].
      destruct (Room.item room); by eexists. }
    assert (∃ right, right_wall g r c = Done right) as [right ->].
    { unfold right_wall. destruct (decide _); [|by eexists]. rewrite Hb. simpl.
      destruct b; [|by eexists].
      destruct (Hget r (c + 1) Hr) as [east ->]; [apply elem_of_seqZ; lia|].
      by eexists. }
    assert (∃ bot, bottom_wall g r c = Done bot) as [bot ->].
    { unfold bottom_wall. destruct (decide _); [|by eexists]. rewrite Hb. simpl.
      destruct b; [|by eexists].
      destruct (Hget (r + 1) c) as [south ->]; [apply elem_of_seqZ; lia|done|].
      by eexists. }
    simpl. by eexists. }
  unfold draw_map, map_lines.
  destruct (for_each_Done (λ _, True) (seqZ 0 HEIGHT)
    (λ r lines,
       let* '(row_mid, row_bot) :=
         map_row g rs player_pos exit_pos reveal_all r in
       Done (lines ++ [row_mid; row_bot]))) with
    (s := ["+" +:+ str_repeat "---+" (Z.to_nat WIDTH)]) as (lines & -> & _);
    [|done|by eexists].
  intros r lines Hr _. destruct (Hrow r Hr) as [[row_mid row_bot] ->].
  simpl. by eexists.
Qed.

(** ** Looking around *)

Lemma open_carved (g : list (list bool)) (nr nc : Z) (open : bool) :
  (if in_bounds nr nc then grid_get g nr nc else Done false) = Done open →
  open = true ↔ carved g (nr, nc).
Proof.
  unfold carved. simpl. destruct (in_bounds nr nc).
  - intros ->. split; [by intros ->|]. intros [_ [= ->]]. done.
  - intros [= <-]. split; [done|]. by intros [? _].
Qed.

Lemma destination_cases (s : state) (name : string) (q : pos) :
  destination s name = Some q ↔
  let r := (Player.pos (player s)).1 in
  let c := (Player.pos (player s)).2 in
  (name = "north" ∧ q = (r + -1, c + 0)) ∨ (name = "south" ∧ q = (r + 1, c + 0))
  ∨ (name = "east" ∧ q = (r + 0, c + 1)) ∨ (name = "west" ∧ q = (r + 0, c + -1)).
Proof.
  unfold destination, main.deltas. simpl.
  repeat (destruct (decide (name = _)) as [->|?];
          [split; [intros [= <-]; auto 6|intros [[? ->]|[[? ->]|[[? ->]|[? ->]]]]; done]|]).
  split; [done|]. intros [[? _]|[[? _]|[[? _]|[? _]]]]; done.
Qed.

Lemma look_Done (s : state) : playable s → ∃ out, main.look s = Done out.
Proof.
  intros Hs. unfold main.look.
  destruct (playable_room s Hs) as [room Hroom]. unfold current_room in Hroom.
  unfold dict_getitem. rewrite Hroom. simpl.
  destruct Hs as ([Hgrid _] & _).
  assert (∀ nr nc, ∃ open, (if in_bounds nr nc then grid_get (grid (world s)) nr nc
                            else Done false) = Done open) as Hopen.
  { intros nr nc. destruct (in_bounds nr nc) eqn:Hin; [|by eexists].
    by apply grid_get_in_bounds. }
  destruct (Hopen ((Player.pos (player s)).1 + -1) ((Player.pos (player s)).2 + 0))
    as [o1 ->].
  destruct (Hopen ((Player.pos (player s)).1 + 1) ((Player.pos (player s)).2 + 0))
    as [o2 ->].
  destruct (Hopen ((Player.pos (player s)).1 + 0) ((Player.pos (player s)).2 + 1))
    as [o3 ->].
  destruct (Hopen ((Player.pos (player s)).1 + 0) ((Player.pos (player s)).2 + -1))
    as [o4 ->].
  simpl. by eexists.
Qed.

Ltac solve_sublist :=
  first [ apply sublist_nil
        | apply sublist_cons; solve_sublist
        | apply sublist_skip; solve_sublist ].

(** X14: the exits [look] lists are exactly the directions that lead to a
    carved cell, in the order north, south, east, west; when no enemy is
    in the room they are exactly the directions in which [move] succeeds. *)
Theorem look_lists_the_open_exits (s : state) (out : list shown) :
  playable s →
  main.look s = Done out →
  ∃ room dirs,
    current_room s = Some room
    ∧ Looked (Exits dirs) ∈ out
    ∧ dirs `sublist_of` cardinal_names
    ∧ (∀ name, name ∈ dirs ↔
         ∃ q, destination s name = Some q ∧ carved (grid (world s)) q)
    ∧ (Room.enemy room = None →
       ∀ name, name ∈ dirs ↔ ∃ s', main.move name s = Done (true, s', [])).
Proof.
  intros Hs Hl. unfold main.look in Hl.
  split_bind Hl as room Hroom. split_bind Hl as dirs Hdirs. injection Hl as <-.
  assert (current_room s = Some room) as Hcur.
  { unfold current_room. unfold dict_getitem in Hroom.
    destruct (dict_lookup _ _); [|done]. by injection Hroom as ->. }
  cbn [for_each] in Hdirs.
  split_bind Hdirs as d1 H1. split_bind H1 as o1 Ho1. injection H1 as <-.
  split_bind Hdirs as d2 H2. split_bind H2 as o2 Ho2. injection H2 as <-.
  split_bind Hdirs as d3 H3. split_bind H3 as o3 Ho3. injection H3 as <-.
  split_bind Hdirs as d4 H4. split_bind H4 as o4 Ho4. injection H4 as <-.
  injection Hdirs as <-.
  apply open_carved in Ho1, Ho2, Ho3, Ho4.
  set (dirs := if o4 then _ else _).
  assert (∀ name, name ∈ dirs ↔
            (name = "north" ∧ o1 = true) ∨ (name = "south" ∧ o2 = true)
            ∨ (name = "east" ∧ o3 = true) ∨ (name = "west" ∧ o4 = true)) as Hdirs.
  { intros name. unfold dirs. destruct o1, o2, o3, o4; simpl;
      rewrite ?elem_of_cons, ?elem_of_nil; intuition congruence. }
  assert (∀ name, name ∈ dirs ↔
            ∃ q, destination s name = Some q ∧ carved (grid (world s)) q) as Hopen.
  { intros name. rewrite Hdirs, Ho1, Ho2, Ho3, Ho4. split.
    - intros [[-> ?]|[[-> ?]|[[-> ?]|[-> ?]]]]; by eexists.
    - intros (q & Hq & Hc). apply destination_cases in Hq. simpl in Hq.
      destruct Hq as [[-> ->]|[[-> ->]|[[-> ->]|[-> ->]]]]; auto 6. }
  exists room, dirs. split; [done|]. split.
  { do 2 apply list_elem_of_further. rewrite !elem_of_app. right. right.
    apply list_elem_of_here. }
  split.
  { unfold dirs, cardinal_names.
    destruct o1, o2, o3, o4; simpl; solve_sublist. }
  split; [done|]. intros He name. rewrite Hopen. split.
  - intros (q & Hq & Hc).
    destruct Hs as (_ & Hkeys & _).
    destruct (dict_keys_lookup (rooms (world s)) q) as [room_q Hrq]; [by apply Hkeys|].
    eexists. by eapply move_true_intro.
  - intros (s' & Hm). apply move_true_inv in Hm as (q & _ & _ & Hq & Hc & _).
    by exists q.
Qed.

(** ** The main loop *)

Lemma use_argument (cmd : string) :
  String.prefix "use " cmd = true →
  ∃ item_name, cmd = "use " +:+ item_name
               ∧ getitem (split_space cmd) 1 = Done item_name.
Proof.
  intros Hp. apply String.prefix_correct in Hp.
  destruct cmd as [|a1 [|a2 [|a3 [|a4 rest]]]]; simpl in Hp; try discriminate Hp.
  injection Hp as -> -> -> -> _. exists rest. split; [done|]. by vm_compute.
Qed.

Lemma print_map_Done (s : state) (reveal_all : bool) :
  playable s → ∃ out, main.print_map s reveal_all = Done out.
Proof.
  intros ([Hgrid _] & Hkeys & _). unfold main.print_map.
  destruct (draw_map_Done (grid (world s)) (rooms (world s)) (Player.pos (player s))
              (exit_pos (world s)) reveal_all Hgrid) as [text ->].
  - intros p Hp. apply dict_keys_lookup. by apply Hkeys.
  - by eexists.
Qed.

Lemma go_effect (direction : string) (s s' : state) (stop : bool) (out : list shown) :
  main.go direction s = Done (stop, s', out) → effect s s'.
Proof.
  unfold main.go. intros Hg. split_bind Hg as [[moved s1] lines] Hm.
  apply move_effect in Hm. destruct moved; [|by injection Hg as _ <- _].
  split_bind Hg as map Hmap. split_bind Hg as room Hroom.
  destruct (decide _); by injection Hg as _ <- _.
Qed.

Lemma go_safe (direction : string) (s : state) :
  playable s → safe (main.go direction s).
Proof.
  intros Hs. unfold main.go.
  apply safe_bind; [by apply move_safe|]. intros [[moved s1] lines] Hm.
  destruct moved; [|done].
  assert (playable s1) as Hs1.
  { eapply effect_keeps_playable; [|done]. by eapply move_effect. }
  destruct (print_map_Done s1 false Hs1) as [map ->].
  destruct (look_Done s1 Hs1) as [room ->]. simpl. by destruct (decide _).
Qed.

Lemma handle_effect (cmd : string) (s s' : state) (draws rest : list nat)
    (stop : bool) (out : list shown) :
  main.handle cmd s draws = Done (stop, s', rest, out) → effect s s'.
Proof.
  unfold main.handle. intros Hh.
  repeat (destruct (decide _) as [_|_];
          [first [ by injection Hh as _ <- _ _; constructor
                 | (split_bind Hh as [[stop1 s1] out1] Hg; injection Hh as _ <- _ _;
                    by eapply go_effect)
                 | (split_bind Hh as out1 Hp; injection Hh as _ <- _ _; constructor)
                 | (split_bind Hh as [s1 lines] Ht; injection Hh as _ <- _ _;
                    by eapply take_effect)
                 | (split_bind Hh as [[s1 d1] lines] Hf; injection Hh as _ <- _ _;
                    by eapply fight_effect) ]|]).
  destruct (String.prefix "use " cmd).
  { split_bind Hh as item_name Hname. split_bind Hh as [s1 lines] Hu.
    injection Hh as _ <- _ _. by eapply use_effect. }
  repeat (destruct (decide _) as [_|_];
          [by injection Hh as _ <- _ _; constructor|]).
  injection Hh as _ <- _ _. constructor.
Qed.

Lemma handle_safe (cmd : string) (s : state) (draws : list nat) :
  playable s → safe (main.handle cmd s draws).
Proof.
  intros Hs. unfold main.handle.
  repeat (destruct (decide _) as [_|_];
          [first [ done
                 | (apply safe_bind; [by apply go_safe|]; by intros [[? ?] ?] _)
                 | (by destruct (print_map_Done s false Hs) as [? ->])
                 | (by destruct (print_map_Done s true Hs) as [? ->])
                 | (by destruct (look_Done s Hs) as [? ->])
                 | (apply safe_bind; [by apply take_safe|]; by intros [? ?] _)
                 | (apply safe_bind; [by apply fight_safe|]; by intros [[? ?] ?] _) ]|]).
  destruct (String.prefix "use " cmd) eqn:Hp.
  { destruct (use_argument cmd Hp) as (item_name & _ & ->). simpl.
    apply safe_bind; [by apply use_safe|]. by intros [? ?] _. }
  repeat (destruct (decide _) as [_|_]; [done|]). done.
Qed.

Lemma loop_safe (cmds : list string) :
  ∀ (s : state) (draws : list nat), playable s → safe (main.loop cmds s draws).
Proof.
  induction cmds as [|cmd cmds IH]; intros s draws Hs; simpl.
  - by destruct (decide _).
  - destruct (decide _); [|done].
    apply safe_bind; [by apply handle_safe|].
    intros [[[stop s1] d1] out] Hh. destruct stop; [done|].
    apply safe_bind; [|by intros [[? ?] ?] _].
    apply IH. eapply effect_keeps_playable; [|done]. by eapply handle_effect.
Qed.

Lemma loop_keeps_playable (cmds : list string) :
  ∀ (s s' : state) (draws rest : list nat) (out : list shown),
    main.loop cmds s draws = Done (s', rest, out) → playable s → playable s'.
Proof.
  induction cmds as [|cmd cmds IH]; intros s s' draws rest out Hl Hs; simpl in Hl.
  - destruct (decide _); by injection Hl as <- _ _.
  - destruct (decide _); [|by injection Hl as <- _ _].
    split_bind Hl as [[[stop s1] d1] out1] Hh.
    assert (playable s1) as Hs1.
    { eapply effect_keeps_playable; [|done]. by eapply handle_effect. }
    destruct stop; [by injection Hl as <- _ _|].
    split_bind Hl as [[s2 d2] out2] Hrest. injection Hl as <- _ _.
    by eapply IH.
Qed.

(** X15: the whole program raises no exception, whatever is typed and
    whatever the random draws are: generating the dungeon, drawing the
    map, looking, moving, fighting, taking and using never fail with an
    IndexError, KeyError, ValueError or ZeroDivisionError. *)
Theorem main_raises_nothing (cmds : list string) (draws : list nat) (e : exn) :
  main.main cmds draws ≠ Raised e.
Proof.
  apply safe_not_Raised. unfold main.main.
  apply safe_bind; [apply generate_dungeon_safe|].
  intros [d draws1] Hgen.
  pose proof (generated_playable _ _ _ Hgen) as Hs.
  destruct (print_map_Done _ false Hs) as [map ->].
  destruct (look_Done _ Hs) as [room ->]. simpl.
  apply safe_bind; [by apply loop_safe|].
  intros [[s1 d1] out] Hl.
  pose proof (loop_keeps_playable _ _ _ _ _ _ Hl Hs) as Hs1.
  destruct (decide _); [|done].
  by destruct (print_map_Done s1 true Hs1) as [final ->].
Qed.

(** ** The main loop and the commands *)

Lemma run_dead (cs : list main.command) (s : state) (draws : list nat) :
  ¬ Player.hp (player s) > 0 → main.run cs s draws = Done (s, draws, []).
Proof. intros Hdead. destruct cs; simpl; [done|]. by rewrite decide_False. Qed.

Lemma go_step (direction : string) (s s' : state) (draws : list nat) (stop : bool)
    (out : list shown) :
  main.go direction s = Done (stop, s', out) →
  ∃ moved lines,
    main.step (main.Move direction) s draws = Done (moved, s', draws, lines)
    ∧ stop = moved && bool_decide (Player.pos (player s') = exit_pos (world s')).
Proof.
  unfold main.go. simpl. intros Hg. split_bind Hg as [[moved s1] lines] Hm.
  rewrite Hm. simpl. exists moved, lines. destruct moved.
  - split_bind Hg as map Hmap. split_bind Hg as room Hroom.
    destruct (decide _) as [Hexit|Hexit]; injection Hg as <- <- _; split; try done.
    + simpl. by rewrite bool_decide_eq_true_2.
    + simpl. by rewrite bool_decide_eq_false_2.
  - by injection Hg as <- <- _.
Qed.

Lemma elem_of_two (x a b : string) : x ∈ [a; b] → x = a ∨ x = b.
Proof. intros [->|[->|[]%elem_of_nil]%elem_of_cons]%elem_of_cons; auto. Qed.

Ltac not_quit :=
  let H := fresh in
  intros H; apply elem_of_two in H as [H|H]; discriminate H.

(** One pass of the loop's body is "quit", a line that changes nothing, or
    one command of the game. *)
Lemma handle_step (cmd : string) (s s' : state) (draws rest : list nat)
    (stop : bool) (out : list shown) :
  main.handle cmd s draws = Done (stop, s', rest, out) →
  (cmd ∈ ["quit"; "q"] ∧ stop = true ∧ s' = s ∧ rest = draws)
  ∨ ((cmd ∉ ["quit"; "q"]) ∧ command_of cmd = None
     ∧ stop = false ∧ s' = s ∧ rest = draws)
  ∨ ((cmd ∉ ["quit"; "q"])
     ∧ ∃ c moved lines,
         command_of cmd = Some c
         ∧ main.step c s draws = Done (moved, s', rest, lines)
         ∧ stop = moved && bool_decide (Player.pos (player s') = exit_pos (world s'))).
Proof.
  unfold main.handle, command_of. intros Hh.
  destruct (decide (cmd = "")) as [->|_].
  { injection Hh as <- <- <- _. right. left. split; [not_quit|by vm_compute]. }
  destruct (decide (cmd ∈ ["n"; "north"])) as [Hn|Hn].
  { split_bind Hh as [[stop1 s1] out1] Hg. injection Hh as <- <- <- _.
    destruct (go_step _ _ _ draws _ _ Hg) as (moved & lines & Hstep & ->).
    right. right. split; [destruct (elem_of_two _ _ _ Hn) as [->| ->]; not_quit|].
    by exists (main.Move "north"), moved, lines. }
  destruct (decide (cmd ∈ ["s"; "south"])) as [Hs|Hs].
  { split_bind Hh as [[stop1 s1] out1] Hg. injection Hh as <- <- <- _.
    destruct (go_step _ _ _ draws _ _ Hg) as (moved & lines & Hstep & ->).
    right. right. split; [destruct (elem_of_two _ _ _ Hs) as [->| ->]; not_quit|].
    by exists (main.Move "south"), moved, lines. }
  destruct (decide (cmd ∈ ["e"; "east"])) as [He|He].
  { split_bind Hh as [[stop1 s1] out1] Hg. injection Hh as <- <- <- _.
    destruct (go_step _ _ _ draws _ _ Hg) as (moved & lines & Hstep & ->).
    right. right. split; [destruct (elem_of_two _ _ _ He) as [->| ->]; not_quit|].
    by exists (main.Move "east"), moved, lines. }
  destruct (decide (cmd ∈ ["w"; "west"])) as [Hw|Hw].
  { split_bind Hh as [[stop1 s1] out1] Hg. injection Hh as <- <- <- _.
    destruct (go_step _ _ _ draws _ _ Hg) as (moved & lines & Hstep & ->).
    right. right. split; [destruct (elem_of_two _ _ _ Hw) as [->| ->]; not_quit|].
    by exists (main.Move "west"), moved, lines. }
  destruct (decide (cmd = "map")) as [->|_].
  { split_bind Hh as out1 Hp. injection Hh as <- <- <- _. right. left. split; [not_quit|by vm_compute]. }
  destruct (decide (cmd = "revealmap")) as [->|_].
  { split_bind Hh as out1 Hp. injection Hh as <- <- <- _. right. left. split; [not_quit|by vm_compute]. }
  destruct (decide (cmd = "look")) as [->|_].
  { split_bind Hh as out1 Hp. injection Hh as <- <- <- _. right. left. split; [not_quit|by vm_compute]. }
  destruct (decide (cmd ∈ ["take"; "get"])) as [Ht|Ht].
  { split_bind Hh as [s1 lines] Hs1. injection Hh as <- <- <- _.
    right. right. split; [destruct (elem_of_two _ _ _ Ht) as [->| ->]; not_quit|].
    exists main.Take, false, lines. simpl. by rewrite Hs1. }
  destruct (decide (cmd ∈ ["fight"; "attack"])) as [Hf|Hf].
  { split_bind Hh as [[s1 d1] lines] Hs1. injection Hh as <- <- <- _.
    right. right. split; [destruct (elem_of_two _ _ _ Hf) as [->| ->]; not_quit|].
    exists main.Fight, false, lines. simpl. by rewrite Hs1. }
  destruct (String.prefix "use " cmd) eqn:Hp.
  { split_bind Hh as item_name Hname. split_bind Hh as [s1 lines] Hs1.
    injection Hh as <- <- <- _. right. right. split.
    { intros Hq. by destruct (elem_of_two _ _ _ Hq) as [->| ->]. }
    exists (main.Use item_name), false, lines.
    apply getitem_Done_nonneg in Hname; [|done].
    change (Z.to_nat 1) with 1%nat in Hname. rewrite Hname. simpl.
    by rewrite Hs1. }
  destruct (decide (cmd ∈ ["quit"; "q"])) as [Hq|Hq].
  { injection Hh as <- <- <- _. by left. }
  right. left. destruct (decide (cmd = "help")); by injection Hh as <- <- <- _.
Qed.

(** What the main loop makes of the lines typed is what [run] makes of the
    commands in them. *)
Lemma loop_run (cmds : list string) :
  ∀ (s s' : state) (draws rest : list nat) (out : list shown),
    main.loop cmds s draws = Done (s', rest, out) →
    ∃ lines, main.run (script cmds) s draws = Done (s', rest, lines).
Proof.
  induction cmds as [|cmd cmds IH]; intros s s' draws rest out Hl; simpl in Hl.
  - exists []. simpl. destruct (decide _); by injection Hl as <- <- _.
  - destruct (decide (Player.hp (player s) > 0)) as [Hp|Hp].
    2: { injection Hl as <- <- _. exists []. by apply run_dead. }
    split_bind Hl as [[[stop s1] d1] out1] Hh.
    apply handle_step in Hh
      as [(Hq & -> & -> & ->)
         |[(Hq & Hnone & -> & -> & ->)|(Hq & c & moved & lines & Hc & Hstep & ->)]].
    + injection Hl as <- <- _. exists []. simpl. by rewrite decide_True.
    + split_bind Hl as [[s2 d2] out2] Hrest. injection Hl as <- <- _.
      simpl. rewrite decide_False by done. rewrite Hnone. by eapply IH.
    + simpl. rewrite decide_False by done. rewrite Hc. simpl.
      rewrite decide_True by done. rewrite Hstep. simpl.
      destruct (moved && _).
      * injection Hl as <- <- _. by eexists.
      * split_bind Hl as [[s2 d2] out2] Hrest. injection Hl as <- <- _.
        destruct (IH _ _ _ _ _ Hrest) as [lines2 ->]. simpl. by eexists.
Qed.

(** X16: every game the program plays is a run of the commands in the
    lines typed, started in the generated dungeon with the initial player:
    lines that are no command of the game (look, map, help, an unknown
    word, an empty line) change nothing, and nothing typed after "quit"
    has any effect. *)
Theorem main_is_a_run (cmds : list string) (draws rest : list nat) (s : state)
    (out : list shown) :
  main.main cmds draws = Done (s, rest, out) →
  ∃ d draws' lines,
    generate_dungeon draws = Done (d, draws')
    ∧ main.run (script cmds) (mk_state d (main.initial_player (start d))) draws'
      = Done (s, rest, lines).
Proof.
  unfold main.main. intros Hm. split_bind Hm as [d draws'] Hgen.
  split_bind Hm as map Hmap. split_bind Hm as room Hroom.
  split_bind Hm as [[s1 d1] out1] Hloop. split_bind Hm as over Hover.
  injection Hm as <- <- _.
  destruct (loop_run _ _ _ _ _ _ Hloop) as [lines Hrun].
  by exists d, draws', lines.
Qed.

(** ** How a game ends *)

Lemma draw_map_starts (g : list (list bool)) (rs : list (pos * Room.t))
    (player_pos exit_pos : pos) (reveal_all : bool) (text : string) :
  draw_map g rs player_pos exit_pos reveal_all = Done text →
  ∃ more, text = "+" +:+ more.
Proof.
  unfold draw_map, map_lines. intros Hd. split_bind Hd as lines Hlines.
  injection Hd as <-. split_bind Hlines as lines0 Hrows. injection Hlines as <-.
  set (border := "+" +:+ str_repeat "---+" (Z.to_nat WIDTH)) in *.
  assert (∃ rows, lines0 = border :: rows) as [rows ->].
  { refine (for_each_invariant (λ ls, ∃ rows, ls = border :: rows)
              _ _ _ _ _ Hrows _); [|by exists []].
    intros r ls1 ls2 _ Hbody [rows ->].
    split_bind Hbody as [row_mid row_bot] Hrow. injection Hbody as <-.
    by eexists. }
  simpl. destruct (rows ++ _) eqn:Hl.
  - by destruct rows.
  - by eexists.
Qed.

Lemma quiet_said (lines : list event) : Forall quiet (Said <$> lines).
Proof. apply Forall_fmap, Forall_forall. by intros e _. Qed.

Lemma print_map_quiet (s : state) (reveal_all : bool) (out : list shown) :
  main.print_map s reveal_all = Done out → Forall quiet out.
Proof.
  unfold main.print_map. intros Hp. split_bind Hp as text Htext. injection Hp as <-.
  apply draw_map_starts in Htext as [more ->]. by repeat constructor.
Qed.

Lemma look_quiet (s : state) (out : list shown) :
  main.look s = Done out → Forall quiet out.
Proof.
  unfold main.look. intros Hl. split_bind Hl as room Hroom.
  split_bind Hl as dirs Hdirs. injection Hl as <-.
  repeat (apply Forall_cons; split; [done|]).
  apply Forall_app. split; [destruct (Room.enemy room); by repeat constructor|].
  apply Forall_app. split; [destruct (Room.item room); by repeat constructor|].
  by repeat constructor.
Qed.

Lemma effect_keeps_exit (s s' : state) :
  effect s s' → exit_pos (world s') = exit_pos (world s).
Proof. by intros []. Qed.

Lemma take_keeps_pos (s s' : state) (lines : list event) :
  playable s → main.take s = Done (s', lines) →
  Player.pos (player s') = Player.pos (player s).
Proof.
  intros ([_ Hcat] & _) Ht. unfold main.take in Ht. split_bind Ht as room Hroom.
  unfold dict_getitem in Hroom.
  destruct (dict_lookup _ _) as [room0|] eqn:Hroom0; [|done]. injection Hroom as ->.
  destruct (Room.item room) as [it|] eqn:Hit; [|by injection Ht as <- _].
  pose proof (Hcat _ _ _ (dict_lookup_elem _ _ _ Hroom0) Hit) as Hitems.
  destruct (take_player_stats it (player s) Hitems) as (Hp & _).
  unfold take_player in Hp.
  destruct (decide (Item.name it = "potion")); by injection Ht as <- _.
Qed.

(** One pass of the loop's body announces a win exactly when it breaks
    the loop with the player on the exit, and never the end of the game;
    only a move changes the player's position. *)
Lemma handle_ending (cmd : string) (s s' : state) (draws rest : list nat)
    (stop : bool) (out : list shown) :
  playable s →
  Player.pos (player s) ≠ exit_pos (world s) →
  main.handle cmd s draws = Done (stop, s', rest, out) →
  (Text main.over_text ∉ out)
  ∧ (Text main.win_text ∈ out ↔ Player.pos (player s') = exit_pos (world s'))
  ∧ (Player.pos (player s') = exit_pos (world s') →
     stop = true ∧ Player.hp (player s') = Player.hp (player s)).
Proof.
  intros Hs Hpos Hh.
  assert (∀ l, Forall quiet l →
            (Text main.over_text ∉ l) ∧ (Text main.win_text ∉ l)) as Hquiet.
  { intros l Hl. rewrite Forall_forall in Hl.
    split; intros Hin; by destruct (Hl _ Hin). }
  assert (∀ l, s' = s → Forall quiet l →
            (Text main.over_text ∉ l)
            ∧ (Text main.win_text ∈ l ↔ Player.pos (player s') = exit_pos (world s'))
            ∧ (Player.pos (player s') = exit_pos (world s') →
               stop = true ∧ Player.hp (player s') = Player.hp (player s))) as Hsame.
  { intros l -> Hl. destruct (Hquiet l Hl) as [Ho Hw]. split; [done|].
    split; [split; [done|by intros ?]|by intros ?]. }
  assert (∀ direction stop1 s1 out1,
            main.go direction s = Done (stop1, s1, out1) →
            (Text main.over_text ∉ out1)
            ∧ (Text main.win_text ∈ out1 ↔ Player.pos (player s1) = exit_pos (world s1))
            ∧ (Player.pos (player s1) = exit_pos (world s1) →
               stop1 = true ∧ Player.hp (player s1) = Player.hp (player s))) as Hgo.
  { intros direction stop1 s1 out1 Hg. unfold main.go in Hg.
    split_bind Hg as [[moved s2] lines] Hm.
    pose proof (move_effect _ _ _ _ _ Hm) as Heff.
    destruct moved.
    - split_bind Hg as map Hmap. split_bind Hg as room Hroom.
      apply print_map_quiet in Hmap. apply look_quiet in Hroom.
      assert (Forall quiet ((Said <$> lines) ++ [Text ""] ++ map ++ room)) as Hout.
      { apply Forall_app. split; [apply quiet_said|].
        apply Forall_app. split; [by repeat constructor|].
        apply Forall_app. by split. }
      destruct (Hquiet _ Hout) as [Ho Hw].
      destruct (decide _) as [Hexit|Hexit]; injection Hg as <- <- <-.
      + split.
        { rewrite elem_of_app. intros [?|Hin]; [done|].
          apply list_elem_of_singleton in Hin. discriminate Hin. }
        split.
        { split; [done|]. intros _. rewrite elem_of_app. right. apply list_elem_of_here. }
        intros _. split; [done|].
        by apply move_true_inv in Hm as (q & rm & rq & _ & _ & _ & _ & _ & -> & _).
      + split; [done|]. split; [split; [done|by intros ?]|by intros ?].
    - injection Hg as <- <- <-.
      assert (s2 = s) as ->.
      { unfold main.move in Hm.
        destruct (dict_lookup main.deltas direction) as [[dr dc]|];
          [|by injection Hm as <- _].
        split_bind Hm as open Hopen. destruct open; simpl in Hm;
          [|by injection Hm as <- _].
        split_bind Hm as room Hroom.
        destruct (Room.enemy room); [by injection Hm as <- _|].
        split_bind Hm as rs Hrs. done. }
      destruct (Hquiet _ (quiet_said lines)) as [Ho Hw].
      split; [done|]. split; [split; [done|by intros ?]|by intros ?]. }
  assert (∀ l, Player.pos (player s') = Player.pos (player s) →
            exit_pos (world s') = exit_pos (world s) → Forall quiet l →
            (Text main.over_text ∉ l)
            ∧ (Text main.win_text ∈ l ↔ Player.pos (player s') = exit_pos (world s'))
            ∧ (Player.pos (player s') = exit_pos (world s') →
               stop = true ∧ Player.hp (player s') = Player.hp (player s))) as Hstay.
  { intros l Hp He Hl. destruct (Hquiet l Hl) as [Ho Hw]. rewrite Hp, He.
    split; [done|]. split; [split; [done|by intros ?]|by intros ?]. }
  unfold main.handle in Hh.
  destruct (decide _); [injection Hh as <- <- <- <-; by apply Hsame|].
  destruct (decide _).
  { split_bind Hh as [[stop1 s1] out1] Hg. injection Hh as <- <- <- <-. by eapply Hgo. }
  destruct (decide _).
  { split_bind Hh as [[stop1 s1] out1] Hg. injection Hh as <- <- <- <-. by eapply Hgo. }
  destruct (decide _).
  { split_bind Hh as [[stop1 s1] out1] Hg. injection Hh as <- <- <- <-. by eapply Hgo. }
  destruct (decide _).
  { split_bind Hh as [[stop1 s1] out1] Hg. injection Hh as <- <- <- <-. by eapply Hgo. }
  destruct (decide _).
  { split_bind Hh as out1 Hp. injection Hh as <- <- <- <-.
    apply Hsame; [done|]. by eapply print_map_quiet. }
  destruct (decide _).
  { split_bind Hh as out1 Hp. injection Hh as <- <- <- <-.
    apply Hsame; [done|]. by eapply print_map_quiet. }
  destruct (decide _).
  { split_bind Hh as out1 Hp. injection Hh as <- <- <- <-.
    apply Hsame; [done|]. by eapply look_quiet. }
  destruct (decide _).
  { split_bind Hh as [s1 lines] Ht. injection Hh as <- <- <- <-.
    pose proof (take_effect _ _ _ Ht) as Heff.
    apply Hstay; [|by apply effect_keeps_exit|apply quiet_said].
    by eapply take_keeps_pos. }
  destruct (decide _).
  { split_bind Hh as [[s1 d1] lines] Hf. injection Hh as <- <- <- <-.
    pose proof (fight_effect _ _ _ _ _ Hf) as Heff.
    apply Hstay; [|by apply effect_keeps_exit|apply quiet_said].
    unfold main.fight in Hf. split_bind Hf as room Hroom.
    destruct (Room.enemy room) as [en|]; [|by injection Hf as <- _ _].
    split_bind Hf as [[[[en' p'] slain] rest'] battle_lines] Hb.
    injection Hf as <- _ _. simpl.
    apply (battle_frame (length draws)) in Hb as (_ & _ & _ & -> & _); done. }
  destruct (String.prefix "use " cmd).
  { split_bind Hh as item_name Hname. split_bind Hh as [s1 lines] Hu.
    injection Hh as <- <- <- <-.
    pose proof (use_effect _ _ _ _ Hu) as Heff.
    apply Hstay; [|by apply effect_keeps_exit|apply quiet_said].
    unfold main.use in Hu. destruct (decide _); [|by injection Hu as <- _].
    split_bind Hu as inv' Hinv. by injection Hu as <- _. }
  destruct (decide _).
  { injection Hh as <- <- <- <-. apply Hsame; [done|]. by repeat constructor. }
  destruct (decide _); injection Hh as <- <- <- <-;
    (apply Hsame; [done|]; by repeat constructor).
Qed.

Lemma loop_ending (cmds : list string) :
  ∀ (s s' : state) (draws rest : list nat) (out : list shown),
    playable s →
    Player.pos (player s) ≠ exit_pos (world s) →
    main.loop cmds s draws = Done (s', rest, out) →
    (Text main.over_text ∉ out)
    ∧ (Text main.win_text ∈ out ↔ Player.pos (player s') = exit_pos (world s'))
    ∧ (Player.pos (player s') = exit_pos (world s') → Player.hp (player s') > 0).
Proof.
  induction cmds as [|cmd cmds IH]; intros s s' draws rest out Hs Hpos Hl;
    simpl in Hl.
  - destruct (decide _); injection Hl as <- <- <-.
    + split; [by intros [= ?]%list_elem_of_singleton|].
      split; [|done]. split; [by intros [= ?]%list_elem_of_singleton|done].
    + split; [by intros ?%elem_of_nil|].
      split; [|done]. split; [by intros ?%elem_of_nil|done].
  - destruct (decide _) as [Hhp|Hhp].
    2: { injection Hl as <- <- <-. split; [by intros ?%elem_of_nil|].
         split; [|done]. split; [by intros ?%elem_of_nil|done]. }
    split_bind Hl as [[[stop s1] d1] out1] Hh.
    pose proof (effect_keeps_playable _ _ (handle_effect _ _ _ _ _ _ _ Hh) Hs) as Hs1.
    destruct (handle_ending _ _ _ _ _ _ _ Hs Hpos Hh) as (Ho1 & Hw1 & Hstop).
    destruct stop.
    + injection Hl as <- <- <-. split; [done|]. split; [done|].
      intros Hexit. destruct (Hstop Hexit) as [_ ->]. done.
    + split_bind Hl as [[s2 d2] out2] Hrest. injection Hl as <- <- <-.
      assert (Player.pos (player s1) ≠ exit_pos (world s1)) as Hpos1.
      { intros Hexit. by destruct (Hstop Hexit). }
      destruct (IH _ _ _ _ _ Hs1 Hpos1 Hrest) as (Ho2 & Hw2 & Hhp2).
      split; [rewrite elem_of_app; by intros [?|?]|].
      split; [|done]. rewrite elem_of_app, <- Hw2. split; [|by right].
      intros [Hin|?]; [|done]. by apply Hw1 in Hin.
Qed.

Lemma generate_dungeon_ends (draws rest : list nat) (d : dungeon) :
  generate_dungeon draws = Done (d, rest) → start d = (0, 0) ∧ exit_pos d = (4, 6).
Proof.
  intros Hgen. split; [by destruct (generate_dungeon_keys _ _ _ Hgen)|].
  generation_stages Hgen. done.
Qed.

(** X17: the program announces a win exactly when the game ends with the
    player on the exit, and the end of the game ("GAME OVER") exactly when
    it ends with the player's hp at 0 or less; a game never ends both
    ways. *)
Theorem main_announces_the_end (cmds : list string) (draws rest : list nat)
    (s : state) (out : list shown) :
  main.main cmds draws = Done (s, rest, out) →
  (Text main.win_text ∈ out ↔ Player.pos (player s) = exit_pos (world s))
  ∧ (Text main.over_text ∈ out ↔ Player.hp (player s) ≤ 0)
  ∧ ¬ (Player.pos (player s) = exit_pos (world s) ∧ Player.hp (player s) ≤ 0).
Proof.
  unfold main.main. intros Hm. split_bind Hm as [d draws'] Hgen.
  split_bind Hm as map Hmap. split_bind Hm as room Hroom.
  split_bind Hm as [[s1 d1] out1] Hloop. split_bind Hm as over Hover.
  injection Hm as <- <- <-.
  pose proof (generated_playable _ _ _ Hgen) as Hs.
  destruct (generate_dungeon_ends _ _ _ Hgen) as [Hstart Hexit].
  assert (Player.pos (player (mk_state d (main.initial_player (start d))))
          ≠ exit_pos (world (mk_state d (main.initial_player (start d))))) as Hpos.
  { simpl. by rewrite Hstart, Hexit. }
  destruct (loop_ending _ _ _ _ _ _ Hs Hpos Hloop) as (Ho & Hw & Hhp).
  apply print_map_quiet in Hmap. apply look_quiet in Hroom.
  assert (Forall quiet (main.title ++ map ++ room)) as Hhead.
  { apply Forall_app. split; [by repeat constructor|]. apply Forall_app. by split. }
  rewrite Forall_forall in Hhead.
  assert (∀ x, x ∈ main.title ++ map ++ room ++ out1 ++ over ↔
               x ∈ main.title ++ map ++ room ∨ x ∈ out1 ∨ x ∈ over) as Hsplit.
  { intros x. rewrite !elem_of_app. tauto. }
  assert ((Text main.win_text ∉ over)
          ∧ (Text main.over_text ∈ over ↔ Player.hp (player s1) ≤ 0)) as [Hwo Hoo].
  { destruct (decide (Player.hp (player s1) ≤ 0)) as [Hdead|Halive].
    - split_bind Hover as final Hfinal. injection Hover as <-.
      apply print_map_quiet in Hfinal. rewrite Forall_forall in Hfinal. split.
      + intros [[= ?]|[[= ?]|Hin]%elem_of_cons]%elem_of_cons.
        by destruct (Hfinal _ Hin).
      + split; [done|]. intros _. apply list_elem_of_here.
    - injection Hover as <-. split; [by intros ?%elem_of_nil|].
      split; [by intros ?%elem_of_nil|done]. }
  split_and!.
  - rewrite Hsplit, <- Hw. split; [|auto].
    intros [Hin|[?|?]]; [|done..]. by destruct (Hhead _ Hin).
  - rewrite Hsplit, <- Hoo. split; [|auto].
    intros [Hin|[?|?]]; [|done..]. by destruct (Hhead _ Hin).
  - intros [Hp Hdead]. specialize (Hhp Hp). lia.
Qed.

(** ** Picking up *)

(** X18: taking an item of the catalog appends its name to the inventory
    and applies its effect at once, except for a potion, which is only
    carried: a sword gives +2 atk, a dagger +1 atk, a shield +3 max_hp and
    +3 hp; the last line printed is the status of the player as it is
    then. *)
Theorem take_equips (s : state) (room : Room.t) (it : Item.t) :
  current_room s = Some room →
  Room.item room = Some it →
  it ∈ ITEMS →
  ∃ s' line,
    main.take s = Done (s', [line; main.status (player s')])
    ∧ Player.inv (player s') = Player.inv (player s) ++ [Item.name it]
    ∧ Player.pos (player s') = Player.pos (player s)
    ∧ Player.atk (player s') =
        Player.atk (player s)
        + (if decide (Item.name it = "sword") then 2
           else if decide (Item.name it = "dagger") then 1 else 0)
    ∧ Player.max_hp (player s') =
        Player.max_hp (player s) + (if decide (Item.name it = "shield") then 3 else 0)
    ∧ Player.hp (player s') =
        Player.hp (player s) + (if decide (Item.name it = "shield") then 3 else 0).
Proof.
  unfold current_room, main.take, dict_getitem. intros -> Hit Hin. simpl.
  rewrite Hit. unfold ITEMS in Hin.
  repeat (apply elem_of_cons in Hin as [->|Hin];
          [simpl; eexists (mk_state _ _), _; split; [reflexivity|]; simpl;
           split_and!; (reflexivity || lia)|]).
  by apply elem_of_nil in Hin.
Qed.

(** ** The theorems at the sample states *)

Lemma sample_generated : generate_dungeon sample_draws = Done (sample_dungeon, []).
Proof. vm_compute. reflexivity. Defined.

Lemma sample_grid_wf : wf_grid (grid sample_dungeon).
Proof. split; [reflexivity|]. repeat constructor. Defined.

Lemma generated_dungeon_connected_witness :
  generate_dungeon sample_draws = Done (sample_dungeon, [])
  ∧ start sample_dungeon = (0, 0)
  ∧ reachable (grid sample_dungeon) (4, 6).
Proof.
  destruct (generated_dungeon_connected sample_draws [] sample_dungeon sample_generated)
    as (Hstart & Hreach & _).
  split; [exact sample_generated|]. split; [exact Hstart|].
  apply Hreach. split; vm_compute; reflexivity.
Defined.

Lemma generated_room_enemy_or_item_witness :
  generate_dungeon sample_draws = Done (sample_dungeon, [])
  ∧ ((2, 0), sample_room_at (2, 0)) ∈ rooms sample_dungeon
  ∧ (Room.enemy (sample_room_at (2, 0)) = None
     ∨ Room.item (sample_room_at (2, 0)) = None).
Proof.
  assert (((2, 0), sample_room_at (2, 0)) ∈ rooms sample_dungeon) as Hin.
  { apply dict_lookup_elem. vm_compute. reflexivity. }
  split; [exact sample_generated|]. split; [exact Hin|].
  exact (generated_room_enemy_or_item sample_draws [] sample_dungeon (2, 0)
           (sample_room_at (2, 0)) sample_generated Hin).
Defined.

Lemma fight_goblin_two_hits_witness :
  encounter goblin_fight [0; 0; 0; 0; 0]%nat [1; 1; 1] [1; 1] 10.
Proof.
  apply (fight_goblin_two_hits goblin_fight (sample_room_at (4, 3))
           (Enemy.mk "Goblin" 3 1));
    [vm_compute; reflexivity|reflexivity..|simpl; lia].
Defined.

Lemma move_blocked_by_live_enemy_witness :
  wf_grid (grid (world goblin_fight))
  ∧ current_room goblin_fight = Some (sample_room_at (4, 3))
  ∧ Room.enemy (sample_room_at (4, 3)) = Some (Enemy.mk "Goblin" 3 1)
  ∧ ∃ lines, main.move "north" goblin_fight = Done (false, goblin_fight, lines).
Proof.
  assert (current_room goblin_fight = Some (sample_room_at (4, 3))) as Hroom
    by (vm_compute; reflexivity).
  assert (Room.enemy (sample_room_at (4, 3)) = Some (Enemy.mk "Goblin" 3 1)) as He
    by reflexivity.
  split; [exact sample_grid_wf|]. split; [exact Hroom|]. split; [exact He|].
  apply (move_blocked_by_live_enemy goblin_fight "north" _ _ sample_grid_wf Hroom He).
  reflexivity.
Defined.

Lemma use_potion_heals_witness :
  "potion" ∈ Player.inv (player wounded_state)
  ∧ ∃ s' l1 l2,
      let p := player wounded_state in
      let p' := player s' in
      main.use "potion" wounded_state =
        Done (s', [Healed (Z.min 5 (Player.max_hp p - Player.hp p))
                     (Player.hp p') (Player.max_hp p')])
      ∧ Player.inv p = l1 ++ "potion" :: l2
      ∧ ("potion" ∉ l1)
      ∧ Player.inv p' = l1 ++ l2
      ∧ Player.hp p' ≤ Player.max_hp p'
      ∧ Player.hp p' - Player.hp p = Z.min 5 (Player.max_hp p - Player.hp p)
      ∧ Player.max_hp p' = Player.max_hp p
      ∧ Player.atk p' = Player.atk p
      ∧ Player.pos p' = Player.pos p
      ∧ world s' = world wounded_state.
Proof.
  assert ("potion" ∈ Player.inv (player wounded_state)) as Hin.
  { apply list_elem_of_further, list_elem_of_here. }
  split; [exact Hin|]. exact (use_potion_heals wounded_state Hin).
Defined.

Lemma use_potion_at_full_health_witness :
  "potion" ∈ Player.inv (player healthy_state)
  ∧ Player.hp (player healthy_state) = Player.max_hp (player healthy_state)
  ∧ ∃ s' l1 l2,
      main.use "potion" healthy_state =
        Done (s', [Healed 0 (Player.hp (player healthy_state))
                     (Player.max_hp (player healthy_state))])
      ∧ Player.inv (player healthy_state) = l1 ++ "potion" :: l2
      ∧ ("potion" ∉ l1)
      ∧ Player.inv (player s') = l1 ++ l2
      ∧ S (length (Player.inv (player s'))) = length (Player.inv (player healthy_state))
      ∧ Player.hp (player s') = Player.hp (player healthy_state).
Proof.
  assert ("potion" ∈ Player.inv (player healthy_state)) as Hin
    by apply list_elem_of_here.
  split; [exact Hin|]. split; [reflexivity|].
  exact (use_potion_at_full_health healthy_state Hin eq_refl).
Defined.

Lemma fight_terminates_witness :
  current_room goblin_fight = Some (sample_room_at (4, 3))
  ∧ ∃ s' rest lines e' slain battle_lines,
      main.fight goblin_fight [0; 1; 2; 3; 4; 5]%nat = Done (s', rest, lines)
      ∧ main.battle [0; 1; 2; 3; 4; 5]%nat (Enemy.mk "Goblin" 3 1) (player goblin_fight)
        = Done (e', player s', slain, rest, battle_lines)
      ∧ (Enemy.hp e' ≤ 0 ∨ Player.hp (player s') ≤ 0)
      ∧ (Room.enemy <$> current_room s') = Some (if slain then None else Some e').
Proof.
  assert (current_room goblin_fight = Some (sample_room_at (4, 3))) as Hroom
    by (vm_compute; reflexivity).
  split; [exact Hroom|].
  apply (fight_terminates goblin_fight (sample_room_at (4, 3)) (Enemy.mk "Goblin" 3 1));
    [exact Hroom|reflexivity|simpl; lia|simpl; lia|simpl; lia].
Defined.

Lemma move_rejects_bad_destination_witness :
  (wf_grid (grid (world sample_state))
   ∧ ("up" ∉ cardinal_names)
   ∧ ∃ lines, main.move "up" sample_state = Done (false, sample_state, lines))
  ∧ (destination sample_state "east" = Some (0, 1)
     ∧ ¬ carved (grid (world sample_state)) (0, 1)
     ∧ ∃ lines, main.move "east" sample_state = Done (false, sample_state, lines))
  ∧ (Player.pos (player sample_state) = (0, 0)
     ∧ main.move "north" sample_state = Done (false, sample_state, [CantGoThatWay])).
Proof.
  destruct move_rejects_bad_destination as [Hgeneral Hnorth].
  assert ("up" ∉ cardinal_names) as Hup.
  { intros Hin. unfold cardinal_names in Hin.
    repeat (apply elem_of_cons in Hin as [Heq|Hin]; [discriminate Heq|]).
    by apply elem_of_nil in Hin. }
  assert (¬ carved (grid (world sample_state)) (0, 1)) as Hrock.
  { intros [_ Hget]. vm_compute in Hget. discriminate Hget. }
  split_and!.
  - exact sample_grid_wf.
  - exact Hup.
  - apply (Hgeneral sample_state "up" sample_grid_wf). by left.
  - reflexivity.
  - exact Hrock.
  - apply (Hgeneral sample_state "east" sample_grid_wf). right. right.
    exists (0, 1). by split.
  - reflexivity.
  - apply (Hnorth sample_state). reflexivity.
Defined.

Lemma take_once_then_noop_witness :
  current_room sword_room_state = Some (sample_room_at (2, 5))
  ∧ (Item.name <$> Room.item (sample_room_at (2, 5))) = Some "sword"
  ∧ ∃ s' lines,
      main.take sword_room_state = Done (s', lines)
      ∧ (∃ room', current_room s' = Some room' ∧ Room.item room' = None)
      ∧ main.take s' = Done (s', [NothingToPickUp]).
Proof.
  assert (current_room sword_room_state = Some (sample_room_at (2, 5))) as Hroom
    by (vm_compute; reflexivity).
  split; [exact Hroom|]. split; [reflexivity|].
  destruct (Room.item (sample_room_at (2, 5))) as [it|] eqn:Hit;
    [|vm_compute in Hit; discriminate Hit].
  apply (take_once_then_noop sword_room_state (sample_room_at (2, 5)) it Hroom Hit).
  vm_compute in Hit. injection Hit as <-. apply list_elem_of_here.
Defined.

Lemma visited_stays_true_witness :
  visited_at sample_state (0, 0)
  ∧ (∃ s' lines,
       main.step (main.Move "south") sample_state [] = Done (true, s', [], lines)
       ∧ visited_at s' (0, 0))
  ∧ (∃ s' rest lines,
       main.run [main.Move "south"; main.Take; main.Move "south"; main.Fight;
                 main.Use "potion"] sample_state [5; 7; 1; 3; 0; 2]%nat
         = Done (s', rest, lines)
       ∧ visited_at s' (0, 0)).
Proof.
  destruct (visited_stays_true (0, 0)) as [Hstep Hrun].
  assert (visited_at sample_state (0, 0)) as Hv.
  { eexists. split; [vm_compute; reflexivity|reflexivity]. }
  split; [exact Hv|]. split.
  - destruct (main.step (main.Move "south") sample_state [])
      as [[[[moved s'] rest] lines]| |] eqn:Hs;
      [|vm_compute in Hs; discriminate Hs..].
    assert (moved = true ∧ rest = []) as [-> ->].
    { vm_compute in Hs. injection Hs as <- _ <- _. by split. }
    exists s', lines. split; [reflexivity|]. by eapply Hstep.
  - destruct (main.run _ sample_state _) as [[[s' rest] lines]| |] eqn:Hr;
      [|vm_compute in Hr; discriminate Hr..].
    exists s', rest, lines. split; [reflexivity|]. by eapply Hrun.
Defined.

Lemma generated_rooms_are_carved_cells_witness :
  generate_dungeon sample_draws = Done (sample_dungeon, [])
  ∧ NoDup (dict_keys (rooms sample_dungeon))
  ∧ ∀ p, p ∈ dict_keys (rooms sample_dungeon) ↔ carved (grid sample_dungeon) p.
Proof.
  split; [exact sample_generated|].
  exact (generated_rooms_are_carved_cells sample_draws [] sample_dungeon
           sample_generated).
Defined.

Lemma generated_dungeon_room_bounds_witness :
  generate_dungeon sample_draws = Done (sample_dungeon, [])
  ∧ (11 ≤ length (rooms sample_dungeon) ≤ 35)%nat.
Proof.
  split; [exact sample_generated|].
  exact (generated_dungeon_room_bounds sample_draws [] sample_dungeon
           sample_generated).
Defined.

Lemma generated_enemy_and_item_counts_witness :
  generate_dungeon sample_draws = Done (sample_dungeon, [])
  ∧ length (rooms sample_dungeon) = 22%nat
  ∧ length (rooms_with_enemy (rooms sample_dungeon)) = 6%nat
  ∧ length (rooms_with_item (rooms sample_dungeon)) = 7%nat.
Proof.
  split; [exact sample_generated|]. split; [reflexivity|].
  destruct (generated_enemy_and_item_counts sample_draws [] sample_dungeon
              sample_generated) as (He & Hi & _).
  split; [exact He|exact Hi].
Defined.

Lemma generated_contents_from_catalogs_witness :
  generate_dungeon sample_draws = Done (sample_dungeon, [])
  ∧ ((2, 0), sample_room_at (2, 0)) ∈ rooms sample_dungeon
  ∧ Room.enemy (sample_room_at (2, 0)) = Some (Enemy.mk "Wraith" 5 3)
  ∧ Enemy.mk "Wraith" 5 3 ∈ ENEMIES.
Proof.
  assert (((2, 0), sample_room_at (2, 0)) ∈ rooms sample_dungeon) as Hin.
  { apply dict_lookup_elem. vm_compute. reflexivity. }
  split; [exact sample_generated|]. split; [exact Hin|]. split; [reflexivity|].
  destruct (generated_contents_from_catalogs sample_draws [] sample_dungeon (2, 0)
              (sample_room_at (2, 0)) sample_generated Hin) as [He _].
  destruct (He (Enemy.mk "Wraith" 5 3) eq_refl) as [Hcat _]. exact Hcat.
Defined.

Lemma generated_start_and_exit_witness :
  generate_dungeon sample_draws = Done (sample_dungeon, [])
  ∧ start sample_dungeon = (0, 0) ∧ exit_pos sample_dungeon = (4, 6)
  ∧ (∃ room, dict_lookup (rooms sample_dungeon) (0, 0) = Some room)
  ∧ (∃ room, dict_lookup (rooms sample_dungeon) (4, 6) = Some room).
Proof.
  split; [exact sample_generated|].
  destruct (generated_start_and_exit sample_draws [] sample_dungeon sample_generated)
    as (Hs & He & Hr0 & Hr1 & _).
  split; [exact Hs|]. split; [exact He|]. split; [exact Hr0|exact Hr1].
Defined.

Lemma move_true_iff_witness :
  ∃ s', main.move "south" sample_state = Done (true, s', [])
        ∧ Player.pos (player s') = (1, 0)
        ∧ visited_at s' (1, 0).
Proof.
  eexists. split.
  - apply move_true_iff.
    exists (1, 0), (sample_room_at (0, 0)), (sample_room_at (1, 0)).
    split; [reflexivity|]. split; [split; vm_compute; reflexivity|].
    split; [vm_compute; reflexivity|]. split; [reflexivity|].
    split; [vm_compute; reflexivity|]. split; reflexivity.
  - split; [reflexivity|].
    eexists. split; [vm_compute; reflexivity|reflexivity].
Defined.



Lemma game_stays_playable_witness :
  generate_dungeon sample_draws = Done (sample_dungeon, [])
  ∧ ∃ s rest lines,
      main.run [main.Move "south"; main.Take; main.Move "south"; main.Fight;
                main.Use "potion"] sample_state [5; 7; 1; 3; 0; 2]%nat
        = Done (s, rest, lines)
      ∧ playable s.
Proof.
  split; [exact sample_generated|].
  destruct (main.run [main.Move "south"; main.Take; main.Move "south"; main.Fight;
                      main.Use "potion"] sample_state [5; 7; 1; 3; 0; 2]%nat)
    as [[[s rest] lines]| |] eqn:Hr; [|vm_compute in Hr; discriminate Hr..].
  exists s, rest, lines. split; [reflexivity|].
  exact (game_stays_playable sample_draws [] [5; 7; 1; 3; 0; 2]%nat rest sample_dungeon
           _ s lines sample_generated Hr).
Defined.

Lemma game_only_wears_down_witness :
  generate_dungeon sample_draws = Done (sample_dungeon, [])
  ∧ ∃ s rest lines,
      main.run [main.Move "south"; main.Take; main.Move "south"; main.Fight;
                main.Use "potion"] sample_state [5; 7; 1; 3; 0; 2]%nat
        = Done (s, rest, lines)
      ∧ wears sample_state s.
Proof.
  split; [exact sample_generated|].
  destruct (main.run [main.Move "south"; main.Take; main.Move "south"; main.Fight;
                      main.Use "potion"] sample_state [5; 7; 1; 3; 0; 2]%nat)
    as [[[s rest] lines]| |] eqn:Hr; [|vm_compute in Hr; discriminate Hr..].
  exists s, rest, lines. split; [reflexivity|].
  exact (game_only_wears_down sample_draws [] [5; 7; 1; 3; 0; 2]%nat rest sample_dungeon
           _ s lines sample_generated Hr).
Defined.

Lemma draw_map_shape_witness :
  ∃ text border rows,
    draw_map (grid sample_dungeon) (rooms sample_dungeon) (0, 0) (4, 6) false = Done text
    ∧ text = String.concat newline (border :: rows ++ [""; legend])
    ∧ length rows = 10%nat
    ∧ Forall (λ line, String.length line = 29%nat) (border :: rows).
Proof.
  destruct (draw_map (grid sample_dungeon) (rooms sample_dungeon) (0, 0) (4, 6) false)
    as [text| |] eqn:Hd; [|vm_compute in Hd; discriminate Hd..].
  destruct (draw_map_shape _ _ _ _ _ _ Hd) as (border & rows & Htext & Hlen & Hall).
  exists text, border, rows. split; [reflexivity|]. split; [exact Htext|].
  split; [exact Hlen|exact Hall].
Defined.

Lemma map_hides_unvisited_witness :
  Room.enemy (sample_room_at (2, 0)) = Some (Enemy.mk "Wraith" 5 3)
  ∧ draw_map (grid sample_dungeon) (rooms sample_dungeon) (0, 0) (4, 6) false
    = draw_map (grid sample_dungeon)
        (dict_setitem (rooms sample_dungeon) (2, 0)
           (Room.set_enemy None (sample_room_at (2, 0))))
        (0, 0) (4, 6) false.
Proof.
  split; [reflexivity|]. apply map_hides_unvisited.
  intros p. rewrite dict_lookup_setitem.
  destruct (decide ((2, 0) = p)) as [<-|Hne].
  - rewrite decide_True by reflexivity. vm_compute.
    split; [reflexivity|]. intros Hv. discriminate Hv.
  - rewrite decide_False by exact Hne.
    destruct (dict_lookup (rooms sample_dungeon) p); [|exact I].
    split; [reflexivity|]. intros _. split; reflexivity.
Defined.

Lemma look_lists_the_open_exits_witness :
  ∃ out room dirs,
    main.look sample_state = Done out
    ∧ current_room sample_state = Some room
    ∧ Looked (Exits dirs) ∈ out
    ∧ ∀ name, name ∈ dirs ↔
        ∃ q, destination sample_state name = Some q
             ∧ carved (grid (world sample_state)) q.
Proof.
  destruct (main.look sample_state) as [out| |] eqn:Hl;
    [|vm_compute in Hl; discriminate Hl..].
  destruct (look_lists_the_open_exits sample_state out
              (generated_playable _ _ _ sample_generated) Hl)
    as (room & dirs & Hroom & Hin & _ & Hopen & _).
  exists out, room, dirs. split; [reflexivity|]. split; [exact Hroom|].
  split; [exact Hin|exact Hopen].
Defined.

Lemma main_is_a_run_witness :
  ∃ s rest out d draws' lines,
    main.main ["s"; "look"; "s"; "fight"; "quit"; "n"] (sample_draws ++ [5; 7; 1; 3; 0; 2]%nat)
      = Done (s, rest, out)
    ∧ generate_dungeon (sample_draws ++ [5; 7; 1; 3; 0; 2]%nat) = Done (d, draws')
    ∧ main.run [main.Move "south"; main.Move "south"; main.Fight]
        (mk_state d (main.initial_player (start d))) draws'
      = Done (s, rest, lines).
Proof.
  destruct (main.main ["s"; "look"; "s"; "fight"; "quit"; "n"]
              (sample_draws ++ [5; 7; 1; 3; 0; 2]%nat))
    as [[[s rest] out]| |] eqn:Hm; [|vm_compute in Hm; discriminate Hm..].
  destruct (main_is_a_run _ _ _ _ _ Hm) as (d & draws' & lines & Hgen & Hrun).
  exists s, rest, out, d, draws', lines. split; [reflexivity|].
  split; [exact Hgen|exact Hrun].
Defined.

Lemma main_announces_the_end_witness :
  ∃ s rest out,
    main.main ["s"; "s"; "fight"; "s"; "e"; "e"; "e"; "e"; "e"; "e"; "s"; "n"]
      (sample_draws ++ [5; 7; 1; 3; 0; 2]%nat)
      = Done (s, rest, out)
    ∧ Player.pos (player s) = (4, 6)
    ∧ exit_pos (world s) = (4, 6)
    ∧ Text main.win_text ∈ out
    ∧ (Text main.over_text ∉ out).
Proof.
  destruct (main.main ["s"; "s"; "fight"; "s"; "e"; "e"; "e"; "e"; "e"; "e"; "s"; "n"]
              (sample_draws ++ [5; 7; 1; 3; 0; 2]%nat))
    as [[[s rest] out]| |] eqn:Hm; [|vm_compute in Hm; discriminate Hm..].
  destruct (main_announces_the_end _ _ _ _ _ Hm) as (Hwin & Hover & _).
  assert (Player.pos (player s) = (4, 6) ∧ exit_pos (world s) = (4, 6)
          ∧ Player.hp (player s) = 9) as (Hpos & Hexit & Hhp).
  { vm_compute in Hm. injection Hm as <- _ _. split_and!; reflexivity. }
  exists s, rest, out. split; [reflexivity|]. split; [exact Hpos|].
  split; [exact Hexit|]. split.
  - apply Hwin. rewrite Hpos, Hexit. reflexivity.
  - intros Hin. apply Hover in Hin. rewrite Hhp in Hin. lia.
Defined.

Lemma take_equips_witness :
  current_room sword_room_state = Some (sample_room_at (2, 5))
  ∧ (Item.name <$> Room.item (sample_room_at (2, 5))) = Some "sword"
  ∧ ∃ s' line,
      main.take sword_room_state = Done (s', [line; main.status (player s')])
      ∧ Player.inv (player s') = ["sword"]
      ∧ Player.atk (player s') = 4.
Proof.
  assert (current_room sword_room_state = Some (sample_room_at (2, 5))) as Hroom
    by (vm_compute; reflexivity).
  split; [exact Hroom|]. split; [reflexivity|].
  destruct (Room.item (sample_room_at (2, 5))) as [it|] eqn:Hit;
    [|vm_compute in Hit; discriminate Hit].
  assert (it ∈ ITEMS ∧ Item.name it = "sword") as [Hin Hname].
  { vm_compute in Hit. injection Hit as <-. split; [apply list_elem_of_here|reflexivity]. }
  destruct (take_equips sword_room_state (sample_room_at (2, 5)) it Hroom Hit Hin)
    as (s' & line & Ht & Hinv & _ & Hatk & _).
  exists s', line. split; [exact Ht|]. rewrite Hname in Hinv, Hatk.
  split; [exact Hinv|exact Hatk].
Defined.
